(** * dataplug: the FASTA map/reduce indexer and the range partitioner

    A shallow embedding of
    - [cloudnative_datasets/genomics/sequence.py]
      ([FASTAPreprocesser.__get_length], [FASTAPreprocesser.map],
      [FASTAPreprocesser.reduce]), and
    - [cloudnative_datasets/cobase.py]
      ([CloudObjectWrapper._get_preprocesser] and the map/reduce branch of
      [CloudObject.__local_preprocess], with the floats of its chunking).

    Python [str] values are [string]s (the decoded text is taken to be
    ASCII, so that character offsets and byte offsets agree), Python [int]s
    are [Z], Python lists are [list]s, exceptions are the [Raise] results of
    a small error monad.  The in-place mutation performed by [reduce] is
    written as explicit state passing over the list of records. *)

From Stdlib Require Import ZArith String Ascii List Lia Bool.
From Stdlib Require Import DecimalString DecimalPos DecimalZ.
From stdpp Require Import base list strings.

Open Scope Z_scope.

#[local] Arguments String.append !_ _ / : simpl nomatch.

(** ** Exceptions *)

Inductive PyErr : Type :=
| IndexError
| ValueError
| ZeroDivisionError
| OverflowError
| AttributeError
| Exception (msg : string).

Inductive result (A : Type) : Type :=
| Ok (a : A)
| Raise (e : PyErr).

Arguments Ok {A} a.
Arguments Raise {A} e.

#[global] Instance result_ret : MRet result := @Ok.
#[global] Instance result_bind : MBind result :=
  λ A B (f : A → result B) (m : result A),
    match m with
    | Ok a => f a
    | Raise e => Raise e
    end.

#[global] Instance result_fmap : FMap result :=
  λ A B (f : A → B) (m : result A),
    match m with
    | Ok a => Ok (f a)
    | Raise e => Raise e
    end.

(** ** Python string primitives *)

Module Py.

Definition nl : ascii := "010"%char.
Definition gt : ascii := ">"%char.

(** [len(s)] *)
Definition len (s : string) : Z := Z.of_nat (String.length s).

(** [sub in s] *)
Fixpoint contains (sub s : string) : bool :=
  String.prefix sub s ||
  match s with
  | EmptyString => false
  | String _ s' => contains sub s'
  end.

(** [c in s] for a one-character [c] *)
Fixpoint has_char (c : ascii) (s : string) : bool :=
  match s with
  | EmptyString => false
  | String a s' => Ascii.eqb a c || has_char c s'
  end.

(** [s.replace(old, new)] for a non-empty [old]: the occurrences are
    replaced from left to right without overlap.  [skip] counts the
    characters of a matched occurrence that are still to be dropped. *)
Fixpoint replace_scan (old new : string) (skip : nat) (s : string) : string :=
  match s with
  | EmptyString => EmptyString
  | String c s' =>
      match skip with
      | S k => replace_scan old new k s'
      | O =>
          if String.prefix old s
          then new +:+ replace_scan old new (Nat.pred (String.length old)) s'
          else String c (replace_scan old new O s')
      end
  end.

(** With an empty [old] Python inserts [new] before every character and at
    the end. *)
Fixpoint replace_empty (new s : string) : string :=
  match s with
  | EmptyString => new
  | String c s' => new +:+ String c (replace_empty new s')
  end.

Definition replace (old new s : string) : string :=
  match old with
  | EmptyString => replace_empty new s
  | _ => replace_scan old new O s
  end.

(** [s.split(sep)] for a one-character separator: never the empty list,
    adjacent separators give empty fields. *)
Fixpoint split (sep : ascii) (s : string) : list string :=
  match s with
  | EmptyString => [EmptyString]
  | String c s' =>
      if Ascii.eqb c sep then EmptyString :: split sep s'
      else match split sep s' with
           | f :: fs => String c f :: fs
           | [] => [String c EmptyString]
           end
  end.

(** Slice bounds: a negative index counts from the end, and both bounds are
    clamped to the string. *)
Definition clamp (n i : Z) : Z :=
  if i <? 0 then Z.max 0 (i + n) else Z.min i n.

(** [s[a:b]] *)
Definition slice (s : string) (a b : Z) : string :=
  let a' := clamp (len s) a in
  let b' := clamp (len s) b in
  String.substring (Z.to_nat a') (Z.to_nat (b' - a')) s.

(** [s[a::]] *)
Definition slice_from (s : string) (a : Z) : string :=
  let a' := clamp (len s) a in
  String.substring (Z.to_nat a') (String.length s - Z.to_nat a')%nat s.

(** [str(n)] and the [{n}] of an f-string, for an [int]. *)
Definition str (n : Z) : string := NilZero.string_of_int (Z.to_int n).

(** [int(s)]: surrounding white space is stripped, then an optional sign
    and decimal digits, which single underscores may separate. *)
Definition is_space (c : ascii) : bool :=
  let n := nat_of_ascii c in
  ((9 <=? n) && (n <=? 13) || (28 <=? n) && (n <=? 32))%nat.

Fixpoint lstrip (s : string) : string :=
  match s with
  | String c s' => if is_space c then lstrip s' else s
  | EmptyString => EmptyString
  end.

Fixpoint rstrip (s : string) : string :=
  match s with
  | EmptyString => EmptyString
  | String c s' =>
      match rstrip s' with
      | EmptyString => if is_space c then EmptyString else String c EmptyString
      | r => String c r
      end
  end.

Definition digit_of (c : ascii) : option Z :=
  let n := nat_of_ascii c in
  if ((48 <=? n) && (n <=? 57))%nat then Some (Z.of_nat n - 48) else None.

(** [digits acc us s]: [us] tells that the previous character was an
    underscore, which a digit has to follow. *)
Fixpoint digits (acc : Z) (us : bool) (s : string) : option Z :=
  match s with
  | EmptyString => if us then None else Some acc
  | String c s' =>
      match digit_of c with
      | Some d => digits (10 * acc + d) false s'
      | None =>
          if Ascii.eqb c "_"%char && negb us then digits acc true s' else None
      end
  end.

Definition unsigned (s : string) : option Z :=
  match s with
  | String c s' =>
      match digit_of c with
      | Some d => digits d false s'
      | None => None
      end
  | EmptyString => None
  end.

Definition int (s : string) : result Z :=
  let r :=
    match rstrip (lstrip s) with
    | String "-"%char s' => Z.opp <$> unsigned s'
    | String "+"%char s' => unsigned s'
    | s' => unsigned s'
    end in
  match r with
  | Some n => Ok n
  | None => Raise ValueError
  end.

(** ** Python list primitives *)

(** [l[-1]] *)
Definition last {A} (l : list A) : result A :=
  match List.rev l with
  | x :: _ => Ok x
  | [] => Raise IndexError
  end.

(** [l[-1] = x] *)
Definition set_last {A} (l : list A) (x : A) : result (list A) :=
  match l with
  | [] => Raise IndexError
  | _ => Ok (List.removelast l ++ [x])
  end.

(** [l.pop()] *)
Definition pop {A} (l : list A) : result (list A) :=
  match l with
  | [] => Raise IndexError
  | _ => Ok (List.removelast l)
  end.

(** The position that the index [i] of a list of length [n] denotes. *)
Definition position (n : nat) (i : Z) : result nat :=
  if (0 <=? i) && (i <? Z.of_nat n) then Ok (Z.to_nat i)
  else if (i <? 0) && (0 <=? i + Z.of_nat n) then Ok (Z.to_nat (i + Z.of_nat n))
  else Raise IndexError.

(** [l[i]] *)
Definition get {A} (l : list A) (i : Z) : result A :=
  p ← position (length l) i;
  match l !! p with
  | Some x => Ok x
  | None => Raise IndexError
  end.

(** [l[i] = x] *)
Definition set {A} (l : list A) (i : Z) (x : A) : result (list A) :=
  p ← position (length l) i;
  Ok (<[p:=x]> l).

(** [range(a, b)] *)
Definition range (a b : Z) : list Z :=
  List.map (λ k, a + Z.of_nat k) (seq 0 (Z.to_nat (b - a))).

End Py.

(** The text ["\n"]. *)
Definition NL : string := String Py.nl "".

(** [s.split(sep)[0]]: the list [s.split(sep)] is never empty. *)
Definition first_field (sep : ascii) (s : string) : string :=
  match Py.split sep s with
  | f :: _ => f
  | [] => ""
  end.

(** A loop [for x in l: st = body(st, x)] whose body may raise. *)
Fixpoint for_each {S A} (body : S → A → result S) (st : S) (l : list A)
  : result S :=
  match l with
  | [] => Ok st
  | x :: l' => st' ← body st x; for_each body st' l'
  end.

(** ** The three regular expressions of [map]

    A match object is its span; [group] reads the matched text back from the
    searched string.  Each scanner returns what [re.finditer] returns for its
    pattern: the leftmost matches from left to right, without overlap.  The
    dot matches every character but the newline. *)

Record Match : Type := { m_start : Z; m_end : Z }.

Definition group (s : string) (m : Match) : string :=
  Py.slice s (m_start m) (m_end m).

Module Re.

(** The index of the first newline of [s]. *)
Fixpoint find_nl (s : string) : option nat :=
  match s with
  | EmptyString => None
  | String c s' => if Ascii.eqb c Py.nl then Some O else S <$> find_nl s'
  end.

(** [re.finditer(r"\n>", s)], the text [s] starting at offset [pos].  A
    match cannot start on the [>] that ends the previous one. *)
Fixpoint newline_gt (pos : Z) (s : string) : list Match :=
  match s with
  | EmptyString => []
  | String c s' =>
      if Ascii.eqb c Py.nl && String.prefix ">" s'
      then {| m_start := pos; m_end := pos + 2 |} :: newline_gt (pos + 1) s'
      else newline_gt (pos + 1) s'
  end.

(** [re.finditer(r">.+\n", s)]: a [>], then at least one character that is
    not a newline, up to the first newline, which is included.  A [>] that
    the end of the text or a newline follows directly does not match. [skip]
    counts the characters of the last match still to be passed over. *)
Fixpoint header_line (pos : Z) (skip : nat) (s : string) : list Match :=
  match s with
  | EmptyString => []
  | String c s' =>
      match skip with
      | S k => header_line (pos + 1) k s'
      | O =>
          if Ascii.eqb c Py.gt then
            match find_nl s' with
            | Some (S n) =>
                {| m_start := pos; m_end := pos + Z.of_nat (S n) + 2 |}
                  :: header_line (pos + 1) (S (S n)) s'
            | _ => header_line (pos + 1) O s'
            end
          else header_line (pos + 1) O s'
      end
  end.

(** [re.finditer('.*\n', s)]: the lines of [s] that a newline ends, each
    with its newline; [start] is where the current line began. *)
Fixpoint any_line (pos start : Z) (s : string) : list Match :=
  match s with
  | EmptyString => []
  | String c s' =>
      if Ascii.eqb c Py.nl
      then {| m_start := start; m_end := pos + 1 |}
             :: any_line (pos + 1) (pos + 1) s'
      else any_line (pos + 1) start s'
  end.

End Re.

(** ** [FASTAPreprocesser.map] *)

(** The record that [map] returns: the dict with the keys ['min_range'],
    ['max_range'] and ['sequences']. *)
Record PartialRecord : Type :=
  { min_range : Z; max_range : Z; sequences : list string }.

(** [FASTAPreprocesser.__get_length]: appends the number of bases between
    the two offsets to the last entry of [content]. *)
Definition __get_length (min_range : Z) (content : list string)
    (data : string) (start_base end_base : Z) : result (list string) :=
  let start_base := start_base - min_range in
  let end_base := end_base - min_range in
  let len_base := Py.len (Py.replace NL "" (Py.slice data start_base end_base)) in
  c ← Py.last content;
  Py.set_last content (c +:+ " " +:+ Py.str len_base).

(** The variables that the loop over [heads] carries. *)
Record LoopState : Type :=
  { first_sequence : bool; prev : Z; content : list string }.

(** The head-split marker of a chunk that starts inside a sequence:
    [f">> <X> <Y> {str(offset)} {length_base} ^{text}^"]. *)
Definition head_split_marker (min_range : Z) (data : string) (m : Match)
    (m0 : Match) (more : list Match) : string :=
  let before := Py.slice data 0 (m_start m) in
  let text := first_field " " (group before m0) in
  let length_0 :=
    Py.len (Py.replace NL "" (Py.slice data (m_start m0) (m_start m))) in
  let offset_0 := m_start m0 + min_range in
  let '(length_base, offset) :=
    match more with
    | m1 :: _ =>
        let offset_1 := m_start m1 + min_range in
        let length_1 :=
          Py.len (Py.replace NL "" (Py.slice data (m_start m1) (m_start m))) in
        (Py.str length_0 +:+ "-" +:+ Py.str length_1,
         Py.str offset_0 +:+ "-" +:+ Py.str offset_1)
    | [] => (Py.str length_0, Py.str offset_0)
    end in
  ">> <X> <Y> " +:+ offset +:+ " " +:+ length_base +:+ " ^" +:+ text +:+ "^".

(** The entry of a header found whole:
    [f"{m.group().split(' ')[0].replace('>', '')} 1 {str(start)} {str(end)}"]. *)
Definition sequence_entry (data : string) (m : Match) (start end_ : Z)
  : string :=
  Py.replace ">" "" (first_field " " (group data m))
    +:+ " 1 " +:+ Py.str start +:+ " " +:+ Py.str end_.

(** The body of [for m in heads]. *)
Definition map_head (worker_id min_range : Z) (data : string)
    (st : LoopState) (m : Match) : result LoopState :=
  let start := min_range + m_start m in
  let end_ := min_range + m_end m in
  let '(first, start, end_, content) :=
    if first_sequence st then
      if (worker_id >? 0) && (start - 1 >? min_range) then
        match Re.any_line 0 0 (Py.slice data 0 (m_start m)) with
        | m0 :: more =>
            (false, start, end_,
             content st ++ [head_split_marker min_range data m m0 more])
        | [] => (true, -1, -1, content st)
        end
      else (false, start, end_, content st)
    else (false, start, end_, content st) in
  content ←
    (if negb (prev st =? start) then
       content ←
         (if negb (prev st =? -1)
          then __get_length min_range content data (prev st) start
          else Ok content);
       Ok (content ++ [sequence_entry data m start end_])
     else Ok content);
  Ok {| first_sequence := first; prev := end_; content := content |}.

(** The tail-split marker of a header that the end of the chunk cuts:
    [f"{'<-' if ' ' in text else '<_'}{text.split(' ')[0]} {str(last_seq_start)}"]. *)
Definition tail_split_marker (text : string) (last_seq_start : Z) : string :=
  (if Py.has_char " " text then "<-" else "<_")
    +:+ first_field " " text +:+ " " +:+ Py.str last_seq_start.

(** What follows the loop: the last header may be cut. *)
Definition map_tail (min_range max_range : Z) (data : string)
    (ini_heads heads : list Match) (st : LoopState) : result (list string) :=
  let len_head := Z.of_nat (length heads) in
  ih ← Py.last ini_heads;
  h ← Py.last heads;
  if m_start ih + 1 >? m_start h then
    let last_seq_start := m_start ih + min_range + 1 in
    content ←
      (if negb (len_head =? 0)
       then __get_length min_range (content st) data (prev st) last_seq_start
       else Ok (content st));
    let text := Py.slice_from data (last_seq_start - min_range) in
    Ok (content ++ [tail_split_marker text last_seq_start])
  else if negb (len_head =? 0) then
    __get_length min_range (content st) data (prev st) max_range
  else Ok (content st).

(** [map(data_stream, worker_id, key, chunk_size, obj_size, partitions)];
    [data] is the decoded text of the stream. *)
Definition map (data : string) (worker_id : Z) (key : string)
    (chunk_size obj_size partitions : Z) : result PartialRecord :=
  let min_range := worker_id * chunk_size in
  let max_range :=
    if worker_id =? partitions - 1 then obj_size
    else (worker_id + 1) * chunk_size in
  let ini_heads := Re.newline_gt 0 data in
  let heads := Re.header_line 0 O data in
  enter ←
    match ini_heads, data with
    | _ :: _, _ => Ok true
    | [], String c _ => Ok (Ascii.eqb c Py.gt)
    | [], EmptyString => Raise IndexError
    end;
  content ←
    (if enter : bool then
       st ← for_each (map_head worker_id min_range data)
              {| first_sequence := true; prev := -1; content := [] |} heads;
       map_tail min_range max_range data ini_heads heads st
     else Ok []);
  Ok {| min_range := min_range; max_range := max_range; sequences := content |}.

(** ** [FASTAPreprocesser.reduce]

    [reduce] mutates the records of the list [results] in place and has no
    [return] statement.  The model threads the list through every
    assignment; the records of the list are distinct objects (each one is the
    fresh dict of one [map] call), reached through their index. *)

Definition set_min_range (r : PartialRecord) (v : Z) : PartialRecord :=
  {| min_range := v; max_range := max_range r; sequences := sequences r |}.

Definition set_max_range (r : PartialRecord) (v : Z) : PartialRecord :=
  {| min_range := min_range r; max_range := v; sequences := sequences r |}.

Definition set_sequences (r : PartialRecord) (l : list string) : PartialRecord :=
  {| min_range := min_range r; max_range := max_range r; sequences := l |}.

(** [results[x]['sequences'][-1] = results[x]['sequences'][-1].replace(old, new)] *)
Definition replace_in_last (old new : string) (results : list PartialRecord)
    (x : Z) : result (list PartialRecord) :=
  r ← Py.get results x;
  e ← Py.last (sequences r);
  l ← Py.set_last (sequences r) (Py.replace old new e);
  Py.set results x (set_sequences r l).

(** [dictio[0] = dictio[0].replace(old, new)], where [dictio] is the list
    [results[i]['sequences']]. *)
Definition replace_in_first (old new : string) (i : Z)
    (results : list PartialRecord) : result (list PartialRecord) :=
  r ← Py.get results i;
  e ← Py.get (sequences r) 0;
  l ← Py.set (sequences r) 0 (Py.replace old new e);
  Py.set results i (set_sequences r l).

(** What the two branches of [reduce] settle: the list as they leave it and
    the values of [name_id], [length], [offset_head], [offset_base], [split]. *)
Record Resolved : Type :=
  { res_results : list PartialRecord;
    name_id : string;
    length_ : string;
    offset_head : string;
    offset_base : string;
    split : Z }.

(** The branch [if '<->' in seq_prev or '<_>' in seq_prev]: the previous
    record ends with a tail-split marker. *)
Definition resolve_marker (results : list PartialRecord) (i : Z)
    (param param_seq_prev : list string) (seq_prev : string) : result Resolved :=
  name_id ←
    (if Py.contains "<->" seq_prev then
       p0 ← Py.get param_seq_prev 0;
       Ok (Py.replace "<->" "" p0)
     else
       p0 ← Py.get param_seq_prev 0;
       p5 ← Py.get param 5;
       Ok (Py.replace "<_>" "" p0 +:+ Py.replace "^" "" p5));
  p4 ← Py.get param 4;
  length ← Py.get (Py.split "-" p4) 1;
  offset_head ← Py.get param_seq_prev 1;
  p3 ← Py.get param 3;
  offset_base ← Py.get (Py.split "-" p3) 1;
  (* seq_range_prev.pop() *)
  dict_prev ← Py.get results (i - 1);
  l ← Py.pop (sequences dict_prev);
  results ← Py.set results (i - 1) (set_sequences dict_prev l);
  (* dict['min_range'] = int(offset_head) *)
  v ← Py.int offset_head;
  dict ← Py.get results i;
  results ← Py.set results i (set_min_range dict v);
  (* dict_prev['max_range'] = int(offset_head) *)
  v ← Py.int offset_head;
  dict_prev ← Py.get results (i - 1);
  results ← Py.set results (i - 1) (set_max_range dict_prev v);
  Ok {| res_results := results; name_id := name_id; length_ := length;
        offset_head := offset_head; offset_base := offset_base; split := 0 |}.

(** The [else] branch: the previous record ends with an entry of a
    sequence, whose bases go on in this record. *)
Definition resolve_entry (results : list PartialRecord) (i : Z)
    (param param_seq_prev : list string) : result Resolved :=
  p4 ← Py.get param 4;
  length ← Py.get (Py.split "-" p4) 0;
  name_id ← Py.get param_seq_prev 0;
  offset_head ← Py.get param_seq_prev 2;
  p3 ← Py.get param 3;
  offset_base ← Py.get (Py.split "-" p3) 0;
  p1 ← Py.get param_seq_prev 1;
  split ← Py.int p1;
  results ←
    for_each
      (replace_in_last (" " +:+ Py.str split +:+ " ")
                       (" " +:+ Py.str (split + 1) +:+ " "))
      results (Py.range (i - split) i);
  Ok {| res_results := results; name_id := name_id; length_ := length;
        offset_head := offset_head; offset_base := offset_base;
        split := split |}.

(** The six rewritings of [dictio[0]] that end the body of the loop. *)
Definition rewrite_first (i : Z) (param : list string) (r : Resolved)
  : result (list PartialRecord) :=
  p5 ← Py.get param 5;
  results ← replace_in_first (" " +:+ p5) "" i (res_results r);
  p3 ← Py.get param 3;
  results ←
    replace_in_first (" " +:+ p3 +:+ " ") (" " +:+ offset_base r +:+ " ")
      i results;
  p4 ← Py.get param 4;
  results ← replace_in_first (" " +:+ p4) (" " +:+ length_ r) i results;
  results ←
    replace_in_first " <X> " (" " +:+ Py.str (split r + 1) +:+ " ") i results;
  results ←
    replace_in_first " <Y> " (" " +:+ offset_head r +:+ " ") i results;
  replace_in_first ">> " (name_id r +:+ " ") i results.

(** The body of [for i, dict in enumerate(results)]. *)
Definition reduce_body (results : list PartialRecord) (i : Z)
  : result (list PartialRecord) :=
  dict ← Py.get results i;
  let dictio := sequences dict in
  dict_prev ← Py.get results (i - 1);
  let seq_range_prev := sequences dict_prev in
  match i >? 0, seq_range_prev, dictio with
  | true, _ :: _, d0 :: _ =>
      if Py.contains ">>" d0 then
        let param := Py.split " " d0 in
        seq_prev ← Py.last seq_range_prev;
        let param_seq_prev := Py.split " " seq_prev in
        r ←
          (if Py.contains "<->" seq_prev || Py.contains "<_>" seq_prev
           then resolve_marker results i param param_seq_prev seq_prev
           else resolve_entry results i param param_seq_prev);
        rewrite_first i param r
      else Ok results
  | _, _, _ => Ok results
  end.

(** [reduce(results)]: the list as the call leaves it. *)
Definition reduce (results : list PartialRecord)
  : result (list PartialRecord) :=
  if Z.of_nat (length results) >? 1
  then for_each reduce_body results (Py.range 0 (Z.of_nat (length results)))
  else Ok results.

(** ** The floats of the chunking

    [obj_size / chunk_size] and [obj_size / num_workers] are true divisions
    of two [int]s.  Python returns the [float] nearest to the quotient, a
    tie going to the [float] with the even significand, and raises when the
    quotient is too large for a [float]; [math.ceil] and [round] are then
    applied to that [float], not to the quotient.

    A finite [float] is a number [mantissa * 2 ^ exponent] with a mantissa
    of at most 53 bits and an exponent of at least [-1074]. *)

Record float : Type := { mantissa : Z; exponent : Z }.

(** The ceiling of the quotient of two integers. *)
Definition ceil_div (a b : Z) : Z := - ((- a) / b).

(** The integer nearest to the quotient of two integers, a tie going to
    the even one. *)
Definition round_div (a b : Z) : Z :=
  let q := a / b in
  let r := a mod b in
  match Z.abs (2 * r) ?= Z.abs b with
  | Lt => q
  | Gt => q + 1
  | Eq => if Z.even q then q else q + 1
  end.

(** [2 ^ k], and [1] for a negative [k]. *)
Definition pow2 (k : Z) : Z := 2 ^ Z.max 0 k.

(** The binary exponent of the quotient of two positive integers: the
    [ex] with [2 ^ ex ≤ a / b < 2 ^ (ex + 1)]. *)
Definition quotient_exponent (a b : Z) : Z :=
  let d := Z.log2 a - Z.log2 b in
  if b * pow2 d <=? a * pow2 (- d) then d else d - 1.

(** [a / b] for two [int]s.  The quotient is scaled to a mantissa of 53
    bits (of fewer bits below the smallest normal [float]), which is rounded
    to the nearest integer. *)
Definition true_div (a b : Z) : result float :=
  if b =? 0 then Raise ZeroDivisionError
  else if a =? 0 then Ok {| mantissa := 0; exponent := 0 |}
  else
    let e := Z.max (quotient_exponent (Z.abs a) (Z.abs b) - 52) (-1074) in
    let m := round_div (a * pow2 (- e)) (b * pow2 e) in
    if 2 ^ 1024 <=? Z.abs m * pow2 e then Raise OverflowError
    else Ok {| mantissa := m; exponent := e |}.

Module Math.

(** [math.ceil(x)] *)
Definition ceil (x : float) : Z :=
  if 0 <=? exponent x then mantissa x * 2 ^ exponent x
  else ceil_div (mantissa x) (2 ^ (- exponent x)).

End Math.

(** [round(x)]: the nearest [int], a tie going to the even one. *)
Definition round (x : float) : Z :=
  if 0 <=? exponent x then mantissa x * 2 ^ exponent x
  else round_div (mantissa x) (2 ^ (- exponent x)).

(** ** The chunking of [CloudObject.__local_preprocess] *)

(** Lines 200-208: the number of iterations and the chunk size, or the
    exception raised. *)
Definition chunking (obj_size : Z) (chunk_size num_workers : option Z)
  : result (Z * Z) :=
  match chunk_size, num_workers with
  | Some _, Some _ =>
      Raise (Exception "Both chunk_size and num_workers is not allowed")
  | Some chunk_size, None =>
      x ← true_div obj_size chunk_size;
      Ok (Math.ceil x, chunk_size)
  | None, Some num_workers =>
      x ← true_div obj_size num_workers;
      Ok (num_workers, round x)
  | None, None =>
      Raise (Exception "At least chunk_size or num_workers parameter is required")
  end.

(** Lines 212-214: the range [(r0, r1)] of iteration [i]. *)
Definition byte_range (obj_size chunk_size i : Z) : Z * Z :=
  let r0 := i * chunk_size in
  let r1 := i * chunk_size + chunk_size in
  let r1 := if r1 <=? obj_size then r1 else obj_size in
  (r0, r1).

(** The ranges of [for i in range(iterations)], in order. *)
Definition __local_preprocess_ranges (obj_size : Z)
    (chunk_size num_workers : option Z) : result (list (Z * Z)) :=
  '(iterations, chunk_size) ← chunking obj_size chunk_size num_workers;
  Ok (byte_range obj_size chunk_size <$> Py.range 0 iterations).

(** The range that [map] computes for itself (lines 35-36). *)
Definition map_range (worker_id chunk_size obj_size partitions : Z) : Z * Z :=
  (worker_id * chunk_size,
   if worker_id =? partitions - 1 then obj_size
   else (worker_id + 1) * chunk_size).

(** ** The map/reduce branch of [CloudObject.__local_preprocess]

    Lines 196-233.  [get_object r0 r1] is the decoded text that the object
    store returns for the range of one iteration (a store that fails raises
    its own error there), [key] is the key of the object.

    Line 230 reads [self._cls.__preprocesser].  The line stands in the body
    of the class [CloudObject], so the name is read as
    [_CloudObject__preprocesser]; [self._cls] is a [CloudObjectWrapper],
    whose [__init__] (line 21, in the body of [CloudObjectWrapper]) has
    stored the preprocesser as [_CloudObjectWrapper__preprocesser].  The
    wrapper has no attribute of the name that is read: the first iteration
    raises [AttributeError] before [map] is called, and line 233, which
    reads the same attribute, raises it when there is no iteration. *)

(** The fields of [meta] (lines 217-228) that [map] is written for. *)
Record Meta : Type :=
  { meta_object_key : string;
    meta_worker_id : Z;
    meta_chunk_size : Z;
    meta_obj_size : Z;
    meta_partitions : Z }.

Definition __local_preprocess (get_object : Z → Z → string) (key : string)
    (obj_size : Z) (chunk_size num_workers : option Z) : result unit :=
  '(iterations, chunk_size) ← chunking obj_size chunk_size num_workers;
  map_results ←
    for_each
      (λ (map_results : list PartialRecord) (i : Z),
         let '(r0, r1) := byte_range obj_size chunk_size i in
         let get_res := get_object r0 r1 in
         let meta :=
           {| meta_object_key := key; meta_worker_id := i;
              meta_chunk_size := chunk_size; meta_obj_size := obj_size;
              meta_partitions := iterations |} in
         (* self._cls.__preprocesser *)
         Raise AttributeError)
      [] (Py.range 0 iterations);
  (* self._cls.__preprocesser *)
  Raise AttributeError.

(** ** [map] on every range, then [reduce]

    The run that [FASTAPreprocesser] is written for, with [map] and
    [reduce] called by their own signatures: [map] on the text of each range
    of lines 212-214, for the workers [0 .. iterations - 1] in order, with
    the worker, the chunk size, the size of the object and the number of
    iterations as [worker_id], [chunk_size], [obj_size] and [partitions];
    then [reduce] on the list of the records.  It is not what
    [__local_preprocess] does, which fails before it calls [map]. *)
Section MapReduce.

Variable get_object : Z → Z → string.
Variable key : string.

Definition map_worker (obj_size chunk_size iterations : Z)
    (map_results : list PartialRecord) (i : Z) : result (list PartialRecord) :=
  let '(r0, r1) := byte_range obj_size chunk_size i in
  r ← map (get_object r0 r1) i key chunk_size obj_size iterations;
  Ok (map_results ++ [r]).

Definition map_reduce (obj_size : Z)
    (chunk_size num_workers : option Z) : result (list PartialRecord) :=
  '(iterations, chunk_size) ← chunking obj_size chunk_size num_workers;
  map_results ←
    for_each (map_worker obj_size chunk_size iterations) []
      (Py.range 0 iterations);
  reduce map_results.

End MapReduce.

(** An object store that hands out the characters [r0 .. r1 - 1] of a
    text, the half-open range of the collaborator contract. *)
Definition text_store (text : string) (r0 r1 : Z) : string :=
  Py.slice text r0 r1.

(** An object store that reads [Range=bytes=r0-r1] the way HTTP does,
    with the character [r1] included. *)
Definition closed_store (text : string) (r0 r1 : Z) : string :=
  Py.slice text r0 (r1 + 1).

(** The text whose lines are [l], each one ended by a newline. *)
Definition unlines (l : list string) : string :=
  fold_right (λ s acc, s +:+ NL +:+ acc) "" l.

(** The sequence index: the entries of all the records, in order. *)
Definition sequence_index (results : list PartialRecord) : list string :=
  concat (sequences <$> results).

(** An entry that is still a placeholder: a head-split marker or one of
    the two tail-split markers. *)
Definition is_marker (e : string) : bool :=
  Py.contains ">>" e || Py.contains "<->" e || Py.contains "<_>" e.

(** A chain of byte ranges from [a]: each range is not empty and starts
    where the previous one ends; the result is where the last one ends. *)
Fixpoint chain (a : Z) (l : list (Z * Z)) : option Z :=
  match l with
  | [] => Some a
  | (r0, r1) :: l' => if (r0 =? a) && (a <? r1) then chain r1 l' else None
  end.

(** ** The shapes of the entries

    The entries of a record are strings.  These functions write the four
    kinds of entry from their fields, the way the f-strings of [map] do. *)

(** The candidate pairs (offset of the bases, number of bases) that a
    head-split marker carries: one pair, or two. *)
Inductive Candidates : Type :=
| One (offset_0 length_0 : Z)
| Two (offset_0 length_0 offset_1 length_1 : Z).

Definition offsets_text (c : Candidates) : string :=
  match c with
  | One o0 _ => Py.str o0
  | Two o0 _ o1 _ => Py.str o0 +:+ "-" +:+ Py.str o1
  end.

Definition lengths_text (c : Candidates) : string :=
  match c with
  | One _ l0 => Py.str l0
  | Two _ l0 _ l1 => Py.str l0 +:+ "-" +:+ Py.str l1
  end.

Definition first_pair (c : Candidates) : Z * Z :=
  match c with
  | One o0 l0 => (o0, l0)
  | Two o0 l0 _ _ => (o0, l0)
  end.

(** Offsets and lengths are not negative. *)
Definition natural (c : Candidates) : Prop :=
  match c with
  | One o0 l0 => 0 ≤ o0 ∧ 0 ≤ l0
  | Two o0 l0 o1 l1 => 0 ≤ o0 ∧ 0 ≤ l0 ∧ 0 ≤ o1 ∧ 0 ≤ l1
  end.

(** The head-split marker [">> <X> <Y> offsets lengths ^text^"]. *)
Definition head_split (c : Candidates) (text : string) : string :=
  ">> <X> <Y> " +:+ offsets_text c +:+ " " +:+ lengths_text c
    +:+ " ^" +:+ text +:+ "^".

(** The tail-split markers ["<->id offset"], of an id that is complete, and
    ["<_>id offset"], of an id that the end of the chunk cuts. *)
Definition tail_split (complete : bool) (id : string) (offset_head : Z)
  : string :=
  (if complete then "<->" else "<_>") +:+ id +:+ " " +:+ Py.str offset_head.

(** The entry ["id span offset_head offset_base"] of a sequence, before its
    number of bases is known, and the entry with that number. *)
Definition entry (id : string) (span offset_head offset_base : Z) : string :=
  id +:+ " " +:+ Py.str span +:+ " " +:+ Py.str offset_head
    +:+ " " +:+ Py.str offset_base.

Definition entry_len (id : string) (span offset_head offset_base len : Z)
  : string :=
  entry id span offset_head offset_base +:+ " " +:+ Py.str len.

(** A text without the character [c]. *)
Definition lacks (c : ascii) (s : string) : Prop := Py.has_char c s = false.

(** [l] with its last element changed by [f]. *)
Definition map_last {A} (f : A → A) (l : list A) : list A :=
  match List.rev l with
  | x :: l' => List.rev l' ++ [f x]
  | [] => []
  end.

(** The record [r] after [replace(old, new)] on its last entry. *)
Definition replaced_in_last (old new : string) (r : PartialRecord)
  : PartialRecord :=
  set_sequences r (map_last (Py.replace old new) (sequences r)).

(** The text that the six rewritings of [rewrite_first] make of the entry
    [e], for the fields [p3], [p4], [p5] of the marker. *)
Definition rewritten (e p3 p4 p5 : string) (r : Resolved) : string :=
  Py.replace ">> " (name_id r +:+ " ")
    (Py.replace " <Y> " (" " +:+ offset_head r +:+ " ")
       (Py.replace " <X> " (" " +:+ Py.str (split r + 1) +:+ " ")
          (Py.replace (" " +:+ p4) (" " +:+ length_ r)
             (Py.replace (" " +:+ p3 +:+ " ") (" " +:+ offset_base r +:+ " ")
                (Py.replace (" " +:+ p5) "" e))))).

(** ** Objects for the examples *)

(** The object [">s1\nAAAA\n>s2\nCCCC\n"], 18 characters. *)
Definition two_sequences : string := unlines [">s1"; "AAAA"; ">s2"; "CCCC"].

(** An object of 27 characters in which the bases of [b] fill the whole
    second chunk of 9 characters. *)
Definition long_sequence : string :=
  unlines [">a"; "AA"; ">b"; "CCCC"; "CCCCCC"; ">c"; "GG"].

(** An object of 20 characters; with chunks of 12 characters the second
    chunk starts inside the bases of [b]. *)
Definition three_sequences : string :=
  unlines [">a"; "AA"; ">b"; "CCCC"; ">c"; "GG"].

(** An object of 37 characters in which the sequence [seq2] has no
    bases; chunks of 23 characters cut its id. *)
Definition empty_body : string :=
  unlines [">a"; "AAAAAAAAAAAAAAAA"; ">seq2 desc"; ">c"; "GG"].

(** An object of 42 characters; the header of [seq2] is at the offsets
    20-30 and its bases at 31-35.  Chunks of 23 characters cut the id of
    [seq2], chunks of 27 characters cut its header after the id. *)
Definition cut_header : string :=
  unlines [">a"; "AAAAAAAAAAAAAAAA"; ">seq2 desc"; "TTTT"; ">c"; "GG"].

(** The number of chunks of [chunk_size] characters that hold the
    characters [first .. last] of the object. *)
Definition chunks_spanned (chunk_size first last : Z) : Z :=
  last / chunk_size - first / chunk_size + 1.

(** ** Texts made of whole records *)

(** A record of a FASTA text: the text of its header line after the [>],
    and its body without the newline that ends it. *)
Record Fasta : Type := { header : string; body : string }.

Definition render (r : Fasta) : string :=
  ">" +:+ header r +:+ NL +:+ body r +:+ NL.

Fixpoint fasta_text (l : list Fasta) : string :=
  match l with
  | [] => ""
  | r :: l' => render r +:+ fasta_text l'
  end.

(** The header line is not empty and is one line; no line of the body
    holds a [>]. *)
Definition well_formed (r : Fasta) : Prop :=
  header r ≠ "" ∧ lacks Py.nl (header r) ∧ lacks ">" (body r).

(** The number of characters of [s] that are not newlines. *)
Fixpoint count_bases (s : string) : Z :=
  match s with
  | EmptyString => 0
  | String c s' => (if Ascii.eqb c Py.nl then 0 else 1) + count_bases s'
  end.

(** The number of lines of [s] that start with [>]; [at_start] tells that
    [s] starts a line. *)
Fixpoint header_lines_from (at_start : bool) (s : string) : nat :=
  match s with
  | EmptyString => O
  | String c s' =>
      ((if at_start && Ascii.eqb c Py.gt then 1 else 0)
       + header_lines_from (Ascii.eqb c Py.nl) s')%nat
  end.

Definition header_lines (s : string) : nat := header_lines_from true s.

(** The name that [map] gives to the sequence of a record. *)
Definition name_of (r : Fasta) : string :=
  Py.replace ">" "" (first_field " " (">" +:+ header r +:+ NL)).

(** The entries of the records [l] of a text, the first of which starts at
    the offset [off]. *)
Fixpoint index_of (off : Z) (l : list Fasta) : list string :=
  match l with
  | [] => []
  | r :: l' =>
      entry_len (name_of r) 1 off (off + Py.len (header r) + 2)
        (count_bases (body r))
        :: index_of (off + Py.len (render r)) l'
  end.

(** The matches of [>.+\n] in such a text. *)
Fixpoint header_matches (off : Z) (l : list Fasta) : list Match :=
  match l with
  | [] => []
  | r :: l' =>
      {| m_start := off; m_end := off + Py.len (header r) + 2 |}
        :: header_matches (off + Py.len (render r)) l'
  end.

(** The matches of [\n>] in the records that follow a first one. *)
Fixpoint newline_matches (off : Z) (l : list Fasta) : list Match :=
  match l with
  | [] => []
  | r :: l' =>
      {| m_start := off - 1; m_end := off + 1 |}
        :: newline_matches (off + Py.len (render r)) l'
  end.

(** ** The exceptions of indexing and of [int] *)

(** [low_level e]: [e] is an [IndexError] or a [ValueError], the errors of
    indexing and of [int]. *)
Definition low_level (e : PyErr) : Prop := e = IndexError ∨ e = ValueError.

Definition raises_only {A} (P : PyErr → Prop) (r : result A) : Prop :=
  ∀ e, r = Raise e → P e.

(** ** The headers that [map] takes for false ones *)

(** Lines 55-79 of [map]: a match of [>.+\n] met while [first_sequence]
    holds is dropped as a false header when the worker is not the first one,
    the match starts after the second character of the chunk and no line
    ends before it ([match_text] is empty). *)
Definition false_header (worker_id min_range : Z) (data : string)
    (m : Match) : bool :=
  (worker_id >? 0) && (min_range + m_start m - 1 >? min_range)
  && match Re.any_line 0 0 (Py.slice data 0 (m_start m)) with
     | [] => true
     | _ :: _ => false
     end.

(** The state of the loop of [map] before the first header. *)
Definition loop_start : LoopState :=
  {| first_sequence := true; prev := -1; content := [] |}.

(** ** What [reduce] keeps *)

(** The record [r'] has at most as many entries as the record [r]. *)
Definition no_more_entries (r r' : PartialRecord) : Prop :=
  (length (sequences r') ≤ length (sequences r))%nat.

(** The numbers of entries of the records of a list. *)
Definition entries (rs : list PartialRecord) : list nat :=
  (λ r, length (sequences r)) <$> rs.

(** What the iterations before [k] have made of the numbers of entries
    [e0]: the records from [k - 1] on have all their entries, the other
    ones have lost one entry at most. *)
Definition lost_before (k : Z) (e0 e : list nat) : Prop :=
  length e = length e0
  ∧ ∀ (j : nat) (m0 m : nat),
      e0 !! j = Some m0 → e !! j = Some m →
      (m ≤ m0 ≤ S m)%nat ∧ (k ≤ Z.of_nat j + 1 → m = m0).

(** No record of [results] starts with a head-split marker: the test
    ['>>' in dictio[0]] of [reduce] fails for every record. *)
Definition no_head_split (results : list PartialRecord) : bool :=
  forallb (λ r, match sequences r with
                | [] => true
                | e :: _ => negb (Py.contains ">>" e)
                end) results.

(** ** Objects cut at the boundaries of their records *)

(** A chunk of whole records: at least two of them, each well formed. *)
Definition whole_chunk (c : list Fasta) : Prop :=
  (2 ≤ length c)%nat ∧ Forall well_formed c.

(** A chunk of whole records whose text fills a range of [chunk_size]
    characters. *)
Definition full_chunk (chunk_size : Z) (c : list Fasta) : Prop :=
  whole_chunk c ∧ Py.len (fasta_text c) = chunk_size.

(** The records of the workers [k], [k+1], ... for the chunks [chunks]: the
    range that [map] computes and the entries of the records of the chunk,
    with offsets counted from the start of the object. *)
Fixpoint aligned_records (chunk_size obj_size partitions k : Z)
    (chunks : list (list Fasta)) : list PartialRecord :=
  match chunks with
  | [] => []
  | c :: chunks' =>
      {| min_range := k * chunk_size;
         max_range := (map_range k chunk_size obj_size partitions).2;
         sequences := index_of (k * chunk_size) c |}
        :: aligned_records chunk_size obj_size partitions (k + 1) chunks'
  end.

(** ** [CloudObjectWrapper]

    A wrapper holds the class it decorates and its own preprocesser, each
    of which may be [None], and the wrapper it inherits from, if any.  The
    chain of the parents is finite: [inherit] is given when a wrapper is
    made and is never assigned again. *)
Inductive CloudObjectWrapper (P C : Type) : Type :=
| Root (co_class : option C) (preprocesser : option P)
| Child (co_class : option C) (preprocesser : option P)
    (parent : CloudObjectWrapper P C).

Arguments Root {P C} co_class preprocesser.
Arguments Child {P C} co_class preprocesser parent.

(** [CloudObjectWrapper.__init__(preprocesser, inherit)] *)
Definition __init__ {P C} (preprocesser : option P)
    (inherit : option (CloudObjectWrapper P C)) : CloudObjectWrapper P C :=
  match inherit with
  | None => Root None preprocesser
  | Some parent => Child None preprocesser parent
  end.

Definition own_preprocesser {P C} (w : CloudObjectWrapper P C) : option P :=
  match w with
  | Root _ p => p
  | Child _ p _ => p
  end.

(** [CloudObjectWrapper._get_preprocesser] *)
Fixpoint _get_preprocesser {P C} (w : CloudObjectWrapper P C) : result P :=
  match w with
  | Root _ (Some p) => Ok p
  | Child _ (Some p) _ => Ok p
  | Child _ None parent => _get_preprocesser parent
  | Root _ None => Raise (Exception "There is not preprocesser")
  end.

(** A wrapper, the wrapper it inherits from, and so on. *)
Fixpoint lineage {P C} (w : CloudObjectWrapper P C)
  : list (CloudObjectWrapper P C) :=
  match w with
  | Root _ _ => [w]
  | Child _ _ parent => w :: lineage parent
  end.

(** * Properties *)

(** ** Strings *)

Lemma str_app_empty_r (s : string) : s +:+ "" = s.
Proof. induction s as [|c s IH]; [reflexivity|]. cbn. by rewrite IH. Qed.

Lemma str_app_cons (c : ascii) (s t : string) :
  String c s +:+ t = String c (s +:+ t).
Proof. reflexivity. Qed.

Lemma str_app_assoc (s t u : string) : (s +:+ t) +:+ u = s +:+ t +:+ u.
Proof. induction s as [|c s IH]; [reflexivity|]. cbn. by rewrite IH. Qed.

Lemma str_length_app (s t : string) :
  String.length (s +:+ t) = (String.length s + String.length t)%nat.
Proof. induction s as [|c s IH]; [reflexivity|]. cbn. by rewrite IH. Qed.

(** ** Which exceptions the code can raise *)

Create HintDb raises.

Lemma raises_only_Ok {A} P (a : A) : raises_only P (Ok a).
Proof. intros e H. discriminate H. Qed.

Lemma raises_only_Raise {A} (P : PyErr → Prop) e : P e → raises_only (A := A) P (Raise e).
Proof. intros HP e' H. by injection H as <-. Qed.

Lemma raises_only_bind {A B} P (m : result A) (f : A → result B) :
  raises_only P m → (∀ a, raises_only P (f a)) → raises_only P (m ≫= f).
Proof.
  intros Hm Hf e. destruct m as [a|e']; cbn.
  - apply Hf.
  - intros [= <-]. by apply Hm.
Qed.

Lemma raises_only_for_each {S A} P (body : S → A → result S) l :
  (∀ st x, raises_only P (body st x)) →
  ∀ st, raises_only P (for_each body st l).
Proof.
  intros Hbody. induction l as [|x l IH]; intros st; cbn.
  - apply raises_only_Ok.
  - apply raises_only_bind; auto.
Qed.

Lemma low_level_IndexError : low_level IndexError.
Proof. by left. Qed.

Lemma low_level_ValueError : low_level ValueError.
Proof. by right. Qed.

#[local] Hint Resolve raises_only_Ok raises_only_Raise raises_only_bind
  raises_only_for_each low_level_IndexError low_level_ValueError : raises.

(** Closes [raises_only] goals over code built from the primitives. *)
Ltac raises :=
  repeat first
    [ solve [auto with raises]
    | progress (intros; cbn beta zeta)
    | apply raises_only_Raise; solve [auto with raises]
    | apply raises_only_bind
    | apply raises_only_for_each
    | match goal with
      | |- raises_only _ (match ?x with _ => _ end) => destruct x
      | |- raises_only _ (if ?x then _ else _) => destruct x
      | |- raises_only _ (let '(_, _) := ?x in _) => destruct x
      end ].

Lemma position_raises n i : raises_only low_level (Py.position n i).
Proof. unfold Py.position. raises. Qed.

Lemma get_raises {A} (l : list A) i : raises_only low_level (Py.get l i).
Proof. unfold Py.get. raises. apply position_raises. Qed.

Lemma set_raises {A} (l : list A) i x : raises_only low_level (Py.set l i x).
Proof. unfold Py.set. raises. apply position_raises. Qed.

Lemma last_raises {A} (l : list A) : raises_only low_level (Py.last l).
Proof. unfold Py.last. raises. Qed.

Lemma set_last_raises {A} (l : list A) x :
  raises_only low_level (Py.set_last l x).
Proof. unfold Py.set_last. raises. Qed.

Lemma pop_raises {A} (l : list A) : raises_only low_level (Py.pop l).
Proof. unfold Py.pop. raises. Qed.

Lemma int_raises s : raises_only low_level (Py.int s).
Proof. unfold Py.int. raises. Qed.

#[local] Hint Resolve position_raises get_raises set_raises last_raises
  set_last_raises pop_raises int_raises : raises.

Lemma get_length_raises mn c d a b :
  raises_only low_level (__get_length mn c d a b).
Proof. unfold __get_length. raises. Qed.

#[local] Hint Resolve get_length_raises : raises.

Lemma map_head_raises w mn d st m :
  raises_only low_level (map_head w mn d st m).
Proof. unfold map_head. raises. Qed.

Lemma map_tail_raises mn mx d ih h st :
  raises_only low_level (map_tail mn mx d ih h st).
Proof. unfold map_tail. raises. Qed.

#[local] Hint Resolve map_head_raises map_tail_raises : raises.

Lemma map_raises d w k cs os p : raises_only low_level (map d w k cs os p).
Proof. unfold map. raises. Qed.

Lemma replace_in_last_raises o n rs x :
  raises_only low_level (replace_in_last o n rs x).
Proof. unfold replace_in_last. raises. Qed.

Lemma replace_in_first_raises o n i rs :
  raises_only low_level (replace_in_first o n i rs).
Proof. unfold replace_in_first. raises. Qed.

#[local] Hint Resolve map_raises replace_in_last_raises
  replace_in_first_raises : raises.

Lemma resolve_marker_raises rs i p q s :
  raises_only low_level (resolve_marker rs i p q s).
Proof. unfold resolve_marker. raises. Qed.

Lemma resolve_entry_raises rs i p q :
  raises_only low_level (resolve_entry rs i p q).
Proof. unfold resolve_entry. raises. Qed.

Lemma rewrite_first_raises i p r :
  raises_only low_level (rewrite_first i p r).
Proof. unfold rewrite_first. raises. Qed.

#[local] Hint Resolve resolve_marker_raises resolve_entry_raises
  rewrite_first_raises : raises.

Lemma reduce_body_raises rs i : raises_only low_level (reduce_body rs i).
Proof. unfold reduce_body. raises. Qed.

#[local] Hint Resolve reduce_body_raises : raises.

Lemma reduce_raises rs : raises_only low_level (reduce rs).
Proof. unfold reduce. raises. Qed.

Lemma map_worker_raises g k os cs n acc i :
  raises_only low_level (map_worker g k os cs n acc i).
Proof. unfold map_worker. raises. Qed.

(** ** The configuration of [__local_preprocess] *)

Lemma true_div_raises (a b : Z) (e : PyErr) :
  true_div a b = Raise e → e = ZeroDivisionError ∨ e = OverflowError.
Proof.
  unfold true_div. destruct (b =? 0); [intros [= <-]; by left|].
  destruct (a =? 0); [done|]. cbv zeta.
  destruct (_ <=? _); [intros [= <-]; by right|done].
Qed.

(** The configuration error is the [Exception] of lines 201 and 208: the
    chunking raises it exactly when both parameters are given or none is. *)
Lemma chunking_configuration_error (obj_size : Z)
    (chunk_size num_workers : option Z) :
  (∃ msg, chunking obj_size chunk_size num_workers = Raise (Exception msg))
  ↔ (is_Some chunk_size ∧ is_Some num_workers)
    ∨ (chunk_size = None ∧ num_workers = None).
Proof.
  unfold chunking.
  destruct chunk_size as [cs|], num_workers as [nw|]; split.
  - intros _. left. eauto.
  - intros _. eauto.
  - intros [msg H]. exfalso.
    destruct (true_div obj_size cs) as [x|e] eqn:Hdiv; [done|].
    injection H as ->. by destruct (true_div_raises _ _ _ Hdiv).
  - intros [[_ [? [=]]]|[[=] _]].
  - intros [msg H]. exfalso.
    destruct (true_div obj_size nw) as [x|e] eqn:Hdiv; [done|].
    injection H as ->. by destruct (true_div_raises _ _ _ Hdiv).
  - intros [[[? [=]] _]|[_ [=]]].
  - intros _. right. eauto.
  - intros _. eauto.
Qed.

(** Once the chunking has returned, [__local_preprocess] raises the
    [AttributeError] of line 230, or of line 233 when there is no
    iteration. *)
Lemma local_preprocess_after_chunking (get_object : Z → Z → string)
    (key : string) (obj_size : Z) (chunk_size num_workers : option Z)
    (p : Z * Z) :
  chunking obj_size chunk_size num_workers = Ok p →
  __local_preprocess get_object key obj_size chunk_size num_workers
  = Raise AttributeError.
Proof.
  intros H. unfold __local_preprocess. rewrite H. destruct p as [n cs].
  cbn [mbind result_bind]. destruct (Py.range 0 n) as [|i l]; [reflexivity|].
  cbn [for_each]. by destruct (byte_range obj_size cs i).
Qed.

Lemma local_preprocess_chunking_error (get_object : Z → Z → string)
    (key : string) (obj_size : Z) (chunk_size num_workers : option Z)
    (e : PyErr) :
  chunking obj_size chunk_size num_workers = Raise e →
  __local_preprocess get_object key obj_size chunk_size num_workers = Raise e.
Proof. intros H. unfold __local_preprocess. by rewrite H. Qed.

(** C8: the map/reduce entry point raises a configuration error, the
    [Exception] of lines 201 and 208, exactly when both [chunk_size] and
    [num_workers] are given or when neither is; with exactly one of them the
    call raises no configuration error, whatever the object store returns.
    The same holds of [map] and [reduce] run on the ranges. *)
Theorem local_preprocess_configuration_error
    (get_object : Z → Z → string) (key : string) (obj_size : Z)
    (chunk_size num_workers : option Z) :
  ((∃ msg, __local_preprocess get_object key obj_size chunk_size num_workers
           = Raise (Exception msg))
   ↔ (is_Some chunk_size ∧ is_Some num_workers)
     ∨ (chunk_size = None ∧ num_workers = None))
  ∧ ((∃ msg, map_reduce get_object key obj_size chunk_size num_workers
             = Raise (Exception msg))
     ↔ (is_Some chunk_size ∧ is_Some num_workers)
       ∨ (chunk_size = None ∧ num_workers = None)).
Proof.
  rewrite <- chunking_configuration_error. split; split.
  - intros [msg H].
    destruct (chunking obj_size chunk_size num_workers) as [p|e] eqn:Hc.
    + by rewrite (local_preprocess_after_chunking _ _ _ _ _ p Hc) in H.
    + rewrite (local_preprocess_chunking_error _ _ _ _ _ e Hc) in H.
      injection H as ->. eauto.
  - intros [msg H]. exists msg. by apply local_preprocess_chunking_error.
  - intros [msg H]. unfold map_reduce in H.
    destruct (chunking obj_size chunk_size num_workers) as [[n cs]|e] eqn:Hc;
      [|injection H as ->; eauto].
    exfalso. cbn [mbind result_bind] in H.
    assert (Hlow : low_level (Exception msg)); [|by destruct Hlow].
    revert H. apply raises_only_bind.
    + apply raises_only_for_each. intros. apply map_worker_raises.
    + apply reduce_raises.
  - intros [msg H]. exists msg. unfold map_reduce. by rewrite H.
Qed.

(** ** The floats of the chunking

    The ceiling and the rounding that the code takes of a [float] are
    those of the quotient itself as long as the size of the object is below
    [2 ^ 53] (below [2 ^ 52] for the rounding). *)

Lemma ceil_div_bounds (a b : Z) :
  0 < b → (ceil_div a b - 1) * b < a ≤ ceil_div a b * b.
Proof.
  intros Hb. unfold ceil_div.
  pose proof (Z.div_mod (- a) b ltac:(lia)) as Hdm.
  pose proof (Z.mod_pos_bound (- a) b Hb) as Hm.
  nia.
Qed.

Lemma ceil_div_unique (a b c : Z) :
  0 < b → (c - 1) * b < a ≤ c * b → ceil_div a b = c.
Proof.
  intros Hb Hc. pose proof (ceil_div_bounds a b Hb). nia.
Qed.

Lemma round_div_nearest (a b : Z) :
  0 < b → 2 * Z.abs (round_div a b * b - a) ≤ b.
Proof.
  intros Hb. unfold round_div.
  pose proof (Z.div_mod a b ltac:(lia)) as Hdm.
  pose proof (Z.mod_pos_bound a b Hb) as Hm.
  destruct (Z.compare_spec (Z.abs (2 * (a mod b))) (Z.abs b)) as [He|Hl|Hg].
  - destruct (Z.even (a / b)); nia.
  - nia.
  - nia.
Qed.

(** [round_div a b] is the only integer at a distance of at most a half
    from the quotient that is even when the distance is a half. *)
Lemma round_div_unique (a b q : Z) :
  0 < b →
  2 * Z.abs (q * b - a) ≤ b →
  (2 * Z.abs (q * b - a) = b → Z.even q = true) →
  round_div a b = q.
Proof.
  intros Hb Hnear Htie. unfold round_div.
  pose proof (Z.div_mod a b ltac:(lia)) as Hdm.
  pose proof (Z.mod_pos_bound a b Hb) as Hm.
  set (q0 := a / b) in *. set (r := a mod b) in *.
  assert (Hq : q = q0 ∨ q = q0 + 1) by nia.
  destruct (Z.compare_spec (Z.abs (2 * r)) (Z.abs b)) as [He|Hl|Hg].
  - destruct Hq as [->| ->].
    + rewrite Htie by nia. reflexivity.
    + assert (Hev : Z.even (q0 + 1) = true) by (apply Htie; nia).
      rewrite Z.even_add in Hev. destruct (Z.even q0); [done|reflexivity].
  - destruct Hq as [->| ->]; [reflexivity|nia].
  - destruct Hq as [->| ->]; [nia|reflexivity].
Qed.

Lemma round_div_tie (a b : Z) :
  0 < b → 2 * Z.abs (round_div a b * b - a) = b →
  Z.even (round_div a b) = true.
Proof.
  intros Hb. unfold round_div.
  pose proof (Z.div_mod a b ltac:(lia)) as Hdm.
  pose proof (Z.mod_pos_bound a b Hb) as Hm.
  set (q0 := a / b) in *. set (r := a mod b) in *.
  destruct (Z.compare_spec (Z.abs (2 * r)) (Z.abs b)) as [He|Hl|Hg].
  - destruct (Z.even q0) eqn:Hev; [done|].
    intros _. rewrite Z.even_add, Hev. reflexivity.
  - nia.
  - nia.
Qed.

Lemma pow2_nonneg (k : Z) : 0 ≤ k → pow2 k = 2 ^ k.
Proof. intros Hk. unfold pow2. by rewrite Z.max_r. Qed.

Lemma pow2_nonpos (k : Z) : k ≤ 0 → pow2 k = 1.
Proof. intros Hk. unfold pow2. by rewrite Z.max_l. Qed.

Lemma quotient_exponent_bounds (a b : Z) :
  Z.log2 a - Z.log2 b - 1 ≤ quotient_exponent a b ≤ Z.log2 a - Z.log2 b.
Proof. unfold quotient_exponent. cbv zeta. destruct (_ <=? _); lia. Qed.

(** The quotient scaled by [2 ^ (52 - ex)] is a mantissa of 53 bits. *)
Lemma quotient_exponent_lower (a b : Z) :
  0 < a → 0 < b → quotient_exponent a b ≤ 52 →
  2 ^ 52 * b ≤ a * 2 ^ (52 - quotient_exponent a b).
Proof.
  intros Ha Hb. unfold quotient_exponent. cbv zeta.
  pose proof (Z.log2_spec a Ha) as HA. pose proof (Z.log2_spec b Hb) as HB.
  pose proof (Z.log2_nonneg a). pose proof (Z.log2_nonneg b).
  set (la := Z.log2 a) in *. set (lb := Z.log2 b) in *.
  rewrite Z.pow_succ_r in HA, HB by done.
  destruct (Z.leb_spec (b * pow2 (la - lb)) (a * pow2 (- (la - lb))))
    as [Hle|Hgt]; intros Hex.
  - destruct (Z.le_gt_cases 0 (la - lb)) as [Hd|Hd].
    + rewrite pow2_nonneg in Hle by done. rewrite pow2_nonpos in Hle by lia.
      assert (Hp : 2 ^ 52 = 2 ^ (la - lb) * 2 ^ (52 - (la - lb)))
        by (rewrite <- Z.pow_add_r by lia; f_equal; lia).
      pose proof (Z.pow_pos_nonneg 2 (52 - (la - lb)) ltac:(lia) ltac:(lia)).
      nia.
    + rewrite pow2_nonpos in Hle by lia. rewrite pow2_nonneg in Hle by lia.
      assert (Hp : 2 ^ (52 - (la - lb)) = 2 ^ (- (la - lb)) * 2 ^ 52)
        by (rewrite <- Z.pow_add_r by lia; f_equal; lia).
      nia.
  - assert (Hp : 2 ^ la * 2 ^ (52 - (la - lb - 1)) = 2 ^ 52 * (2 * 2 ^ lb)).
    { rewrite <- (Z.pow_succ_r 2 lb), <- !Z.pow_add_r by lia. f_equal. lia. }
    pose proof (Z.pow_pos_nonneg 2 (52 - (la - lb - 1)) ltac:(lia) ltac:(lia)).
    nia.
Qed.

(** The true division of two positive integers below [2 ^ 53]: the
    mantissa is the quotient scaled by a power of two and rounded. *)
Lemma true_div_small (a b : Z) :
  0 < a < 2 ^ 53 → 0 < b < 2 ^ 53 →
  ∃ k, 0 ≤ k ∧ (a < 2 ^ 52 → 1 ≤ k) ∧ 2 ^ 52 * b ≤ a * 2 ^ k
       ∧ true_div a b
         = Ok {| mantissa := round_div (a * 2 ^ k) b; exponent := - k |}.
Proof.
  intros Ha Hb.
  pose proof (quotient_exponent_bounds a b) as Hex.
  assert (Hla : Z.log2 a < 53) by (apply Z.log2_lt_pow2; lia).
  assert (Hlb : Z.log2 b < 53) by (apply Z.log2_lt_pow2; lia).
  pose proof (Z.log2_nonneg a). pose proof (Z.log2_nonneg b).
  pose proof (quotient_exponent_lower a b ltac:(lia) ltac:(lia) ltac:(lia))
    as Hlow.
  set (ex := quotient_exponent a b) in *.
  exists (52 - ex). split; [lia|]. split.
  { intros Hsmall.
    assert (Z.log2 a < 52) by (apply Z.log2_lt_pow2; lia). lia. }
  split; [done|].
  unfold true_div.
  destruct (Z.eqb_spec b 0) as [?|_]; [lia|].
  destruct (Z.eqb_spec a 0) as [?|_]; [lia|].
  rewrite (Z.abs_eq a), (Z.abs_eq b) by lia. fold ex. cbv zeta.
  rewrite (Z.max_l (ex - 52) (-1074)) by lia.
  rewrite (pow2_nonneg (- (ex - 52))) by lia.
  rewrite (pow2_nonpos (ex - 52)) by lia.
  replace (- (ex - 52)) with (52 - ex) by lia.
  rewrite !Z.mul_1_r.
  set (k := 52 - ex) in *. set (m := round_div (a * 2 ^ k) b).
  pose proof (round_div_nearest (a * 2 ^ k) b ltac:(lia)) as Hm. fold m in Hm.
  assert (Hk : 2 ^ k ≤ 2 ^ 105) by (apply Z.pow_le_mono_r; lia).
  pose proof (Z.pow_pos_nonneg 2 k ltac:(lia) ltac:(lia)).
  assert (Hm' : 0 ≤ m ≤ a * 2 ^ k + 1) by nia.
  assert (Hbig : a * 2 ^ k < 2 ^ 53 * 2 ^ 105) by nia.
  destruct (Z.leb_spec (2 ^ 1024) (Z.abs m)) as [Hover|_];
    [|do 2 f_equal; lia].
  exfalso. rewrite Z.abs_eq in Hover by lia.
  assert (2 ^ 53 * 2 ^ 105 + 1 < 2 ^ 1024) by (by vm_compute).
  lia.
Qed.

(** Below [2 ^ 53] the ceiling of the float is the ceiling of the
    quotient. *)
Lemma ceil_true_div (a b : Z) :
  0 ≤ a < 2 ^ 53 → 0 < b < 2 ^ 53 →
  ∃ x, true_div a b = Ok x ∧ Math.ceil x = ceil_div a b.
Proof.
  intros Ha Hb. destruct (Z.eq_dec a 0) as [->|Hne].
  { eexists. split.
    - unfold true_div. destruct (Z.eqb_spec b 0); [lia|reflexivity].
    - unfold ceil_div. by rewrite Z.div_0_l by lia. }
  destruct (true_div_small a b ltac:(lia) Hb) as (k & Hk & _ & Hlow & ->).
  eexists. split; [reflexivity|].
  set (m := round_div (a * 2 ^ k) b).
  pose proof (round_div_nearest (a * 2 ^ k) b ltac:(lia)) as Hm. fold m in Hm.
  pose proof (Z.pow_pos_nonneg 2 k ltac:(lia) ltac:(lia)) as HP.
  pose proof (ceil_div_bounds a b ltac:(lia)) as Hc.
  set (c := ceil_div a b) in *. set (P := 2 ^ k) in *.
  assert (HbP : b < 2 * P) by nia.
  assert (Hgoal : (c - 1) * P < m ≤ c * P) by nia.
  unfold Math.ceil. cbn [mantissa exponent].
  destruct (Z.leb_spec 0 (- k)) as [Hk0|Hk0].
  - assert (k = 0) as -> by lia. subst P. change (- 0) with 0.
    change (2 ^ 0) with 1 in *. lia.
  - rewrite Z.opp_involutive. fold P. apply ceil_div_unique; lia.
Qed.

(** Below [2 ^ 52] the rounding of the float is the rounding of the
    quotient. *)
Lemma round_true_div (a b : Z) :
  0 ≤ a < 2 ^ 52 → 0 < b < 2 ^ 53 →
  ∃ x, true_div a b = Ok x ∧ round x = round_div a b.
Proof.
  intros Ha Hb. destruct (Z.eq_dec a 0) as [->|Hne].
  { eexists. split.
    - unfold true_div. destruct (Z.eqb_spec b 0); [lia|reflexivity].
    - unfold round, round_div. cbn [mantissa exponent Z.leb Z.compare].
      rewrite Z.div_0_l, Z.mod_0_l by lia. cbv zeta.
      change (Z.abs (2 * 0)) with 0.
      destruct (Z.compare_spec 0 (Z.abs b)); lia. }
  destruct (true_div_small a b ltac:(lia) Hb) as (k & _ & Hk & Hlow & ->).
  specialize (Hk ltac:(lia)).
  eexists. split; [reflexivity|].
  unfold round. cbn [mantissa exponent].
  destruct (Z.leb_spec 0 (- k)) as [?|_]; [lia|].
  rewrite Z.opp_involutive.
  pose proof (round_div_nearest (a * 2 ^ k) b ltac:(lia)) as Hm.
  pose proof (round_div_nearest a b ltac:(lia)) as Hq.
  pose proof (round_div_tie a b ltac:(lia)) as Htie.
  set (q := round_div a b) in *.
  assert (HP : 2 ^ k = 2 * 2 ^ (k - 1)).
  { rewrite <- Z.pow_succ_r by lia. f_equal. lia. }
  pose proof (Z.pow_pos_nonneg 2 (k - 1) ltac:(lia) ltac:(lia)) as HH.
  set (H2 := 2 ^ (k - 1)) in *. set (P := 2 ^ k) in *.
  assert (HbP : b < P) by nia.
  destruct (Z.eq_dec (2 * Z.abs (q * b - a)) b) as [Heq|Hneq].
  - (* a tie: the scaled quotient is an integer *)
    specialize (Htie Heq).
    assert (HM : ∃ M, a * P = M * b ∧ 2 * Z.abs (q * P - M) = P).
    { destruct (Z.le_gt_cases 0 (q * b - a)).
      - exists (q * P - H2). split; nia.
      - exists (q * P + H2). split; nia. }
    destruct HM as (M & HM1 & HM2).
    assert (Hm' : round_div (a * P) b = M).
    { apply round_div_unique; [lia| |]; rewrite HM1; nia. }
    rewrite Hm'. apply round_div_unique; [lia| |]; try done.
    replace (q * P - M) with (- (M - q * P)) in HM2 by lia.
    rewrite Z.abs_opp in HM2. 
    replace (Z.abs (q * P - M)) with (Z.abs (M - q * P))
      by (rewrite <- Z.abs_opp; f_equal; lia).
    lia.
  - set (m := round_div (a * P) b) in *.
    assert (Hstrict : 2 * Z.abs (q * P - m) < P) by nia.
    apply round_div_unique; [lia|lia|lia].
Qed.

Lemma chunking_chunk_size (obj_size chunk_size : Z) :
  0 ≤ obj_size < 2 ^ 53 → 0 < chunk_size < 2 ^ 53 →
  chunking obj_size (Some chunk_size) None
  = Ok (ceil_div obj_size chunk_size, chunk_size).
Proof.
  intros Hos Hcs. unfold chunking.
  destruct (ceil_true_div obj_size chunk_size Hos Hcs) as (x & -> & <-).
  reflexivity.
Qed.

Lemma chunking_num_workers (obj_size num_workers : Z) :
  0 ≤ obj_size < 2 ^ 52 → 0 < num_workers < 2 ^ 53 →
  chunking obj_size None (Some num_workers)
  = Ok (num_workers, round_div obj_size num_workers).
Proof.
  intros Hos Hnw. unfold chunking.
  destruct (round_true_div obj_size num_workers Hos Hnw) as (x & -> & <-).
  reflexivity.
Qed.

(** ** The byte ranges *)

Lemma chain_byte_ranges (obj_size cs : Z) (m s : nat) :
  0 < cs →
  (Z.of_nat s + Z.of_nat m) * cs < obj_size →
  chain (Z.of_nat s * cs)
    (byte_range obj_size cs <$> List.map (λ k, 0 + Z.of_nat k) (seq s (S m)))
  = Some (Z.min ((Z.of_nat s + Z.of_nat m + 1) * cs) obj_size).
Proof.
  intros Hcs. revert s. induction m as [|m IH]; intros s Hlt.
  - cbn. unfold byte_range.
    replace (0 + Z.of_nat s) with (Z.of_nat s) by lia.
    rewrite Z.eqb_refl. cbn.
    destruct (Z.leb_spec (Z.of_nat s * cs + cs) obj_size) as [Hle|Hgt].
    + destruct (Z.ltb_spec (Z.of_nat s * cs) (Z.of_nat s * cs + cs)); [|lia].
      f_equal. lia.
    + destruct (Z.ltb_spec (Z.of_nat s * cs) obj_size); [|lia].
      f_equal. lia.
  - change (seq s (S (S m))) with (s :: seq (S s) (S m)).
    cbn [List.map fmap list_fmap chain]. unfold byte_range at 1.
    replace (0 + Z.of_nat s) with (Z.of_nat s) by lia.
    rewrite Z.eqb_refl.
    destruct (Z.leb_spec (Z.of_nat s * cs + cs) obj_size) as [Hle|Hgt]; [|nia].
    destruct (Z.ltb_spec (Z.of_nat s * cs) (Z.of_nat s * cs + cs)); [|lia].
    cbn [andb].
    replace (Z.of_nat s * cs + cs) with (Z.of_nat (S s) * cs) by lia.
    change (list_fmap _ _ (byte_range obj_size cs))
      with (fmap (M := list) (byte_range obj_size cs)).
    rewrite IH by lia. f_equal. lia.
Qed.

(** With a chunk size the ranges are a chain from [0] to the size of the
    object: contiguous, none empty, the last one ending at [obj_size], for
    the sizes below [2 ^ 53]. *)
Lemma chunk_size_ranges_cover (obj_size chunk_size : Z) :
  0 < obj_size < 2 ^ 53 → 0 < chunk_size < 2 ^ 53 →
  ∃ l, __local_preprocess_ranges obj_size (Some chunk_size) None = Ok l
       ∧ l ≠ [] ∧ chain 0 l = Some obj_size.
Proof.
  intros Hsize Hcs'. unfold __local_preprocess_ranges.
  rewrite chunking_chunk_size by lia. cbn [mbind result_bind].
  assert (Hcs : 0 < chunk_size) by lia.
  pose proof (ceil_div_bounds obj_size chunk_size Hcs) as [Hlo Hhi].
  set (n := ceil_div obj_size chunk_size) in *.
  assert (Hn : 1 ≤ n) by nia.
  eexists. split; [reflexivity|].
  unfold Py.range. rewrite Z.sub_0_r.
  destruct (Z.to_nat n) as [|m] eqn:Hm; [lia|].
  split; [done|].
  pose proof (chain_byte_ranges obj_size chunk_size m 0 Hcs) as Hchain.
  change (Z.of_nat 0 * chunk_size) with 0 in Hchain.
  rewrite Hchain by lia.
  f_equal. lia.
Qed.

(** C2: with [num_workers] the ranges of the partitioner do not reach the
    end of the object when the chunk size is rounded down: for an object of
    10 bytes and 3 workers the ranges are a chain from 0 to 9 only, while
    [map] takes the range of the last worker to end at 10. *)
Theorem num_workers_ranges_miss_tail :
  __local_preprocess_ranges 10 None (Some 3) = Ok [(0, 3); (3, 6); (6, 9)]
  ∧ chain 0 [(0, 3); (3, 6); (6, 9)] = Some 9
  ∧ map_range 2 3 10 3 = (6, 10).
Proof. by vm_compute. Qed.

(** ** Two objects on which markers stay in the index *)

(** C1: the object [">s1\nAAAA\n>s2\nCCCC\n"] in two chunks, cut inside
    the header line of [s2] (after 10, 11 or 12 characters).  The first
    chunk gives the entry of [s1], with 4 bases and a span of 1, and a
    tail-split marker for [s2]; the second chunk has no header, so it gives
    no entry; [reduce] changes nothing.  The index has no entry for [s2],
    and the marker stays, whether the store reads the ranges half-open or
    closed. *)
Theorem split_header_marker_stays :
  text_store two_sequences 0 11 = ">s1" +:+ NL +:+ "AAAA" +:+ NL +:+ ">s"
  ∧ text_store two_sequences 11 18 = "2" +:+ NL +:+ "CCCC" +:+ NL
  ∧ map_reduce (text_store two_sequences) "key" 18 (Some 11) None
    = Ok [ {| min_range := 0; max_range := 11;
              sequences := ["s1" +:+ NL +:+ " 1 0 4 4"; "<_>s 9"] |};
           {| min_range := 11; max_range := 18; sequences := [] |} ]
  ∧ (sequence_index <$>
       map_reduce (text_store two_sequences) "key" 18 (Some 10) None)
    = Ok ["s1" +:+ NL +:+ " 1 0 4 4"; "<_> 9"]
  ∧ (sequence_index <$>
       map_reduce (text_store two_sequences) "key" 18 (Some 12) None)
    = Ok ["s1" +:+ NL +:+ " 1 0 4 4"; "<_>s2 9"]
  ∧ (sequence_index <$>
       map_reduce (closed_store two_sequences) "key" 18 (Some 11) None)
    = Ok ["s1" +:+ NL +:+ " 1 0 4 4"; "<_>s2 9"].
Proof. by vm_compute. Qed.

(** C9: an object in three chunks of 9 characters, the second of which
    holds bases only.  Its record is empty, so [reduce] passes over the
    head-split marker of the third record, which stays in the index. *)
Theorem head_split_marker_after_empty_record_stays :
  text_store long_sequence 9 18 = "CCCC" +:+ NL +:+ "CCCC"
  ∧ map_reduce (text_store long_sequence) "key" 27 (Some 9) None
    = Ok [ {| min_range := 0; max_range := 9;
              sequences := ["a" +:+ NL +:+ " 1 0 3 2";
                            "b" +:+ NL +:+ " 1 6 9 0"] |};
           {| min_range := 9; max_range := 18; sequences := [] |};
           {| min_range := 18; max_range := 27;
              sequences := [">> <X> <Y> 18 2 ^CC" +:+ NL +:+ "^";
                            "c" +:+ NL +:+ " 1 21 24 2"] |} ]
  ∧ is_marker (">> <X> <Y> 18 2 ^CC" +:+ NL +:+ "^") = true
  ∧ (sequence_index <$>
       map_reduce (closed_store long_sequence) "key" 27 (Some 9) None)
    = Ok ["a" +:+ NL +:+ " 1 0 3 2"; "b" +:+ NL +:+ " 1 6 9 0";
          ">> <X> <Y> 18 2 ^CC" +:+ NL +:+ "^"; "c" +:+ NL +:+ " 1 21 24 2"].
Proof. by vm_compute. Qed.

(** ** Chunks without a header, and chunks on which [map] fails *)

Lemma prefix_cons (a b : ascii) (s t : string) :
  String.prefix (String a s) (String b t) = Ascii.eqb b a && String.prefix s t.
Proof.
  cbn. destruct (ascii_dec a b) as [->|Hne].
  - by rewrite Ascii.eqb_refl.
  - destruct (Ascii.eqb_spec b a) as [->|_]; [done|reflexivity].
Qed.

(** The matches of ["\n>"] are the occurrences of that text. *)
Lemma newline_gt_nil (pos : Z) (s : string) :
  Re.newline_gt pos s = [] ↔ Py.contains (NL +:+ ">") s = false.
Proof.
  revert pos. induction s as [|c s IH]; intros pos; [done|].
  cbn [Re.newline_gt Py.contains]. unfold NL at 1.
  change (String Py.nl "" +:+ ">") with (String Py.nl ">").
  rewrite prefix_cons.
  destruct (Ascii.eqb c Py.nl && String.prefix ">" s); cbn.
  - split; discriminate.
  - apply IH.
Qed.

Lemma last_raises_index {A} (l : list A) : raises_only (eq IndexError) (Py.last l).
Proof. unfold Py.last. destruct (rev l); intros e [=]. done. Qed.

Lemma set_last_raises_index {A} (l : list A) x :
  raises_only (eq IndexError) (Py.set_last l x).
Proof. unfold Py.set_last. destruct l; intros e [=]. done. Qed.

Lemma get_length_raises_index mn c d a b :
  raises_only (eq IndexError) (__get_length mn c d a b).
Proof.
  unfold __get_length. apply raises_only_bind.
  - apply last_raises_index.
  - intros e. apply set_last_raises_index.
Qed.

Lemma map_head_raises_index w mn d st m :
  raises_only (eq IndexError) (map_head w mn d st m).
Proof.
  unfold map_head.
  repeat first
    [ apply raises_only_Ok
    | apply get_length_raises_index
    | apply raises_only_bind
    | progress (intros; cbn beta zeta)
    | match goal with
      | |- raises_only _ (match ?x with _ => _ end) => destruct x
      | |- raises_only _ (if ?x then _ else _) => destruct x
      | |- raises_only _ (let '(_, _) := ?x in _) => destruct x
      end ].
Qed.

(** For a chunk that is not empty, whose text has no [>] after a newline
    and whose first character is not [>], [map] raises nothing and returns
    the record of its range with an empty list of sequences. *)
Lemma map_without_header_is_empty (c : ascii) (rest key : string)
    (worker_id chunk_size obj_size partitions : Z) :
  Ascii.eqb c ">" = false →
  Py.contains (NL +:+ ">") (String c rest) = false →
  map (String c rest) worker_id key chunk_size obj_size partitions
  = Ok {| min_range := worker_id * chunk_size;
          max_range := (if worker_id =? partitions - 1 then obj_size
                        else (worker_id + 1) * chunk_size);
          sequences := [] |}.
Proof.
  intros Hc Hno. unfold map.
  apply (newline_gt_nil 0) in Hno. rewrite Hno.
  unfold Py.gt. rewrite Hc. reflexivity.
Qed.

Lemma map_without_header_is_empty_witness :
  Ascii.eqb "C" ">" = false
  ∧ Py.contains (NL +:+ ">") ("CC" +:+ NL +:+ "GG") = false
  ∧ map ("CC" +:+ NL +:+ "GG") 1 "key" 5 10 2
    = Ok {| min_range := 5; max_range := 10; sequences := [] |}.
Proof.
  split; [reflexivity|]. split; [reflexivity|].
  apply (map_without_header_is_empty "C" ("C" +:+ NL +:+ "GG") "key" 1 5 10 2);
    reflexivity.
Defined.

(** The empty text is not such a chunk: [data[0]] raises. *)
Lemma map_empty_text key worker_id chunk_size obj_size partitions :
  map "" worker_id key chunk_size obj_size partitions = Raise IndexError.
Proof. reflexivity. Qed.

(** C7: a chunk with no text at all has no header start and no first
    character that is [>], and [map] does not return the empty list for it:
    [data[0]] is read (line 47) and raises an [IndexError].  Such a chunk is
    asked for: with 4 workers on an object of 6 characters the chunk size is
    2 (the float 1.5, rounded to the even integer) and the range of the last
    worker, from 6 to 6, holds no character. *)
Theorem map_empty_chunk_raises :
  Py.contains (NL +:+ ">") "" = false
  ∧ String.prefix ">" "" = false
  ∧ (∀ (key : string) (worker_id chunk_size obj_size partitions : Z),
       map "" worker_id key chunk_size obj_size partitions = Raise IndexError)
  ∧ __local_preprocess_ranges 6 None (Some 4)
    = Ok [(0, 2); (2, 4); (4, 6); (6, 6)]
  ∧ text_store (unlines [">a"; "AA"]) 6 6 = ""
  ∧ map (text_store (unlines [">a"; "AA"]) 6 6) 3 "key" 2 6 4
    = Raise IndexError.
Proof. repeat split; by vm_compute. Qed.

(** C10: [map] raises an [IndexError] on every chunk whose text starts
    with [>] and has no [>] after a newline (the list [ini_heads] is empty
    when its last element is read), and on every chunk whose text has a [>]
    after a newline and no match of [>.+\n] (the list [heads] is empty when
    its last element is read). *)
Theorem map_raises_IndexError (data key : string)
    (worker_id chunk_size obj_size partitions : Z) :
  (String.prefix ">" data = true ∧ Py.contains (NL +:+ ">") data = false)
  ∨ (Py.contains (NL +:+ ">") data = true ∧ Re.header_line 0 0 data = []) →
  map data worker_id key chunk_size obj_size partitions = Raise IndexError.
Proof.
  intros [[Hgt Hno]|[Hini Hheads]]; unfold map.
  - apply (newline_gt_nil 0) in Hno. rewrite Hno.
    destruct data as [|c data]; [done|].
    rewrite prefix_cons in Hgt. apply andb_prop in Hgt as [Hc _].
    unfold Py.gt. rewrite Hc. cbn [mbind result_bind].
    destruct (for_each _ _ _) as [st|e] eqn:Hloop.
    + reflexivity.
    + assert (He : IndexError = e); [|by subst e].
      revert Hloop. apply raises_only_for_each.
      intros. apply map_head_raises_index.
  - destruct (Re.newline_gt 0 data) as [|ih ihs] eqn:Hih.
    { apply newline_gt_nil in Hih. congruence. }
    rewrite Hheads. cbn [mbind result_bind for_each].
    unfold map_tail. destruct (Py.last (ih :: ihs)) as [x|e] eqn:Hlast.
    + reflexivity.
    + assert (He : IndexError = e); [|by subst e].
      revert Hlast. apply last_raises_index.
Qed.

Lemma map_raises_IndexError_witness :
  ((String.prefix ">" (unlines [">s1"; "AAAA"]) = true
    ∧ Py.contains (NL +:+ ">") (unlines [">s1"; "AAAA"]) = false)
   ∨ (Py.contains (NL +:+ ">") (unlines [">s1"; "AAAA"]) = true
      ∧ Re.header_line 0 0 (unlines [">s1"; "AAAA"]) = []))
  ∧ map (unlines [">s1"; "AAAA"]) 0 "key" 9 9 1 = Raise IndexError
  ∧ map ("AA" +:+ NL +:+ ">s") 0 "key" 5 5 1 = Raise IndexError.
Proof.
  split; [left; split; reflexivity|]. split.
  - apply (map_raises_IndexError (unlines [">s1"; "AAAA"]) "key" 0 9 9 1).
    left. split; reflexivity.
  - apply (map_raises_IndexError ("AA" +:+ NL +:+ ">s") "key" 0 5 5 1).
    right. split; reflexivity.
Defined.

(** ** Characters and occurrences *)

Lemma has_char_app (c : ascii) (s t : string) :
  Py.has_char c (s +:+ t) = Py.has_char c s || Py.has_char c t.
Proof.
  induction s as [|a s IH]; [reflexivity|].
  cbn. rewrite IH. by rewrite orb_assoc.
Qed.

Lemma prefix_app (s t : string) : String.prefix s (s +:+ t) = true.
Proof.
  induction s as [|a s IH]; [by destruct t|].
  change (String a s +:+ t) with (String a (s +:+ t)).
  rewrite prefix_cons, Ascii.eqb_refl. exact IH.
Qed.

Lemma prefix_has_char (c : ascii) (sub s : string) :
  String.prefix sub s = true → Py.has_char c sub = true →
  Py.has_char c s = true.
Proof.
  revert s. induction sub as [|a sub IH]; intros s Hp Hc; [done|].
  destruct s as [|b s]; [done|].
  rewrite prefix_cons in Hp. apply andb_prop in Hp as [Hab Hp].
  apply Ascii.eqb_eq in Hab as ->. cbn in Hc |- *.
  destruct (Ascii.eqb a c); [done|]. cbn in Hc |- *. by apply IH.
Qed.

(** A prefix [u ++ c :: v] puts the character [c] at the index [length u]. *)
Lemma prefix_char_at (c : ascii) (u v s : string) :
  String.prefix (u +:+ String c v) s = true →
  ∃ w z, s = w +:+ String c z ∧ String.length w = String.length u.
Proof.
  revert s. induction u as [|a u IH]; intros s Hp.
  - destruct s as [|b s]; [done|].
    change ("" +:+ String c v) with (String c v) in Hp.
    rewrite prefix_cons in Hp. apply andb_prop in Hp as [Hb _].
    apply Ascii.eqb_eq in Hb as ->. by exists "", s.
  - destruct s as [|b s]; [done|].
    change (String a u +:+ String c v) with (String a (u +:+ String c v)) in Hp.
    rewrite prefix_cons in Hp. apply andb_prop in Hp as [_ Hp].
    destruct (IH _ Hp) as (w & z & -> & Hlen).
    exists (String b w), z. split; [reflexivity|]. cbn. by rewrite Hlen.
Qed.

Lemma app_char_at (c : ascii) (p q w z : string) :
  p +:+ q = w +:+ String c z →
  (String.length w < String.length p)%nat →
  Py.has_char c p = true.
Proof.
  revert w. induction p as [|a p IH]; intros w Heq Hlen; [cbn in Hlen; lia|].
  destruct w as [|b w].
  - injection Heq as -> _. cbn. by rewrite Ascii.eqb_refl.
  - injection Heq as _ Heq. cbn. rewrite (IH w Heq); [|cbn in Hlen; lia].
    by rewrite orb_true_r.
Qed.

(** ** [str.replace] *)

Lemma replace_nonempty (c : ascii) (old new s : string) :
  Py.replace (String c old) new s = Py.replace_scan (String c old) new O s.
Proof. reflexivity. Qed.

Lemma replace_scan_skip (old new w b : string) :
  Py.replace_scan old new (String.length w) (w +:+ b)
  = Py.replace_scan old new O b.
Proof.
  induction w as [|a w IH]; [by destruct b|]. exact IH.
Qed.

(** An occurrence at the front is replaced. *)
Lemma replace_scan_here (c : ascii) (old new b : string) :
  Py.replace_scan (String c old) new O (String c old +:+ b)
  = new +:+ Py.replace_scan (String c old) new O b.
Proof.
  change (String c old +:+ b) with (String c (old +:+ b)).
  cbn [Py.replace_scan].
  change (String c (old +:+ b)) with (String c old +:+ b).
  rewrite prefix_app. cbn [String.length Nat.pred].
  by rewrite replace_scan_skip.
Qed.

(** No occurrence starts inside [a] when a character [c] of [old], which
    [u] precedes in [old], occurs neither in [a] nor in [u], and the text
    after [a] starts with [u]. *)
Lemma replace_scan_pass (c : ascii) (u v new a t : string) :
  Py.has_char c a = false → Py.has_char c u = false →
  String.prefix u t = true →
  Py.replace_scan (u +:+ String c v) new O (a +:+ t)
  = a +:+ Py.replace_scan (u +:+ String c v) new O t.
Proof.
  intros Ha Hu Ht. induction a as [|x a IH]; [reflexivity|].
  cbn in Ha. apply orb_false_elim in Ha as [Hx Ha].
  change (String x a +:+ t) with (String x (a +:+ t)).
  cbn [Py.replace_scan].
  destruct (String.prefix (u +:+ String c v) (String x (a +:+ t))) eqn:Hp.
  - exfalso. apply prefix_char_at in Hp as (w & z & Heq & Hlen).
    apply prefix_correct in Ht.
    assert (Hsplit : ∃ t', t = u +:+ t').
    { exists (String.substring (String.length u)
                (String.length t - String.length u) t).
      clear -Ht. revert t Ht. induction u as [|b u IHu]; intros t Ht.
      - cbn. rewrite Nat.sub_0_r. clear Ht.
        induction t as [|d t IHt]; [reflexivity|]. cbn. by rewrite <- IHt.
      - destruct t as [|d t]; [done|]. cbn in Ht. injection Ht as -> Ht.
        cbn. f_equal. by apply IHu. }
    destruct Hsplit as [t' ->].
    assert (Hin : Py.has_char c (String x a +:+ u) = true).
    { apply (app_char_at c (String x a +:+ u) t' w z).
      - rewrite str_app_assoc. exact Heq.
      - rewrite str_length_app, Hlen. cbn. lia. }
    rewrite has_char_app in Hin. cbn in Hin.
    rewrite Hx, Ha, Hu in Hin. done.
  - by rewrite (IH Ha).
Qed.

(** The first occurrence of [old] is where a character of [old] first can
    be: the text before it, and the part of [old] before that character, do
    not hold it. *)
Lemma replace_scan_first (c : ascii) (u v new a b : string) :
  Py.has_char c a = false → Py.has_char c u = false →
  Py.replace_scan (u +:+ String c v) new O (a +:+ (u +:+ String c v) +:+ b)
  = a +:+ new +:+ Py.replace_scan (u +:+ String c v) new O b.
Proof.
  intros Ha Hu.
  rewrite (replace_scan_pass c u v new a _ Ha Hu).
  - f_equal. destruct u as [|x u]; apply replace_scan_here.
  - rewrite str_app_assoc. apply prefix_app.
Qed.

(** A text that lacks a character of [old] has no occurrence of [old]. *)
Lemma replace_scan_absent (c : ascii) (old new s : string) :
  Py.has_char c old = true → Py.has_char c s = false →
  Py.replace_scan old new O s = s.
Proof.
  intros Hold. induction s as [|x s IH]; intros Hs; [reflexivity|].
  cbn [Py.replace_scan].
  destruct (String.prefix old (String x s)) eqn:Hp.
  - pose proof (prefix_has_char c _ _ Hp Hold). congruence.
  - cbn in Hs. apply orb_false_elim in Hs as [_ Hs]. by rewrite IH.
Qed.

(** ** [str.split] and [in] *)

Lemma split_no_sep (sep : ascii) (a : string) :
  Py.has_char sep a = false → Py.split sep a = [a].
Proof.
  induction a as [|x a IH]; intros Ha; [reflexivity|].
  cbn in Ha. apply orb_false_elim in Ha as [Hx Ha].
  cbn. rewrite Hx, (IH Ha). reflexivity.
Qed.

Lemma split_app_sep (sep : ascii) (a b : string) :
  Py.has_char sep a = false →
  Py.split sep (a +:+ String sep b) = a :: Py.split sep b.
Proof.
  induction a as [|x a IH]; intros Ha.
  - cbn. by rewrite Ascii.eqb_refl.
  - cbn in Ha. apply orb_false_elim in Ha as [Hx Ha].
    cbn. rewrite Hx, (IH Ha). reflexivity.
Qed.

Lemma contains_prefix (sub s : string) :
  String.prefix sub s = true → Py.contains sub s = true.
Proof. intros H. destruct s; cbn [Py.contains]; by rewrite H. Qed.

Lemma contains_absent (c : ascii) (sub s : string) :
  Py.has_char c sub = true → Py.has_char c s = false →
  Py.contains sub s = false.
Proof.
  intros Hsub. induction s as [|x s IH]; intros Hs.
  - cbn. destruct sub; [done|reflexivity].
  - cbn [Py.contains].
    destruct (String.prefix sub (String x s)) eqn:Hp.
    + pose proof (prefix_has_char c _ _ Hp Hsub). congruence.
    + cbn in Hs. apply orb_false_elim in Hs as [_ Hs]. by rewrite IH.
Qed.

(** ** [str] and [int] on integers *)

Lemma string_of_uint_chars (c : ascii) (d : Decimal.uint) :
  Py.has_char c (NilEmpty.string_of_uint d) = true → is_Some (Py.digit_of c).
Proof.
  induction d as [|d IH|d IH|d IH|d IH|d IH|d IH|d IH|d IH|d IH|d IH];
    cbn [NilEmpty.string_of_uint Py.has_char]; [done|..];
    (intros [Hc|Hc]%orb_prop; [apply Ascii.eqb_eq in Hc as <-; by eexists|auto]).
Qed.

Lemma string_of_uint_nonnil (d : Decimal.uint) :
  d ≠ Decimal.Nil → NilZero.string_of_uint d = NilEmpty.string_of_uint d.
Proof. by destruct d. Qed.

(** The characters of [str(n)] are digits, after a minus sign when [n] is
    negative. *)
Lemma str_chars (c : ascii) (n : Z) :
  Py.has_char c (Py.str n) = true →
  is_Some (Py.digit_of c) ∨ (c = "-"%char ∧ n < 0).
Proof.
  unfold Py.str. destruct n as [|p|p]; cbn [Z.to_int NilZero.string_of_int].
  - change (NilZero.string_of_uint Decimal.zero) with "0".
    cbn [Py.has_char]. rewrite orb_false_r. intros Hc.
    apply Ascii.eqb_eq in Hc as <-. left. by eexists.
  - rewrite string_of_uint_nonnil by apply Unsigned.to_uint_nonnil.
    intros Hc. left. by eapply string_of_uint_chars.
  - rewrite string_of_uint_nonnil by apply Unsigned.to_uint_nonnil.
    cbn [Py.has_char]. intros [Hc|Hc]%orb_prop.
    + apply Ascii.eqb_eq in Hc as <-. right. split; [done|lia].
    + left. by eapply string_of_uint_chars.
Qed.

(** A character that is neither a digit nor the minus sign is not in
    [str(n)]. *)
Lemma str_lacks (c : ascii) (n : Z) :
  Py.digit_of c = None → c ≠ "-"%char → Py.has_char c (Py.str n) = false.
Proof.
  intros Hd Hm. destruct (Py.has_char c (Py.str n)) eqn:Hc; [|done].
  apply str_chars in Hc as [[x Hx]|[-> _]]; congruence.
Qed.

(** The minus sign is not in [str(n)] for [n >= 0]. *)
Lemma str_lacks_minus (n : Z) : 0 ≤ n → Py.has_char "-" (Py.str n) = false.
Proof.
  intros Hn. destruct (Py.has_char "-" (Py.str n)) eqn:Hc; [|done].
  apply str_chars in Hc as [[x Hx]|[_ ?]]; [done|lia].
Qed.

Lemma digits_string_of_uint (d acc : Decimal.uint) :
  Py.digits (Z.of_N (Unsigned.of_lu acc)) false (NilEmpty.string_of_uint d)
  = Some (Z.of_N (Unsigned.of_lu (Decimal.revapp d acc))).
Proof.
  revert acc.
  induction d as [|d IH|d IH|d IH|d IH|d IH|d IH|d IH|d IH|d IH|d IH];
    intros acc; [reflexivity|..];
    cbn [NilEmpty.string_of_uint Py.digits Decimal.revapp];
    rewrite <- IH;
    match goal with
    | |- context [Py.digit_of ?c] =>
        let v := eval vm_compute in (Py.digit_of c) in
        change (Py.digit_of c) with v
    end;
    cbn iota; f_equal; cbn [Unsigned.of_lu]; lia.
Qed.

Lemma unsigned_string_of_uint (d : Decimal.uint) :
  d ≠ Decimal.Nil →
  Py.unsigned (NilEmpty.string_of_uint d) = Some (Z.of_uint d).
Proof.
  intros Hd. unfold Z.of_uint. rewrite Unsigned.of_uint_alt.
  unfold Decimal.rev. rewrite <- digits_string_of_uint.
  destruct d; [done|..]; reflexivity.
Qed.

Lemma rstrip_string_of_uint (d : Decimal.uint) :
  Py.rstrip (NilEmpty.string_of_uint d) = NilEmpty.string_of_uint d.
Proof.
  induction d as [|d IH|d IH|d IH|d IH|d IH|d IH|d IH|d IH|d IH|d IH];
    [reflexivity|..];
    cbn [NilEmpty.string_of_uint Py.rstrip]; rewrite IH;
    by destruct (NilEmpty.string_of_uint d).
Qed.

(** [int(str(n)) = n] *)
Lemma int_str (n : Z) : Py.int (Py.str n) = Ok n.
Proof.
  unfold Py.str, Py.int. destruct n as [|p|p]; [reflexivity|..];
    cbn [Z.to_int NilZero.string_of_int];
    rewrite string_of_uint_nonnil by apply Unsigned.to_uint_nonnil;
    pose proof (Unsigned.to_uint_nonnil p) as Hnn;
    pose proof (unsigned_string_of_uint _ Hnn) as Hu;
    pose proof (rstrip_string_of_uint (Pos.to_uint p)) as Hr;
    unfold Z.of_uint in Hu; rewrite Unsigned.of_to in Hu.
  - destruct (Pos.to_uint p) eqn:Hd; [done|..];
      cbn [NilEmpty.string_of_uint] in *;
      match goal with
      | |- context [Py.lstrip (String ?c ?s)] =>
          change (Py.lstrip (String c s)) with (String c s)
      end;
      rewrite Hr; cbv iota beta; rewrite Hu; reflexivity.
  - change (Py.lstrip (String "-" ?s)) with (String "-" s).
    cbn [Py.rstrip]. rewrite Hr.
    destruct (NilEmpty.string_of_uint (Pos.to_uint p)) eqn:Hs.
    + destruct (Pos.to_uint p); done.
    + cbv iota beta. rewrite Hu. reflexivity.
Qed.

Lemma str_inj (m n : Z) : Py.str m = Py.str n → m = n.
Proof.
  intros H. pose proof (int_str m) as Hm. rewrite H, int_str in Hm.
  by injection Hm.
Qed.

(** ** Indexing the list of records *)

Lemma bind_Ok {A B} (m : result A) (f : A → result B) (y : B) :
  m ≫= f = Ok y → ∃ x, m = Ok x ∧ f x = Ok y.
Proof. destruct m as [x|e]; [|done]. intros H. by exists x. Qed.

(** Takes the equation of a sequence of bindings apart. *)
Ltac binds H :=
  repeat match type of H with
    | _ ≫= _ = Ok _ =>
        let x := fresh "x" in
        let Hx := fresh "Hx" in
        apply bind_Ok in H as (x & Hx & H); cbn beta in H
    end.

Lemma position_lt (n : nat) (i : Z) (p : nat) :
  Py.position n i = Ok p → (p < n)%nat.
Proof.
  unfold Py.position.
  destruct (Z.leb_spec 0 i), (Z.ltb_spec i (Z.of_nat n)); cbn;
    try (intros [= <-]; lia);
    destruct (Z.ltb_spec i 0), (Z.leb_spec 0 (i + Z.of_nat n)); cbn;
    try (intros [= <-]; lia); done.
Qed.

Lemma get_lookup {A} (l : list A) (i : Z) (x : A) :
  Py.get l i = Ok x → ∃ p, Py.position (length l) i = Ok p ∧ l !! p = Some x.
Proof.
  unfold Py.get. intros H. binds H. exists x0. split; [done|].
  destruct (l !! x0); [|done]. by injection H as ->.
Qed.

Lemma get_elem_of {A} (l : list A) (i : Z) (x : A) :
  Py.get l i = Ok x → x ∈ l.
Proof.
  intros H. apply get_lookup in H as (p & _ & Hp). by eapply list_elem_of_lookup_2.
Qed.

Lemma position_in_range (n : nat) (i : Z) :
  - Z.of_nat n ≤ i < Z.of_nat n → ∃ p, Py.position n i = Ok p.
Proof.
  intros Hi. unfold Py.position.
  destruct (Z.leb_spec 0 i), (Z.ltb_spec i (Z.of_nat n)); cbn; eauto; try lia.
  destruct (Z.ltb_spec i 0), (Z.leb_spec 0 (i + Z.of_nat n)); cbn; eauto; lia.
Qed.

Lemma get_in_range {A} (l : list A) (i : Z) :
  - Z.of_nat (length l) ≤ i < Z.of_nat (length l) → ∃ x, Py.get l i = Ok x.
Proof.
  intros Hi. destruct (position_in_range _ _ Hi) as (p & Hp).
  unfold Py.get. rewrite Hp. cbn [mbind result_bind].
  destruct (lookup_lt_is_Some_2 l p) as (x & ->); [by eapply position_lt|].
  by exists x.
Qed.

Lemma for_each_fixed {S A} (body : S → A → result S) (s : S) (l : list A) :
  (∀ x, x ∈ l → body s x = Ok s) → for_each body s l = Ok s.
Proof.
  induction l as [|x l IH]; intros H; [reflexivity|].
  cbn [for_each]. rewrite H by left. cbn [mbind result_bind].
  apply IH. intros y Hy. apply H. by right.
Qed.

Lemma elem_of_range (a b i : Z) : i ∈ Py.range a b → a ≤ i < b.
Proof.
  unfold Py.range. intros H. apply list_elem_of_fmap in H as (k & -> & Hk).
  apply elem_of_seq in Hk. lia.
Qed.

Lemma for_each_app {S A} (body : S → A → result S) (l1 l2 : list A) (st : S) :
  for_each body st (l1 ++ l2)
  = for_each body st l1 ≫= λ st', for_each body st' l2.
Proof.
  revert st. induction l1 as [|x l1 IH]; intros st; [reflexivity|].
  cbn [app for_each]. destruct (body st x) as [st'|e]; [|reflexivity].
  cbn [mbind result_bind]. apply IH.
Qed.

Lemma map_seq_from {A} (f : nat → A) (len start : nat) :
  List.map f (seq start len) = List.map (λ k, f (start + k)%nat) (seq 0 len).
Proof.
  revert start. induction len as [|len IH]; intros start; [reflexivity|].
  cbn [seq List.map]. rewrite Nat.add_0_r. f_equal.
  rewrite IH, <- seq_shift, map_map. apply map_ext. intros k.
  f_equal. lia.
Qed.

Lemma range_app (a b c : Z) :
  a ≤ b ≤ c → Py.range a c = Py.range a b ++ Py.range b c.
Proof.
  intros H. unfold Py.range.
  replace (Z.to_nat (c - a)) with (Z.to_nat (b - a) + Z.to_nat (c - b))%nat
    by lia.
  rewrite seq_app, map_app. f_equal. cbn [Nat.add].
  rewrite map_seq_from. apply map_ext. intros k. lia.
Qed.

Lemma range_first (a b : Z) : a < b → Py.range a b = a :: Py.range (a + 1) b.
Proof.
  intros H. rewrite (range_app a (a + 1) b) by lia.
  unfold Py.range at 1. replace (a + 1 - a) with 1 by lia.
  change (Z.to_nat 1) with 1%nat. cbn [seq List.map app Z.of_nat].
  f_equal. lia.
Qed.

Lemma get_lookup_nat {A} (l : list A) (i : Z) (x : A) :
  0 ≤ i → l !! Z.to_nat i = Some x → Py.get l i = Ok x.
Proof.
  intros Hi Hx. pose proof (lookup_lt_Some _ _ _ Hx) as Hlt.
  unfold Py.get, Py.position.
  destruct (Z.leb_spec 0 i); [|lia].
  destruct (Z.ltb_spec i (Z.of_nat (length l))); [|lia].
  cbn. by rewrite Hx.
Qed.

Lemma get_middle {A} (pre post : list A) (x : A) (i : Z) :
  i = Z.of_nat (length pre) → Py.get (pre ++ x :: post) i = Ok x.
Proof.
  intros ->. unfold Py.get, Py.position. rewrite length_app. cbn [length].
  destruct (Z.leb_spec 0 (Z.of_nat (length pre))); [|lia].
  destruct (Z.ltb_spec (Z.of_nat (length pre))
              (Z.of_nat (length pre + S (length post)))); [|lia].
  cbn. rewrite Nat2Z.id. by rewrite list_lookup_middle.
Qed.

Lemma set_middle {A} (pre post : list A) (x y : A) (i : Z) :
  i = Z.of_nat (length pre) →
  Py.set (pre ++ x :: post) i y = Ok (pre ++ y :: post).
Proof.
  intros ->. unfold Py.set, Py.position. rewrite length_app. cbn [length].
  destruct (Z.leb_spec 0 (Z.of_nat (length pre))); [|lia].
  destruct (Z.ltb_spec (Z.of_nat (length pre))
              (Z.of_nat (length pre + S (length post)))); [|lia].
  cbn. rewrite Nat2Z.id. f_equal.
  by rewrite insert_app_r_alt, Nat.sub_diag by lia.
Qed.

Lemma get_second {A} (pre post : list A) (x y : A) (i : Z) :
  i = Z.of_nat (length pre) + 1 → Py.get (pre ++ x :: y :: post) i = Ok y.
Proof.
  intros ->. rewrite (cons_middle x pre), app_assoc.
  apply get_middle. rewrite length_app. cbn. lia.
Qed.

Lemma set_second {A} (pre post : list A) (x y z : A) (i : Z) :
  i = Z.of_nat (length pre) + 1 →
  Py.set (pre ++ x :: y :: post) i z = Ok (pre ++ x :: z :: post).
Proof.
  intros ->. rewrite (cons_middle x pre), app_assoc.
  rewrite set_middle by (rewrite length_app; cbn; lia).
  by rewrite <- app_assoc.
Qed.

Lemma get_head {A} (l : list A) (x : A) : Py.get (x :: l) 0 = Ok x.
Proof. by apply (get_middle []). Qed.

Lemma set_head {A} (l : list A) (x y : A) : Py.set (x :: l) 0 y = Ok (y :: l).
Proof. by apply (set_middle []). Qed.

Lemma last_snoc {A} (l : list A) (x : A) : Py.last (l ++ [x]) = Ok x.
Proof. unfold Py.last. by rewrite rev_unit. Qed.

Lemma set_last_snoc {A} (l : list A) (x y : A) :
  Py.set_last (l ++ [x]) y = Ok (l ++ [y]).
Proof.
  unfold Py.set_last. rewrite removelast_last. by destruct l.
Qed.

Lemma pop_snoc {A} (l : list A) (x : A) : Py.pop (l ++ [x]) = Ok l.
Proof. unfold Py.pop. rewrite removelast_last. by destruct l. Qed.

Lemma map_last_snoc {A} (f : A → A) (l : list A) (x : A) :
  map_last f (l ++ [x]) = l ++ [f x].
Proof. unfold map_last. by rewrite rev_unit, rev_involutive. Qed.

Lemma set_sequences_twice (r : PartialRecord) (l l' : list string) :
  set_sequences (set_sequences r l) l' = set_sequences r l'.
Proof. reflexivity. Qed.

Lemma replace_in_first_at (pre post : list PartialRecord) (r : PartialRecord)
    (e : string) (rest : list string) (old new : string) (i : Z) :
  i = Z.of_nat (length pre) → sequences r = e :: rest →
  replace_in_first old new i (pre ++ r :: post)
  = Ok (pre ++ set_sequences r (Py.replace old new e :: rest) :: post).
Proof.
  intros Hi Hr. unfold replace_in_first.
  rewrite (get_middle pre post r i Hi). cbn [mbind result_bind].
  rewrite Hr, get_head. cbn [mbind result_bind].
  rewrite set_head. cbn [mbind result_bind].
  by rewrite (set_middle pre post r _ i Hi).
Qed.

(** The six rewritings, on a marker of six fields at the position [i]. *)
Lemma rewrite_first_at (pre post : list PartialRecord) (r : PartialRecord)
    (e : string) (rest : list string) (p0 p1 p2 p3 p4 p5 : string)
    (res : Resolved) (i : Z) :
  i = Z.of_nat (length pre) → sequences r = e :: rest →
  res_results res = pre ++ r :: post →
  rewrite_first i [p0; p1; p2; p3; p4; p5] res
  = Ok (pre ++ set_sequences r (rewritten e p3 p4 p5 res :: rest) :: post).
Proof.
  intros Hi Hr Hres. unfold rewrite_first, rewritten.
  change (Py.get [p0; p1; p2; p3; p4; p5] 5) with (Ok p5).
  change (Py.get [p0; p1; p2; p3; p4; p5] 4) with (Ok p4).
  change (Py.get [p0; p1; p2; p3; p4; p5] 3) with (Ok p3).
  cbn [mbind result_bind]. rewrite Hres.
  rewrite (replace_in_first_at pre post r e rest _ _ i Hi Hr).
  cbn [mbind result_bind].
  repeat (erewrite replace_in_first_at; [|exact Hi|reflexivity];
          cbn [mbind result_bind]; rewrite set_sequences_twice).
  reflexivity.
Qed.

(** ** The rewriting of a head-split marker *)

(** Normal form of a concatenation: nested to the right, literals unfolded. *)
Ltac strnorm :=
  repeat (rewrite ?str_app_assoc, ?str_app_empty_r;
          progress cbn [String.append]);
  rewrite ?str_app_assoc, ?str_app_empty_r.

Ltac streq := strnorm; reflexivity.

(** Closes [lacks c s] and [Py.has_char c s = false] for a text [s] made
    of literals, of [str n] and of texts known to lack [c]. *)
Ltac lacks :=
  unfold lacks in *; rewrite ?has_char_app;
  repeat apply orb_false_intro;
  first
    [ assumption
    | reflexivity
    | apply str_lacks; [reflexivity|discriminate]
    | apply str_lacks_minus; lia ].

(** One occurrence of [old], found by a character [c] of it that the text
    before lacks, and none after, because the text after lacks a character
    [c'] of [old]. *)
Lemma replace_once (old new s : string) (c c' : ascii) (u v a b : string) :
  old = u +:+ String c v → s = a +:+ old +:+ b →
  lacks c a → lacks c u →
  Py.has_char c' old = true → lacks c' b →
  Py.replace old new s = a +:+ new +:+ b.
Proof.
  intros -> -> Ha Hu Hc' Hb.
  assert (Hscan : Py.replace (u +:+ String c v) new
                    (a +:+ (u +:+ String c v) +:+ b)
                  = Py.replace_scan (u +:+ String c v) new O
                      (a +:+ (u +:+ String c v) +:+ b)) by by destruct u.
  rewrite Hscan, (replace_scan_first c u v new a b Ha Hu).
  by rewrite (replace_scan_absent c' _ new b Hc' Hb).
Qed.

Lemma substring_all (s : string) :
  String.substring 0 (String.length s) s = s.
Proof. induction s as [|x s IH]; [reflexivity|]. cbn. by rewrite IH. Qed.

Lemma prefix_split (p s : string) :
  String.prefix p s = true →
  s = p +:+ String.substring (String.length p)
              (String.length s - String.length p) s.
Proof.
  revert s. induction p as [|a p IH]; intros s Hp.
  - cbn. by rewrite Nat.sub_0_r, substring_all.
  - destruct s as [|b s]; [done|].
    rewrite prefix_cons in Hp. apply andb_prop in Hp as [Hab Hp].
    apply Ascii.eqb_eq in Hab as ->. cbn. f_equal. by apply IH.
Qed.

(** Replacing a text by itself changes nothing. *)
Lemma replace_scan_same (c : ascii) (old s : string) (k : nat) :
  Py.replace_scan (String c old) (String c old) k s
  = String.substring k (String.length s - k) s.
Proof.
  revert k. induction s as [|x s IH]; intros k; [by destruct k|].
  destruct k as [|k]; cbn [Py.replace_scan].
  - destruct (String.prefix (String c old) (String x s)) eqn:Hp.
    + rewrite IH. rewrite Nat.sub_0_r, substring_all.
      symmetry. exact (prefix_split _ _ Hp).
    + rewrite IH, !Nat.sub_0_r, !substring_all. reflexivity.
  - rewrite IH. reflexivity.
Qed.

Lemma replace_same (c : ascii) (old s : string) :
  Py.replace (String c old) (String c old) s = s.
Proof.
  by rewrite replace_nonempty, replace_scan_same, Nat.sub_0_r, substring_all.
Qed.

(** The first rewriting takes the field [^text^] away. *)
Lemma replace_text_field (a text : string) :
  lacks "^" a →
  Py.replace (" " +:+ "^" +:+ text +:+ "^") "" (a +:+ " ^" +:+ text +:+ "^")
  = a.
Proof.
  intros Ha. transitivity (a +:+ "" +:+ ""); [|streq].
  apply (replace_once _ _ _ "^" "^" " " (text +:+ "^") a "");
    [streq|streq|lacks|lacks|reflexivity|lacks].
Qed.

(** The last three rewritings put the span, the offset of the header and
    the name in. *)
Lemma replace_placeholders (po pl sp : Z) (name oh : string) :
  lacks ">" oh →
  Py.replace ">> " (name +:+ " ")
    (Py.replace " <Y> " (" " +:+ oh +:+ " ")
       (Py.replace " <X> " (" " +:+ Py.str (sp + 1) +:+ " ")
          (">> <X> <Y> " +:+ Py.str po +:+ " " +:+ Py.str pl)))
  = name +:+ " " +:+ Py.str (sp + 1) +:+ " " +:+ oh
      +:+ " " +:+ Py.str po +:+ " " +:+ Py.str pl.
Proof.
  intros Hoh.
  assert (H4 : Py.replace " <X> " (" " +:+ Py.str (sp + 1) +:+ " ")
                 (">> <X> <Y> " +:+ Py.str po +:+ " " +:+ Py.str pl)
               = ">> " +:+ Py.str (sp + 1) +:+ " <Y> " +:+ Py.str po
                   +:+ " " +:+ Py.str pl).
  { transitivity (">>" +:+ (" " +:+ Py.str (sp + 1) +:+ " ")
                    +:+ ("<Y> " +:+ Py.str po +:+ " " +:+ Py.str pl)); [|streq].
    apply (replace_once _ _ _ " " "X" "" "<X> " ">>"
             ("<Y> " +:+ Py.str po +:+ " " +:+ Py.str pl));
      [streq|streq|lacks|lacks|reflexivity|lacks]. }
  rewrite H4. clear H4.
  assert (H5 : Py.replace " <Y> " (" " +:+ oh +:+ " ")
                 (">> " +:+ Py.str (sp + 1) +:+ " <Y> " +:+ Py.str po
                    +:+ " " +:+ Py.str pl)
               = ">> " +:+ Py.str (sp + 1) +:+ " " +:+ oh +:+ " "
                   +:+ Py.str po +:+ " " +:+ Py.str pl).
  { transitivity ((">> " +:+ Py.str (sp + 1)) +:+ (" " +:+ oh +:+ " ")
                    +:+ (Py.str po +:+ " " +:+ Py.str pl)); [|streq].
    apply (replace_once _ _ _ "<" "Y" " " "Y> " (">> " +:+ Py.str (sp + 1))
             (Py.str po +:+ " " +:+ Py.str pl));
      [streq|streq|lacks|lacks|reflexivity|lacks]. }
  rewrite H5. clear H5.
  transitivity ("" +:+ (name +:+ " ")
                  +:+ (Py.str (sp + 1) +:+ " " +:+ oh +:+ " "
                         +:+ Py.str po +:+ " " +:+ Py.str pl)); [|streq].
  apply (replace_once _ _ _ ">" ">" "" "> " ""
           (Py.str (sp + 1) +:+ " " +:+ oh +:+ " "
              +:+ Py.str po +:+ " " +:+ Py.str pl));
    [streq|streq|lacks|lacks|reflexivity|lacks].
Qed.

(** The marker with two pairs becomes the entry of the pair [(po, pl)]
    that the branch selected. *)
Lemma rewritten_two (o0 l0 o1 l1 po pl sp : Z) (text name oh : string)
    (rs : list PartialRecord) :
  0 ≤ o0 → 0 ≤ l0 → 0 ≤ o1 → 0 ≤ l1 → 0 ≤ po → lacks ">" oh →
  rewritten (head_split (Two o0 l0 o1 l1) text)
    (offsets_text (Two o0 l0 o1 l1)) (lengths_text (Two o0 l0 o1 l1))
    ("^" +:+ text +:+ "^")
    {| res_results := rs; name_id := name; length_ := Py.str pl;
       offset_head := oh; offset_base := Py.str po; split := sp |}
  = name +:+ " " +:+ Py.str (sp + 1) +:+ " " +:+ oh
      +:+ " " +:+ Py.str po +:+ " " +:+ Py.str pl.
Proof.
  intros Ho0 Hl0 Ho1 Hl1 Hpo Hoh.
  unfold rewritten, head_split, offsets_text, lengths_text.
  cbn [name_id length_ offset_head offset_base split].
  set (so := Py.str o0 +:+ "-" +:+ Py.str o1).
  set (sl := Py.str l0 +:+ "-" +:+ Py.str l1).
  assert (H1 : Py.replace (" " +:+ "^" +:+ text +:+ "^") ""
                 (">> <X> <Y> " +:+ so +:+ " " +:+ sl +:+ " ^" +:+ text +:+ "^")
               = ">> <X> <Y> " +:+ so +:+ " " +:+ sl).
  { transitivity (Py.replace (" " +:+ "^" +:+ text +:+ "^") ""
                    ((">> <X> <Y> " +:+ so +:+ " " +:+ sl)
                       +:+ " ^" +:+ text +:+ "^")).
    - f_equal. subst so sl. streq.
    - apply replace_text_field. subst so sl. lacks. }
  rewrite H1. clear H1.
  assert (H2 : Py.replace (" " +:+ so +:+ " ") (" " +:+ Py.str po +:+ " ")
                 (">> <X> <Y> " +:+ so +:+ " " +:+ sl)
               = ">> <X> <Y> " +:+ Py.str po +:+ " " +:+ sl).
  { transitivity (">> <X> <Y>" +:+ (" " +:+ Py.str po +:+ " ") +:+ sl);
      [|streq].
    apply (replace_once _ _ _ "-" " " (" " +:+ Py.str o0) (Py.str o1 +:+ " ")
             ">> <X> <Y>" sl); subst so sl;
      [streq|streq|lacks|lacks|reflexivity|lacks]. }
  rewrite H2. clear H2.
  assert (H3 : Py.replace (" " +:+ sl) (" " +:+ Py.str pl)
                 (">> <X> <Y> " +:+ Py.str po +:+ " " +:+ sl)
               = ">> <X> <Y> " +:+ Py.str po +:+ " " +:+ Py.str pl).
  { transitivity ((">> <X> <Y> " +:+ Py.str po) +:+ (" " +:+ Py.str pl) +:+ "");
      [|streq].
    apply (replace_once _ _ _ "-" " " (" " +:+ Py.str l0) (Py.str l1)
             (">> <X> <Y> " +:+ Py.str po) ""); subst so sl;
      [streq|streq|lacks|lacks|reflexivity|lacks]. }
  rewrite H3. by apply replace_placeholders.
Qed.

(** The marker with one pair becomes the entry of that pair. *)
Lemma rewritten_one (o0 l0 sp : Z) (text name oh : string)
    (rs : list PartialRecord) :
  0 ≤ o0 → 0 ≤ l0 → lacks ">" oh →
  rewritten (head_split (One o0 l0) text)
    (offsets_text (One o0 l0)) (lengths_text (One o0 l0))
    ("^" +:+ text +:+ "^")
    {| res_results := rs; name_id := name; length_ := Py.str l0;
       offset_head := oh; offset_base := Py.str o0; split := sp |}
  = name +:+ " " +:+ Py.str (sp + 1) +:+ " " +:+ oh
      +:+ " " +:+ Py.str o0 +:+ " " +:+ Py.str l0.
Proof.
  intros Ho0 Hl0 Hoh.
  unfold rewritten, head_split, offsets_text, lengths_text.
  cbn [name_id length_ offset_head offset_base split].
  assert (H1 : Py.replace (" " +:+ "^" +:+ text +:+ "^") ""
                 (">> <X> <Y> " +:+ Py.str o0 +:+ " " +:+ Py.str l0
                    +:+ " ^" +:+ text +:+ "^")
               = ">> <X> <Y> " +:+ Py.str o0 +:+ " " +:+ Py.str l0).
  { transitivity (Py.replace (" " +:+ "^" +:+ text +:+ "^") ""
                    ((">> <X> <Y> " +:+ Py.str o0 +:+ " " +:+ Py.str l0)
                       +:+ " ^" +:+ text +:+ "^")).
    - f_equal. streq.
    - apply replace_text_field. lacks. }
  rewrite H1. clear H1.
  change (" " +:+ Py.str o0 +:+ " ") with (String " " (Py.str o0 +:+ " ")).
  change (" " +:+ Py.str l0) with (String " " (Py.str l0)).
  rewrite !replace_same.
  by apply replace_placeholders.
Qed.

(** ** The fields of the markers and of the entries *)

Lemma lacks_minus_sign (c : ascii) : c ≠ "-"%char → lacks c "-".
Proof.
  intros Hc. unfold lacks. cbn [Py.has_char]. rewrite orb_false_r.
  by destruct (Ascii.eqb_spec "-" c).
Qed.

Lemma lacks_offsets (c : ascii) (cs : Candidates) :
  Py.digit_of c = None → c ≠ "-"%char → lacks c (offsets_text cs).
Proof.
  intros Hd Hm. pose proof (lacks_minus_sign c Hm).
  destruct cs; unfold lacks, offsets_text in *; rewrite ?has_char_app;
    repeat apply orb_false_intro;
    first [assumption | by apply str_lacks | by destruct (Ascii.eqb_spec "-" c)].
Qed.

Lemma lacks_lengths (c : ascii) (cs : Candidates) :
  Py.digit_of c = None → c ≠ "-"%char → lacks c (lengths_text cs).
Proof.
  intros Hd Hm. pose proof (lacks_minus_sign c Hm).
  destruct cs; unfold lacks, lengths_text in *; rewrite ?has_char_app;
    repeat apply orb_false_intro;
    first [assumption | by apply str_lacks | by destruct (Ascii.eqb_spec "-" c)].
Qed.

(** [param] for a head-split marker. *)
Lemma split_head_split (cs : Candidates) (text : string) :
  lacks " " text →
  Py.split " " (head_split cs text)
  = [">>"; "<X>"; "<Y>"; offsets_text cs; lengths_text cs;
     "^" +:+ text +:+ "^"].
Proof.
  intros Ht. unfold head_split.
  change (">> <X> <Y> " +:+ ?s)
    with (">>" +:+ String " " ("<X>" +:+ String " " ("<Y>" +:+ String " " s))).
  rewrite !split_app_sep by reflexivity.
  change (" " +:+ ?s) with (String " " s).
  rewrite split_app_sep by (by apply lacks_offsets).
  change (" ^" +:+ ?s) with (String " " ("^" +:+ s)).
  rewrite split_app_sep by (by apply lacks_lengths).
  rewrite split_no_sep by lacks. reflexivity.
Qed.

(** [param_seq_prev] for a tail-split marker. *)
Lemma split_tail_split (complete : bool) (id : string) (oh : Z) :
  lacks " " id →
  Py.split " " (tail_split complete id oh)
  = [(if complete then "<->" else "<_>") +:+ id; Py.str oh].
Proof.
  intros Hid. unfold tail_split.
  change (" " +:+ ?s) with (String " " s).
  rewrite <- str_app_assoc.
  rewrite split_app_sep by (destruct complete; lacks).
  rewrite split_no_sep by lacks. reflexivity.
Qed.

(** [param_seq_prev] for an entry with its number of bases. *)
Lemma split_entry_len (id : string) (sp oh ob len : Z) :
  lacks " " id →
  Py.split " " (entry_len id sp oh ob len)
  = [id; Py.str sp; Py.str oh; Py.str ob; Py.str len].
Proof.
  intros Hid. unfold entry_len, entry. strnorm.
  rewrite !split_app_sep by lacks.
  rewrite split_no_sep by lacks. reflexivity.
Qed.

Lemma split_two_numbers (a b : Z) :
  0 ≤ a → 0 ≤ b →
  Py.split "-" (Py.str a +:+ "-" +:+ Py.str b) = [Py.str a; Py.str b].
Proof.
  intros Ha Hb. change ("-" +:+ ?s) with (String "-" s).
  rewrite split_app_sep by lacks. rewrite split_no_sep by lacks. reflexivity.
Qed.

Lemma split_one_number (a : Z) : 0 ≤ a → Py.split "-" (Py.str a) = [Py.str a].
Proof. intros Ha. apply split_no_sep. lacks. Qed.

Lemma contains_head_split (cs : Candidates) (text : string) :
  Py.contains ">>" (head_split cs text) = true.
Proof. apply contains_prefix. reflexivity. Qed.

(** A tail-split marker holds its own tag, and the complete one does not
    hold the tag of the cut one, nor the other way round. *)
Lemma contains_tail_split (complete : bool) (id : string) (oh : Z) :
  lacks "<" id →
  Py.contains "<->" (tail_split complete id oh) = complete
  ∧ Py.contains "<_>" (tail_split complete id oh) = negb complete.
Proof.
  intros Hid.
  assert (Hrest : ∀ sub, Py.has_char "<" sub = true →
            Py.contains sub (id +:+ " " +:+ Py.str oh) = false).
  { intros sub Hsub. apply (contains_absent "<"); [done|lacks]. }
  unfold tail_split. destruct complete; split.
  - apply contains_prefix. apply prefix_app.
  - change ("<->" +:+ ?s) with (String "<" (String "-" (String ">" s))).
    cbn [Py.contains]. rewrite !prefix_cons.
    rewrite (Hrest "<_>") by reflexivity. reflexivity.
  - change ("<_>" +:+ ?s) with (String "<" (String "_" (String ">" s))).
    cbn [Py.contains]. rewrite !prefix_cons.
    rewrite (Hrest "<->") by reflexivity. reflexivity.
  - apply contains_prefix. apply prefix_app.
Qed.

(** An entry is not a tail-split marker. *)
Lemma contains_entry_len (sub id : string) (sp oh ob len : Z) :
  lacks "<" id → Py.has_char "<" sub = true →
  Py.contains sub (entry_len id sp oh ob len) = false.
Proof.
  intros Hid Hsub. apply (contains_absent "<"); [done|].
  unfold entry_len, entry. lacks.
Qed.

(** The name of the sequence, from the tag and the id. *)
Lemma replace_tag (complete : bool) (id : string) :
  lacks "<" id →
  Py.replace (if complete then "<->" else "<_>") ""
    ((if complete then "<->" else "<_>") +:+ id) = id.
Proof.
  intros Hid.
  destruct complete; (transitivity ("" +:+ "" +:+ id); [|reflexivity]).
  - apply (replace_once _ _ _ "<" "<" "" "->" "" id);
      [streq|streq|lacks|lacks|reflexivity|lacks].
  - apply (replace_once _ _ _ "<" "<" "" "_>" "" id);
      [streq|streq|lacks|lacks|reflexivity|lacks].
Qed.

Lemma replace_carets (text : string) :
  lacks "^" text → Py.replace "^" "" ("^" +:+ text +:+ "^") = text.
Proof.
  intros Ht. rewrite replace_nonempty.
  rewrite (replace_scan_here "^" "" "" (text +:+ "^")).
  change ("" +:+ ?s) with s.
  change "^" with ("" +:+ String "^" "") at 1.
  rewrite (replace_scan_pass "^" "" "" "" text "^" Ht) by reflexivity.
  change (Py.replace_scan _ _ _ "^") with "".
  apply str_app_empty_r.
Qed.

(** ** One iteration of [reduce] on a pair of adjacent records *)

Lemma split_offsets_two (o0 l0 o1 l1 : Z) :
  0 ≤ o0 → 0 ≤ o1 →
  Py.split "-" (offsets_text (Two o0 l0 o1 l1)) = [Py.str o0; Py.str o1].
Proof. apply split_two_numbers. Qed.

Lemma split_lengths_two (o0 l0 o1 l1 : Z) :
  0 ≤ l0 → 0 ≤ l1 →
  Py.split "-" (lengths_text (Two o0 l0 o1 l1)) = [Py.str l0; Py.str l1].
Proof. apply split_two_numbers. Qed.

Lemma split_offsets_one (o0 l0 : Z) :
  0 ≤ o0 → Py.split "-" (offsets_text (One o0 l0)) = [Py.str o0].
Proof. apply split_one_number. Qed.

Lemma split_lengths_one (o0 l0 : Z) :
  0 ≤ l0 → Py.split "-" (lengths_text (One o0 l0)) = [Py.str l0].
Proof. apply split_one_number. Qed.

Lemma entry_len_text (id : string) (sp oh ob len : Z) :
  entry_len id sp oh ob len
  = id +:+ " " +:+ Py.str sp +:+ " " +:+ Py.str oh +:+ " " +:+ Py.str ob
      +:+ " " +:+ Py.str len.
Proof. unfold entry_len, entry. streq. Qed.

(** The previous record ends with a tail-split marker and the head-split
    marker has two pairs. *)
Lemma reduce_body_tail_split (pre post : list PartialRecord)
    (prev cur : PartialRecord) (seqs rest : list string)
    (complete : bool) (id text : string) (oh o0 l0 o1 l1 : Z) :
  lacks " " id → lacks "<" id → lacks " " text → lacks "^" text →
  0 ≤ o0 → 0 ≤ l0 → 0 ≤ o1 → 0 ≤ l1 →
  sequences prev = seqs ++ [tail_split complete id oh] →
  sequences cur = head_split (Two o0 l0 o1 l1) text :: rest →
  reduce_body (pre ++ prev :: cur :: post) (Z.of_nat (length pre) + 1)
  = Ok (pre
          ++ {| min_range := min_range prev; max_range := oh;
                sequences := seqs |}
          :: {| min_range := oh; max_range := max_range cur;
                sequences :=
                  entry_len (if complete then id else id +:+ text) 1 oh o1 l1
                    :: rest |}
          :: post).
Proof.
  intros Hid1 Hid2 Ht1 Ht2 Ho0 Hl0 Ho1 Hl1 Hprev Hcur.
  set (i := Z.of_nat (length pre) + 1).
  assert (Hi : i = Z.of_nat (length pre) + 1) by reflexivity.
  assert (Hi1 : i - 1 = Z.of_nat (length pre)) by lia.
  assert (Hpos : (i >? 0) = true) by lia.
  clearbody i.
  unfold reduce_body.
  rewrite (get_second pre post prev cur i Hi). cbn [mbind result_bind].
  rewrite (get_middle pre (cur :: post) prev (i - 1) Hi1).
  cbn [mbind result_bind]. cbv zeta. rewrite Hpos, Hcur.
  destruct (sequences prev) as [|y ys] eqn:Hsp; [by destruct seqs|].
  rewrite Hprev in Hsp |- *. clear y ys Hprev. rename Hsp into Hprev.
  rewrite contains_head_split, last_snoc. cbn [mbind result_bind].
  destruct (contains_tail_split complete id oh Hid2) as [Hc1 Hc2].
  rewrite Hc1, Hc2, orb_negb_r.
  rewrite split_head_split, split_tail_split by done.
  set (tag := if complete then "<->" else "<_>").
  set (name := if complete then id else id +:+ text).
  unfold resolve_marker. rewrite Hc1.
  assert (Hname :
    (if complete
     then p0 ← Py.get [tag +:+ id; Py.str oh] 0; Ok (Py.replace "<->" "" p0)
     else p0 ← Py.get [tag +:+ id; Py.str oh] 0;
          p5 ← Py.get [">>"; "<X>"; "<Y>"; offsets_text (Two o0 l0 o1 l1);
                       lengths_text (Two o0 l0 o1 l1); "^" +:+ text +:+ "^"] 5;
          Ok (Py.replace "<_>" "" p0 +:+ Py.replace "^" "" p5))
    = Ok name).
  { subst tag name. rewrite get_head. cbn [mbind result_bind].
    destruct complete.
    - by rewrite (replace_tag true).
    - change (Py.get _ 5) with (Ok ("^" +:+ text +:+ "^")).
      cbn [mbind result_bind].
      by rewrite (replace_tag false), replace_carets. }
  rewrite Hname. clear Hname. cbn [mbind result_bind].
  change (Py.get [_; _; _; _; ?p4; _] 4) with (Ok p4).
  change (Py.get [_; _; _; ?p3; _; _] 3) with (Ok p3).
  change (Py.get [_; ?p1] 1) with (Ok p1).
  cbn [mbind result_bind].
  rewrite split_offsets_two, split_lengths_two by done.
  change (Py.get [_; ?p1] 1) with (Ok p1).
  cbn [mbind result_bind].
  rewrite (get_middle pre (cur :: post) prev (i - 1) Hi1).
  cbn [mbind result_bind]. rewrite Hprev, pop_snoc. cbn [mbind result_bind].
  rewrite (set_middle pre (cur :: post) prev _ (i - 1) Hi1).
  cbn [mbind result_bind]. rewrite int_str. cbn [mbind result_bind].
  rewrite (get_second pre post _ cur i Hi). cbn [mbind result_bind].
  rewrite (set_second pre post _ cur _ i Hi). cbn [mbind result_bind].
  rewrite (get_middle pre (_ :: post) _ (i - 1) Hi1). cbn [mbind result_bind].
  rewrite (set_middle pre (_ :: post) _ _ (i - 1) Hi1).
  cbn [mbind result_bind].
  rewrite (cons_middle _ pre), app_assoc.
  erewrite rewrite_first_at; [| | |reflexivity].
  - rewrite rewritten_two by (done || lacks).
    rewrite <- app_assoc, entry_len_text. reflexivity.
  - rewrite length_app. cbn [length]. lia.
  - exact Hcur.
Qed.

Lemma replace_in_last_at (old new : string) (pre post : list PartialRecord)
    (r : PartialRecord) (i : Z) :
  i = Z.of_nat (length pre) → sequences r ≠ [] →
  replace_in_last old new (pre ++ r :: post) i
  = Ok (pre ++ replaced_in_last old new r :: post).
Proof.
  intros Hi Hr. destruct (exists_last Hr) as (l & e & Hl).
  unfold replace_in_last, replaced_in_last.
  rewrite (get_middle pre post r i Hi). cbn [mbind result_bind].
  rewrite Hl, last_snoc. cbn [mbind result_bind].
  rewrite set_last_snoc. cbn [mbind result_bind].
  by rewrite (set_middle pre post r _ i Hi), map_last_snoc.
Qed.

(** The loop [for x in range(i - split, i)] over the records [mid], which
    all have an entry. *)
Lemma replace_in_last_loop (old new : string) (mid pre post : list PartialRecord) :
  Forall (λ r, sequences r ≠ []) mid →
  for_each (replace_in_last old new) (pre ++ mid ++ post)
    (List.map (λ k, Z.of_nat (length pre) + Z.of_nat k) (seq 0 (length mid)))
  = Ok (pre ++ (replaced_in_last old new <$> mid) ++ post).
Proof.
  revert pre. induction mid as [|r mid IH]; intros pre Hne; [reflexivity|].
  apply Forall_cons in Hne as [Hr Hne].
  cbn [length seq List.map for_each app].
  rewrite (replace_in_last_at old new pre (mid ++ post) r) by (lia || done).
  cbn [mbind result_bind].
  rewrite <- seq_shift, List.map_map.
  rewrite (cons_middle _ pre), app_assoc.
  rewrite (List.map_ext _
             (λ k, Z.of_nat (length (pre ++ [replaced_in_last old new r]))
                   + Z.of_nat k)).
  2:{ intros k. rewrite length_app. cbn [length]. lia. }
  rewrite (IH _ Hne). by rewrite <- app_assoc.
Qed.

(** The previous record ends with the entry of a sequence that spans
    [sp] records, the records [mid] and [prev]. *)
Lemma reduce_body_entry (pre mid post : list PartialRecord)
    (prev cur : PartialRecord) (seqs rest : list string)
    (id text : string) (sp oh ob len : Z) (cs : Candidates) :
  lacks " " id → lacks "<" id → lacks " " text → natural cs →
  sp = Z.of_nat (length mid) + 1 →
  Forall (λ r, sequences r ≠ []) mid →
  sequences prev = seqs ++ [entry_len id sp oh ob len] →
  sequences cur = head_split cs text :: rest →
  reduce_body (pre ++ mid ++ prev :: cur :: post)
    (Z.of_nat (length pre) + sp)
  = Ok (pre
          ++ (replaced_in_last (" " +:+ Py.str sp +:+ " ")
                (" " +:+ Py.str (sp + 1) +:+ " ") <$> mid ++ [prev])
          ++ set_sequences cur
               (entry_len id (sp + 1) oh (first_pair cs).1 (first_pair cs).2
                  :: rest)
          :: post).
Proof.
  intros Hid1 Hid2 Ht Hcs Hsp Hmid Hprev Hcur.
  set (i := Z.of_nat (length pre) + sp).
  assert (Hi : i = Z.of_nat (length (pre ++ mid)) + 1)
    by (rewrite length_app; lia).
  assert (Hi1 : i - 1 = Z.of_nat (length (pre ++ mid))) by lia.
  assert (Hpos : (i >? 0) = true) by lia.
  assert (Hfrom : i - sp = Z.of_nat (length pre)) by lia.
  clearbody i.
  unfold reduce_body. rewrite (app_assoc pre mid).
  rewrite (get_second (pre ++ mid) post prev cur i Hi).
  cbn [mbind result_bind].
  rewrite (get_middle (pre ++ mid) (cur :: post) prev (i - 1) Hi1).
  cbn [mbind result_bind]. cbv zeta. rewrite Hpos, Hcur.
  destruct (sequences prev) as [|y ys] eqn:Hsp'; [by destruct seqs|].
  rewrite Hprev in Hsp' |- *. clear y ys Hprev. rename Hsp' into Hprev.
  rewrite contains_head_split, last_snoc. cbn [mbind result_bind].
  rewrite !contains_entry_len by done. cbn [orb].
  rewrite split_head_split, split_entry_len by done.
  unfold resolve_entry.
  change (Py.get [_; _; _; _; ?p4; _] 4) with (Ok p4).
  change (Py.get [_; _; _; ?p3; _; _] 3) with (Ok p3).
  change (Py.get [?p0; _; _; _; _] 0) with (Ok p0).
  change (Py.get [_; ?p1; _; _; _] 1) with (Ok p1).
  change (Py.get [_; _; ?p2; _; _] 2) with (Ok p2).
  cbn [mbind result_bind].
  assert (Hfields :
    Py.get (Py.split "-" (lengths_text cs)) 0 = Ok (Py.str (first_pair cs).2)
    ∧ Py.get (Py.split "-" (offsets_text cs)) 0
      = Ok (Py.str (first_pair cs).1)).
  { destruct cs as [o0 l0|o0 l0 o1 l1]; cbn [natural] in Hcs.
    - destruct Hcs as [? ?].
      by rewrite split_lengths_one, split_offsets_one, !get_head.
    - destruct Hcs as (? & ? & ? & ?).
      by rewrite split_lengths_two, split_offsets_two, !get_head. }
  destruct Hfields as [Hl Ho]. rewrite Hl. cbn [mbind result_bind].
  rewrite Ho. cbn [mbind result_bind]. rewrite int_str. cbn [mbind result_bind].
  unfold Py.range. rewrite Hfrom.
  replace (Z.to_nat (i - Z.of_nat (length pre)))
    with (length (mid ++ [prev])) by (rewrite length_app; cbn [length]; lia).
  rewrite <- (app_assoc pre mid), (cons_middle prev mid), (app_assoc mid).
  rewrite replace_in_last_loop.
  2:{ apply Forall_app. split; [done|]. apply Forall_cons. split; [|done].
      rewrite Hprev. by destruct seqs. }
  cbn [mbind result_bind]. rewrite (app_assoc pre).
  erewrite rewrite_first_at; [| | |reflexivity].
  - rewrite <- app_assoc. do 3 f_equal. rewrite entry_len_text.
    destruct cs as [o0 l0|o0 l0 o1 l1]; cbn [natural first_pair fst snd] in *.
    + destruct Hcs as [? ?]. rewrite rewritten_one by (done || lacks).
      reflexivity.
    + destruct Hcs as (? & ? & ? & ?).
      rewrite rewritten_two by (done || lacks). reflexivity.
  - rewrite !length_app, length_fmap, length_app. cbn [length]. lia.
  - exact Hcur.
Qed.

(** ** The span count of an entry *)

Lemma prefix_field (x y p q : string) :
  lacks " " x → lacks " " y →
  String.prefix (x +:+ " " +:+ p) (y +:+ " " +:+ q) = true → x = y.
Proof.
  unfold lacks. revert y. induction x as [|a x IH]; intros [|c y] Hx Hy Hp.
  - reflexivity.
  - change (String.prefix (String " " p) (String c (y +:+ " " +:+ q)) = true)
      in Hp.
    rewrite prefix_cons in Hp. apply andb_prop in Hp as [Hc _].
    cbn [Py.has_char] in Hy. by rewrite Hc in Hy.
  - change (String.prefix (String a (x +:+ " " +:+ p)) (String " " q) = true)
      in Hp.
    rewrite prefix_cons in Hp. apply andb_prop in Hp as [Ha _].
    cbn [Py.has_char] in Hx. apply orb_false_elim in Hx as [Hx _].
    apply Ascii.eqb_eq in Ha as <-. done.
  - change (String.prefix (String a (x +:+ " " +:+ p))
              (String c (y +:+ " " +:+ q)) = true) in Hp.
    rewrite prefix_cons in Hp. apply andb_prop in Hp as [Hca Hp].
    apply Ascii.eqb_eq in Hca as ->.
    cbn [Py.has_char] in Hx, Hy. apply orb_false_elim in Hx as [_ Hx].
    apply orb_false_elim in Hy as [_ Hy]. f_equal. by apply IH.
Qed.

(** [" x "] does not occur in three fields of which the middle one is not
    [x]. *)
Lemma replace_scan_three_fields (x new f1 f2 f3 : string) :
  lacks " " x → lacks " " f1 → lacks " " f2 → lacks " " f3 → f2 ≠ x →
  Py.replace_scan (" " +:+ x +:+ " ") new O (f1 +:+ " " +:+ f2 +:+ " " +:+ f3)
  = f1 +:+ " " +:+ f2 +:+ " " +:+ f3.
Proof.
  intros Hx H1 H2 H3 Hne.
  change (" " +:+ x +:+ " ") with ("" +:+ String " " (x +:+ " ")).
  rewrite (replace_scan_pass " " "" (x +:+ " ") new f1 _ H1) by reflexivity.
  f_equal. change (" " +:+ f2 +:+ " " +:+ f3) with (String " " (f2 +:+ " " +:+ f3)).
  cbn [Py.replace_scan].
  change ("" +:+ String " " (x +:+ " ")) with (String " " (x +:+ " ")).
  rewrite prefix_cons.
  destruct (String.prefix (x +:+ " ") (f2 +:+ " " +:+ f3)) eqn:Hp.
  { exfalso. apply Hne. symmetry.
    by apply (prefix_field x f2 "" f3). }
  rewrite andb_false_r. f_equal.
  change (String " " (x +:+ " ")) with ("" +:+ String " " (x +:+ " ")).
  rewrite (replace_scan_pass " " "" (x +:+ " ") new f2 _ H2) by reflexivity.
  f_equal. change (" " +:+ f3) with (String " " f3).
  cbn [Py.replace_scan].
  change ("" +:+ String " " (x +:+ " ")) with (String " " (x +:+ " ")).
  rewrite prefix_cons.
  destruct (String.prefix (x +:+ " ") f3) eqn:Hp3.
  { exfalso. pose proof (prefix_has_char " " _ _ Hp3) as Hin.
    rewrite has_char_app in Hin. unfold lacks in H3.
    rewrite H3 in Hin. rewrite orb_true_r in Hin. by specialize (Hin eq_refl). }
  rewrite andb_false_r. f_equal.
  by apply (replace_scan_absent " ").
Qed.

(** On the entry of a sequence that spans [sp] records, [replace] of
    [" sp "] by [" sp+1 "] adds one to the span and changes nothing else,
    when the offset of the bases is not [sp] itself. *)
Lemma replace_span (id : string) (sp oh ob len : Z) :
  lacks " " id → ob ≠ sp →
  Py.replace (" " +:+ Py.str sp +:+ " ") (" " +:+ Py.str (sp + 1) +:+ " ")
    (entry_len id sp oh ob len)
  = entry_len id (sp + 1) oh ob len.
Proof.
  intros Hid Hne. rewrite !entry_len_text.
  change (" " +:+ Py.str sp +:+ " ") with (String " " (Py.str sp +:+ " ")).
  rewrite replace_nonempty.
  change (String " " (Py.str sp +:+ " "))
    with ("" +:+ String " " (Py.str sp +:+ " ")).
  transitivity
    (Py.replace_scan ("" +:+ String " " (Py.str sp +:+ " "))
       (" " +:+ Py.str (sp + 1) +:+ " ") O
       (id +:+ ("" +:+ String " " (Py.str sp +:+ " "))
           +:+ (Py.str oh +:+ " " +:+ Py.str ob +:+ " " +:+ Py.str len))).
  { f_equal. streq. }
  rewrite (replace_scan_first " " "" _ _ id _ Hid) by reflexivity.
  change ("" +:+ String " " (Py.str sp +:+ " "))
    with (" " +:+ Py.str sp +:+ " ").
  rewrite replace_scan_three_fields; [streq|lacks..|].
  intros Heq. by apply str_inj in Heq.
Qed.

(** ** [reduce] on two records *)

Lemma reduce_two (prev cur : PartialRecord) :
  reduce [prev; cur] = reduce_body [prev; cur] 1.
Proof.
  change (reduce [prev; cur])
    with (st ← reduce_body [prev; cur] 0; st' ← reduce_body st 1; Ok st').
  change (reduce_body [prev; cur] 0) with (Ok [prev; cur]).
  cbn [mbind result_bind].
  by destruct (reduce_body [prev; cur] 1).
Qed.

(** ** The resolution of a head-split marker *)

(** C4, as the code has it: when record [i] starts with a head-split
    marker that carries two pairs and record [i-1] ends with a tail-split
    marker, the name is the id of the marker when the id is complete, and
    the id followed by the text of the head-split marker when it is cut; in
    both cases the second pair is selected.  The tail-split marker is
    removed, the entry has the span 1 and the offset of the header, and the
    ranges of the two records meet at that offset. *)
Theorem tail_split_selects_second_pair (pre post : list PartialRecord)
    (prev cur : PartialRecord) (seqs rest : list string)
    (complete : bool) (id text : string) (oh o0 l0 o1 l1 : Z) :
  lacks " " id → lacks "<" id → lacks " " text → lacks "^" text →
  natural (Two o0 l0 o1 l1) →
  sequences prev = seqs ++ [tail_split complete id oh] →
  sequences cur = head_split (Two o0 l0 o1 l1) text :: rest →
  let shortened :=
    {| min_range := min_range prev; max_range := oh; sequences := seqs |} in
  let resolved :=
    {| min_range := oh; max_range := max_range cur;
       sequences :=
         entry_len (if complete then id else id +:+ text) 1 oh o1 l1
           :: rest |} in
  reduce_body (pre ++ prev :: cur :: post) (Z.of_nat (length pre) + 1)
  = Ok (pre ++ shortened :: resolved :: post)
  ∧ reduce [prev; cur] = Ok [shortened; resolved].
Proof.
  intros Hid1 Hid2 Ht1 Ht2 (Ho0 & Hl0 & Ho1 & Hl1) Hprev Hcur shortened resolved.
  split.
  - by apply (reduce_body_tail_split pre post prev cur seqs rest complete
                id text oh o0 l0 o1 l1).
  - rewrite reduce_two.
    by apply (reduce_body_tail_split [] [] prev cur seqs rest complete
                id text oh o0 l0 o1 l1).
Qed.

(** The records of [cut_header] in chunks of 23 characters: the id [se]
    is cut, the head-split marker carries [q2] and the pairs (23, 11) and
    (31, 4). *)
Lemma tail_split_selects_second_pair_witness :
  reduce
    [ {| min_range := 0; max_range := 23;
         sequences := ["a" +:+ NL +:+ " 1 0 3 16"; "<_>se 20"] |};
      {| min_range := 23; max_range := 42;
         sequences := [">> <X> <Y> 23-31 11-4 ^q2^";
                       "c" +:+ NL +:+ " 1 36 39 2"] |} ]
  = Ok [ {| min_range := 0; max_range := 20;
            sequences := ["a" +:+ NL +:+ " 1 0 3 16"] |};
         {| min_range := 20; max_range := 42;
            sequences := ["seq2 1 20 31 4"; "c" +:+ NL +:+ " 1 36 39 2"] |} ].
Proof.
  apply (tail_split_selects_second_pair [] []
           {| min_range := 0; max_range := 23;
              sequences := ["a" +:+ NL +:+ " 1 0 3 16"; "<_>se 20"] |}
           {| min_range := 23; max_range := 42;
              sequences := [">> <X> <Y> 23-31 11-4 ^q2^";
                            "c" +:+ NL +:+ " 1 36 39 2"] |}
           ["a" +:+ NL +:+ " 1 0 3 16"] ["c" +:+ NL +:+ " 1 36 39 2"]
           false "se" "q2" 20 23 11 31 4);
    try reflexivity.
  cbn. lia.
Defined.

(** C4 does not hold as the specification states it.  On [cut_header] in
    chunks of 23 characters the tail-split marker is the one of a cut id,
    and the entry of [seq2] holds the second pair (31, 4), not the first
    pair (23, 11). *)
Lemma cut_id_selects_second_pair :
  for_each (map_worker (text_store cut_header) "key" 42 23 2) [] [0; 1]
  = Ok [ {| min_range := 0; max_range := 23;
            sequences := ["a" +:+ NL +:+ " 1 0 3 16"; tail_split false "se" 20] |};
         {| min_range := 23; max_range := 42;
            sequences := [head_split (Two 23 11 31 4) "q2";
                          "c" +:+ NL +:+ " 1 36 39 2"] |} ]
  ∧ map_reduce (text_store cut_header) "key" 42 (Some 23) None
    = Ok [ {| min_range := 0; max_range := 20;
              sequences := ["a" +:+ NL +:+ " 1 0 3 16"] |};
           {| min_range := 20; max_range := 42;
              sequences := [entry_len "seq2" 1 20 31 4;
                            "c" +:+ NL +:+ " 1 36 39 2"] |} ]
  ∧ entry_len "seq2" 1 20 31 4 ≠ entry_len "seq2" 1 20 23 11.
Proof. split; [|split]; [by vm_compute..|]. by vm_compute. Qed.

(** The body of the loop of [reduce] leaves the list as it is at a record
    whose first entry is no head-split marker. *)
Lemma reduce_body_passes (results : list PartialRecord) (i : Z)
    (r : PartialRecord) :
  0 ≤ i < Z.of_nat (length results) →
  results !! Z.to_nat i = Some r →
  no_head_split [r] = true →
  reduce_body results i = Ok results.
Proof.
  intros Hi Hr Hno. unfold reduce_body.
  rewrite (get_lookup_nat results i r) by (done || lia).
  destruct (get_in_range results (i - 1) ltac:(lia)) as (dict_prev & ->).
  cbn [mbind result_bind].
  destruct (i >? 0); [|reflexivity].
  destruct (sequences dict_prev); [reflexivity|].
  destruct (sequences r) as [|d0 rest] eqn:Hseq; [reflexivity|].
  unfold no_head_split in Hno. cbn [forallb] in Hno. rewrite Hseq in Hno.
  rewrite andb_true_r in Hno. apply negb_true_iff in Hno. by rewrite Hno.
Qed.

Lemma no_head_split_lookup (rs : list PartialRecord) (k : nat)
    (r : PartialRecord) :
  no_head_split rs = true → rs !! k = Some r → no_head_split [r] = true.
Proof.
  intros Hno Hr. unfold no_head_split in *. rewrite forallb_forall in Hno.
  cbn [forallb]. rewrite andb_true_r. apply Hno.
  apply list_elem_of_In. by eapply list_elem_of_lookup_2.
Qed.

(** [reduce] on a list in which one record only starts with a head-split
    marker: the iteration at that record is the only one that changes the
    list. *)
Lemma reduce_single_head_split (before after before' : list PartialRecord)
    (cur cur' : PartialRecord) :
  before ≠ [] → length before' = length before →
  no_head_split before = true → no_head_split after = true →
  reduce_body (before ++ cur :: after) (Z.of_nat (length before))
  = Ok (before' ++ cur' :: after) →
  reduce (before ++ cur :: after) = Ok (before' ++ cur' :: after).
Proof.
  intros Hne Hlen Hbefore Hafter Hbody. unfold reduce.
  set (i := Z.of_nat (length before)) in *.
  set (n := Z.of_nat (length (before ++ cur :: after))).
  assert (Hn : n = i + 1 + Z.of_nat (length after)).
  { subst n i. rewrite length_app. cbn [length]. lia. }
  assert (Hi : 0 < i) by (subst i; destruct before; [done|cbn; lia]).
  destruct (Z.gtb_spec n 1) as [_|?]; [|lia].
  rewrite (range_app 0 i n), (range_first i n) by lia.
  rewrite for_each_app.
  rewrite for_each_fixed.
  2:{ intros j Hj. apply elem_of_range in Hj.
      destruct (lookup_lt_is_Some_2 before (Z.to_nat j)) as (r & Hr);
        [subst i; lia|].
      apply (reduce_body_passes _ j r); [fold n; lia| |].
      - by rewrite lookup_app_l by (subst i; lia).
      - by apply (no_head_split_lookup before (Z.to_nat j)). }
  cbn [mbind result_bind for_each]. rewrite Hbody. cbn [mbind result_bind].
  apply for_each_fixed. intros j Hj. apply elem_of_range in Hj.
  destruct (lookup_lt_is_Some_2 after (Z.to_nat j - S (length before')))
    as (r & Hr); [subst i; lia|].
  apply (reduce_body_passes _ j r).
  - rewrite length_app. cbn [length]. lia.
  - rewrite lookup_app_r by (subst i; lia).
    replace (Z.to_nat j - length before')%nat
      with (S (Z.to_nat j - S (length before'))) by (subst i; lia).
    exact Hr.
  - by apply (no_head_split_lookup after
                (Z.to_nat j - S (length before'))).
Qed.

(** C3, as the code has it: when record [i] starts with a head-split
    marker and record [i-1] ends with the entry of a sequence, not with a
    tail-split marker, the iteration of the loop of [reduce] at [i] raises
    nothing: the marker becomes an entry of that sequence, with its id and
    the offset of its header, the first pair of the marker, and its span
    plus one.  So [reduce] returns on two such records, and on every list
    in which record [i] is the only one that starts with a head-split
    marker.  No error of its own is ever raised by [reduce]: a call that
    fails fails with the [IndexError] of an index or the [ValueError] of
    [int]. *)
Theorem head_split_after_entry_is_resolved (pre mid post : list PartialRecord)
    (prev cur : PartialRecord) (seqs rest : list string)
    (id text : string) (sp oh ob len : Z) (cs : Candidates) :
  lacks " " id → lacks "<" id → lacks " " text → natural cs →
  sp = Z.of_nat (length mid) + 1 →
  Forall (λ r, sequences r ≠ []) mid →
  sequences prev = seqs ++ [entry_len id sp oh ob len] →
  sequences cur = head_split cs text :: rest →
  let resolved :=
    set_sequences cur
      (entry_len id (sp + 1) oh (first_pair cs).1 (first_pair cs).2 :: rest) in
  let incremented :=
    replaced_in_last (" " +:+ Py.str sp +:+ " ")
      (" " +:+ Py.str (sp + 1) +:+ " ") in
  (∃ results,
     reduce_body (pre ++ mid ++ prev :: cur :: post) (Z.of_nat (length pre) + sp)
     = Ok results
     ∧ results !! (length pre + length mid + 1)%nat = Some resolved)
  ∧ (mid = [] → ∃ prev', reduce [prev; cur] = Ok [prev'; resolved])
  ∧ (no_head_split (pre ++ mid ++ [prev]) = true →
     no_head_split post = true →
     reduce (pre ++ mid ++ prev :: cur :: post)
     = Ok (pre ++ (incremented <$> mid ++ [prev]) ++ resolved :: post))
  ∧ (∀ results e, reduce results = Raise e → e = IndexError ∨ e = ValueError).
Proof.
  intros Hid1 Hid2 Ht Hcs Hsp Hmid Hprev Hcur resolved incremented.
  pose proof (reduce_body_entry pre mid post prev cur seqs rest id text
                sp oh ob len cs Hid1 Hid2 Ht Hcs Hsp Hmid Hprev Hcur)
    as Hbody.
  split; [|split; [|split]].
  - eexists. split; [exact Hbody|].
    rewrite lookup_app_r by lia.
    rewrite lookup_app_r by (rewrite length_fmap, length_app; cbn; lia).
    rewrite length_fmap, length_app. cbn [length].
    by replace (length pre + length mid + 1 - length pre
                - (length mid + 1))%nat with O by lia.
  - intros ->. cbn [length Z.of_nat] in Hsp. subst sp. eexists.
    rewrite reduce_two.
    by apply (reduce_body_entry [] [] [] prev cur seqs rest id text
                1 oh ob len cs).
  - intros Hbefore Hafter.
    replace (pre ++ mid ++ prev :: cur :: post)
      with ((pre ++ mid ++ [prev]) ++ cur :: post) in *
      by (by rewrite <- !app_assoc).
    replace (pre ++ (incremented <$> mid ++ [prev]) ++ resolved :: post)
      with ((pre ++ (incremented <$> mid ++ [prev])) ++ resolved :: post)
      by (by rewrite <- !app_assoc).
    apply reduce_single_head_split; [by destruct pre, mid| |done..|].
    + rewrite !length_app, length_fmap, length_app. reflexivity.
    + replace (Z.of_nat (length (pre ++ mid ++ [prev])))
        with (Z.of_nat (length pre) + sp)
        by (rewrite !length_app; cbn [length]; lia).
      rewrite Hbody. by rewrite <- !app_assoc.
  - intros results e. apply reduce_raises.
Qed.

(** The records of [three_sequences] in chunks of 12 characters. *)
Lemma head_split_after_entry_is_resolved_witness :
  ∃ prev',
    reduce
      [ {| min_range := 0; max_range := 12;
           sequences := ["a" +:+ NL +:+ " 1 0 3 2";
                         "b" +:+ NL +:+ " 1 6 9 3"] |};
        {| min_range := 12; max_range := 20;
           sequences := [">> <X> <Y> 12 1 ^C" +:+ NL +:+ "^";
                         "c" +:+ NL +:+ " 1 14 17 2"] |} ]
    = Ok [ prev';
           {| min_range := 12; max_range := 20;
              sequences := ["b" +:+ NL +:+ " 2 6 12 1";
                            "c" +:+ NL +:+ " 1 14 17 2"] |} ].
Proof.
  apply (head_split_after_entry_is_resolved [] [] []
           {| min_range := 0; max_range := 12;
              sequences := ["a" +:+ NL +:+ " 1 0 3 2";
                            "b" +:+ NL +:+ " 1 6 9 3"] |}
           {| min_range := 12; max_range := 20;
              sequences := [">> <X> <Y> 12 1 ^C" +:+ NL +:+ "^";
                            "c" +:+ NL +:+ " 1 14 17 2"] |}
           ["a" +:+ NL +:+ " 1 0 3 2"] ["c" +:+ NL +:+ " 1 14 17 2"]
           ("b" +:+ NL) ("C" +:+ NL) 1 6 9 3 (One 12 1));
    try reflexivity.
  - cbn. lia.
  - constructor.
Defined.

(** C3 does not hold as the specification states it.  On the records of
    [three_sequences] in chunks of 12 characters the second record starts
    with a head-split marker, the first one ends with an entry that is no
    tail-split marker, and [reduce] returns an index. *)
Lemma entry_before_head_split_is_accepted :
  let results :=
    [ {| min_range := 0; max_range := 12;
         sequences := ["a" +:+ NL +:+ " 1 0 3 2"; "b" +:+ NL +:+ " 1 6 9 3"] |};
      {| min_range := 12; max_range := 20;
         sequences := [">> <X> <Y> 12 1 ^C" +:+ NL +:+ "^";
                       "c" +:+ NL +:+ " 1 14 17 2"] |} ] in
  for_each (map_worker (text_store three_sequences) "key" 20 12 2) [] [0; 1]
  = Ok results
  ∧ Py.contains ">>" (">> <X> <Y> 12 1 ^C" +:+ NL +:+ "^") = true
  ∧ Py.contains "<->" ("b" +:+ NL +:+ " 1 6 9 3") = false
  ∧ Py.contains "<_>" ("b" +:+ NL +:+ " 1 6 9 3") = false
  ∧ reduce results
    = Ok [ {| min_range := 0; max_range := 12;
              sequences := ["a" +:+ NL +:+ " 1 0 3 2";
                            "b" +:+ NL +:+ " 2 6 9 3"] |};
           {| min_range := 12; max_range := 20;
              sequences := ["b" +:+ NL +:+ " 2 6 12 1";
                            "c" +:+ NL +:+ " 1 14 17 2"] |} ]
  ∧ ¬ (∃ e, reduce results = Raise e).
Proof.
  cbv zeta. repeat split; try by vm_compute.
  intros [e He]. vm_compute in He. discriminate He.
Qed.

(** ** Span counts *)

(** C5, as the code has it: when record [i] starts with a head-split
    marker and record [i-1] ends with the entry of a sequence with the span
    count [sp], [reduce] replaces [" sp "] by [" sp+1 "] in the last entry
    of each of the [sp] records before [i], and the entry that the marker
    becomes has the span count [sp + 1].  On an entry [id sp oh ob len]
    whose offset of the bases is not [sp] the replacement adds one to the
    span count and changes nothing else. *)
Theorem span_count_is_incremented (pre mid post : list PartialRecord)
    (prev cur : PartialRecord) (seqs rest : list string)
    (id text : string) (sp oh ob len : Z) (cs : Candidates) :
  lacks " " id → lacks "<" id → lacks " " text → natural cs →
  sp = Z.of_nat (length mid) + 1 →
  Forall (λ r, sequences r ≠ []) mid →
  sequences prev = seqs ++ [entry_len id sp oh ob len] →
  sequences cur = head_split cs text :: rest →
  let incremented :=
    replaced_in_last (" " +:+ Py.str sp +:+ " ")
      (" " +:+ Py.str (sp + 1) +:+ " ") in
  reduce_body (pre ++ mid ++ prev :: cur :: post) (Z.of_nat (length pre) + sp)
  = Ok (pre ++ (incremented <$> mid ++ [prev])
          ++ set_sequences cur
               (entry_len id (sp + 1) oh (first_pair cs).1 (first_pair cs).2
                  :: rest)
          :: post)
  ∧ length (mid ++ [prev]) = Z.to_nat sp
  ∧ (∀ r l id' oh' ob' len',
       sequences r = l ++ [entry_len id' sp oh' ob' len'] →
       lacks " " id' → ob' ≠ sp →
       sequences (incremented r) = l ++ [entry_len id' (sp + 1) oh' ob' len']).
Proof.
  intros Hid1 Hid2 Ht Hcs Hsp Hmid Hprev Hcur incremented.
  split; [|split].
  - by apply (reduce_body_entry pre mid post prev cur seqs rest id text
                sp oh ob len cs).
  - rewrite length_app. cbn [length]. lia.
  - intros r l id' oh' ob' len' Hr Hid' Hob. subst incremented.
    unfold replaced_in_last. cbn [sequences set_sequences].
    by rewrite Hr, map_last_snoc, replace_span.
Qed.

Lemma span_count_is_incremented_witness :
  reduce_body
    [ {| min_range := 0; max_range := 12;
         sequences := ["a" +:+ NL +:+ " 1 0 3 2"; "b" +:+ NL +:+ " 1 6 9 3"] |};
      {| min_range := 12; max_range := 20;
         sequences := [">> <X> <Y> 12 1 ^C" +:+ NL +:+ "^";
                       "c" +:+ NL +:+ " 1 14 17 2"] |} ] 1
  = Ok [ {| min_range := 0; max_range := 12;
            sequences := ["a" +:+ NL +:+ " 1 0 3 2";
                          "b" +:+ NL +:+ " 2 6 9 3"] |};
         {| min_range := 12; max_range := 20;
            sequences := ["b" +:+ NL +:+ " 2 6 12 1";
                          "c" +:+ NL +:+ " 1 14 17 2"] |} ].
Proof.
  apply (span_count_is_incremented [] [] []
           {| min_range := 0; max_range := 12;
              sequences := ["a" +:+ NL +:+ " 1 0 3 2";
                            "b" +:+ NL +:+ " 1 6 9 3"] |}
           {| min_range := 12; max_range := 20;
              sequences := [">> <X> <Y> 12 1 ^C" +:+ NL +:+ "^";
                            "c" +:+ NL +:+ " 1 14 17 2"] |}
           ["a" +:+ NL +:+ " 1 0 3 2"] ["c" +:+ NL +:+ " 1 14 17 2"]
           ("b" +:+ NL) ("C" +:+ NL) 1 6 9 3 (One 12 1));
    try reflexivity.
  - cbn. lia.
  - constructor.
Defined.

(** C5 does not hold as the specification states it.  On [cut_header] in
    chunks of 23 characters the first record ends with the tail-split
    marker of a cut
    id.  [reduce] increments no span count: the last entry of the first
    record keeps the span 1, and the entry of [seq2] gets the span 1,
    although the characters 20-35 of [seq2] lie in two chunks. *)
Lemma cut_id_has_span_one :
  for_each (map_worker (text_store cut_header) "key" 42 23 2) [] [0; 1]
  = Ok [ {| min_range := 0; max_range := 23;
            sequences := [entry_len ("a" +:+ NL) 1 0 3 16;
                          tail_split false "se" 20] |};
         {| min_range := 23; max_range := 42;
            sequences := [head_split (Two 23 11 31 4) "q2";
                          entry_len ("c" +:+ NL) 1 36 39 2] |} ]
  ∧ map_reduce (text_store cut_header) "key" 42 (Some 23) None
    = Ok [ {| min_range := 0; max_range := 20;
              sequences := [entry_len ("a" +:+ NL) 1 0 3 16] |};
           {| min_range := 20; max_range := 42;
              sequences := [entry_len "seq2" 1 20 31 4;
                            entry_len ("c" +:+ NL) 1 36 39 2] |} ]
  ∧ chunks_spanned 23 20 35 = 2
  ∧ entry_len "seq2" 1 20 31 4 ≠ entry_len "seq2" 2 20 31 4.
Proof. repeat split; by vm_compute. Qed.

(** ** The matches of the regular expressions in a text of records *)

Lemma len_app (s t : string) : Py.len (s +:+ t) = Py.len s + Py.len t.
Proof. unfold Py.len. rewrite str_length_app. lia. Qed.

Lemma len_cons (c : ascii) (s : string) : Py.len (String c s) = 1 + Py.len s.
Proof. unfold Py.len. cbn [String.length]. lia. Qed.

Lemma len_nonneg (s : string) : 0 ≤ Py.len s.
Proof. unfold Py.len. lia. Qed.

Lemma len_render (r : Fasta) :
  Py.len (render r) = Py.len (header r) + Py.len (body r) + 3.
Proof.
  unfold render, NL. rewrite !len_app, !len_cons.
  change (Py.len "") with 0. lia.
Qed.

Lemma lacks_cons (c a : ascii) (s : string) :
  lacks c (String a s) ↔ Ascii.eqb a c = false ∧ lacks c s.
Proof.
  unfold lacks. cbn [Py.has_char]. split.
  - by intros [? ?]%orb_false_elim.
  - intros [-> ->]. reflexivity.
Qed.

Lemma find_nl_line (h t : string) :
  lacks Py.nl h → Re.find_nl (h +:+ NL +:+ t) = Some (String.length h).
Proof.
  induction h as [|c h IH]; intros Hh.
  - reflexivity.
  - apply lacks_cons in Hh as [Hc Hh].
    change (String c h +:+ NL +:+ t) with (String c (h +:+ NL +:+ t)).
    cbn [Re.find_nl String.length]. rewrite Hc, (IH Hh). reflexivity.
Qed.

Lemma header_line_skip (pos : Z) (w t : string) :
  Re.header_line pos (String.length w) (w +:+ t)
  = Re.header_line (pos + Py.len w) O t.
Proof.
  revert pos. induction w as [|c w IH]; intros pos.
  - change (Py.len "") with 0. rewrite Z.add_0_r. by destruct t.
  - change (String c w +:+ t) with (String c (w +:+ t)).
    cbn [Re.header_line String.length]. rewrite IH, len_cons.
    f_equal. lia.
Qed.

(** A text without [>] has no match. *)
Lemma header_line_pass (pos : Z) (b t : string) :
  lacks ">" b →
  Re.header_line pos O (b +:+ t) = Re.header_line (pos + Py.len b) O t.
Proof.
  revert pos. induction b as [|c b IH]; intros pos Hb.
  - change (Py.len "") with 0. by rewrite Z.add_0_r.
  - apply lacks_cons in Hb as [Hc Hb].
    change (String c b +:+ t) with (String c (b +:+ t)).
    cbn [Re.header_line]. unfold Py.gt. rewrite Hc, (IH _ Hb), len_cons.
    f_equal. lia.
Qed.

(** The header line of a record is a match, and its body holds none. *)
Lemma header_line_render (pos : Z) (r : Fasta) (t : string) :
  well_formed r →
  Re.header_line pos O (render r +:+ t)
  = {| m_start := pos; m_end := pos + Py.len (header r) + 2 |}
      :: Re.header_line (pos + Py.len (render r)) O t.
Proof.
  intros (Hne & Hnl & Hgt). rewrite len_render. unfold render.
  change ((">" +:+ ?s) +:+ t) with (String ">" (s +:+ t)).
  cbn [Re.header_line]. change (Ascii.eqb ">" Py.gt) with true. cbv iota.
  rewrite !str_app_assoc, (find_nl_line _ _ Hnl).
  destruct (header r) as [|c h] eqn:Hh; [done|].
  cbn [String.length]. apply (f_equal2 cons); [reflexivity|].
  replace (S (S (String.length h)))
    with (String.length (String c h +:+ NL))
    by (rewrite str_length_app; cbn; lia).
  rewrite <- (str_app_assoc (String c h) NL).
  rewrite header_line_skip.
  rewrite <- (str_app_assoc (body r) NL).
  rewrite header_line_pass by (unfold NL; lacks).
  f_equal. rewrite !len_app, len_cons. unfold NL. rewrite !len_cons.
  change (Py.len "") with 0. lia.
Qed.

Lemma header_line_fasta (pos : Z) (l : list Fasta) :
  Forall well_formed l →
  Re.header_line pos O (fasta_text l) = header_matches pos l.
Proof.
  revert pos. induction l as [|r l IH]; intros pos Hl; [reflexivity|].
  apply Forall_cons in Hl as [Hr Hl].
  cbn [fasta_text header_matches].
  by rewrite (header_line_render pos r _ Hr), (IH _ Hl).
Qed.

(** A text of one line has no match of [\n>]. *)
Lemma newline_gt_line (pos : Z) (h t : string) :
  lacks Py.nl h →
  Re.newline_gt pos (h +:+ t) = Re.newline_gt (pos + Py.len h) t.
Proof.
  revert pos. induction h as [|c h IH]; intros pos Hh.
  - change (Py.len "") with 0. by rewrite Z.add_0_r.
  - apply lacks_cons in Hh as [Hc Hh].
    change (String c h +:+ t) with (String c (h +:+ t)).
    cbn [Re.newline_gt]. rewrite Hc. cbn [andb].
    rewrite (IH _ Hh), len_cons. f_equal. lia.
Qed.

Lemma prefix_gt_lacks (b t : string) :
  lacks ">" b → String.prefix ">" (b +:+ NL +:+ t) = false.
Proof.
  intros Hb. destruct b as [|c b].
  - reflexivity.
  - apply lacks_cons in Hb as [Hc _].
    change (String c b +:+ NL +:+ t) with (String c (b +:+ NL +:+ t)).
    rewrite prefix_cons, Hc. reflexivity.
Qed.

(** In a body, only the newline that ends it can have a [>] after it. *)
Lemma newline_gt_body (pos : Z) (b t : string) :
  lacks ">" b →
  Re.newline_gt pos (b +:+ NL +:+ t)
  = (if String.prefix ">" t
     then [{| m_start := pos + Py.len b; m_end := pos + Py.len b + 2 |}]
     else [])
      ++ Re.newline_gt (pos + Py.len b + 1) t.
Proof.
  revert pos. induction b as [|c b IH]; intros pos Hb.
  - change (Py.len "") with 0. rewrite !Z.add_0_r.
    change ("" +:+ NL +:+ t) with (String Py.nl t).
    cbn [Re.newline_gt]. rewrite Ascii.eqb_refl. cbn [andb].
    by destruct (String.prefix ">" t).
  - pose proof Hb as Hb'. apply lacks_cons in Hb' as [Hc Hb'].
    change (String c b +:+ NL +:+ t) with (String c (b +:+ NL +:+ t)).
    cbn [Re.newline_gt].
    rewrite (prefix_gt_lacks b t Hb'), andb_false_r.
    rewrite (IH _ Hb'), len_cons.
    replace (pos + 1 + Py.len b) with (pos + (1 + Py.len b)) by lia.
    reflexivity.
Qed.

Lemma prefix_nil (s : string) : String.prefix "" s = true.
Proof. by destruct s. Qed.

Lemma prefix_gt_fasta (l : list Fasta) :
  String.prefix ">" (fasta_text l) = match l with [] => false | _ => true end.
Proof.
  destruct l as [|r l]; [reflexivity|]. cbn [fasta_text]. unfold render.
  change ((">" +:+ ?s) +:+ ?t) with (String ">" (s +:+ t)).
  by rewrite prefix_cons, prefix_nil.
Qed.

Lemma newline_gt_render (pos : Z) (r : Fasta) (l : list Fasta) :
  well_formed r →
  Re.newline_gt pos (render r +:+ fasta_text l)
  = match l with
    | [] => []
    | _ => [{| m_start := pos + Py.len (render r) - 1;
               m_end := pos + Py.len (render r) + 1 |}]
    end ++ Re.newline_gt (pos + Py.len (render r)) (fasta_text l).
Proof.
  intros (Hne & Hnl & Hgt). rewrite len_render. unfold render.
  change ((">" +:+ ?s) +:+ ?t) with (String ">" (s +:+ t)).
  cbn [Re.newline_gt]. change (Ascii.eqb ">" Py.nl) with false. cbn [andb].
  rewrite !str_app_assoc, (newline_gt_line _ _ _ Hnl).
  change (NL +:+ ?s) with (String Py.nl s) at 1.
  cbn [Re.newline_gt]. rewrite (prefix_gt_lacks _ _ Hgt), andb_false_r.
  rewrite (newline_gt_body _ _ _ Hgt), prefix_gt_fasta.
  replace (pos + 1 + Py.len (header r) + 1 + Py.len (body r) + 1)
    with (pos + (Py.len (header r) + Py.len (body r) + 3)) by lia.
  replace (pos + 1 + Py.len (header r) + 1 + Py.len (body r) + 2)
    with (pos + (Py.len (header r) + Py.len (body r) + 3) + 1) by lia.
  replace (pos + 1 + Py.len (header r) + 1 + Py.len (body r))
    with (pos + (Py.len (header r) + Py.len (body r) + 3) - 1) by lia.
  by destruct l.
Qed.

Lemma newline_gt_fasta (pos : Z) (r : Fasta) (l : list Fasta) :
  Forall well_formed (r :: l) →
  Re.newline_gt pos (fasta_text (r :: l))
  = newline_matches (pos + Py.len (render r)) l.
Proof.
  revert pos r. induction l as [|r' l IH]; intros pos r Hl;
    apply Forall_cons in Hl as [Hr Hl]; cbn [fasta_text].
  - exact (newline_gt_render pos r [] Hr).
  - pose proof (newline_gt_render pos r (r' :: l) Hr) as Hrender.
    cbn [fasta_text] in IH, Hrender. rewrite Hrender, (IH _ _ Hl).
    reflexivity.
Qed.

(** ** Slices and bases *)

Lemma substring_middle (a m z : string) :
  String.substring (String.length a) (String.length m) (a +:+ m +:+ z) = m.
Proof.
  induction a as [|c a IH]; [|exact IH].
  change ("" +:+ m +:+ z) with (m +:+ z). cbn [String.length].
  induction m as [|c m IHm]; [by destruct z|].
  change (String c m +:+ z) with (String c (m +:+ z)).
  cbn [String.length String.substring]. by rewrite IHm.
Qed.

(** [data[i:j]] for the offsets of a part [m] of [data]. *)
Lemma slice_middle (a m z : string) (i j : Z) :
  i = Py.len a → j = Py.len a + Py.len m →
  Py.slice (a +:+ m +:+ z) i j = m.
Proof.
  intros -> ->. unfold Py.slice, Py.clamp. rewrite !len_app.
  pose proof (len_nonneg a). pose proof (len_nonneg m).
  pose proof (len_nonneg z).
  destruct (Z.ltb_spec (Py.len a) 0); [lia|].
  destruct (Z.ltb_spec (Py.len a + Py.len m) 0); [lia|].
  rewrite !Z.min_l by lia.
  replace (Py.len a + Py.len m - Py.len a) with (Py.len m) by lia.
  unfold Py.len. rewrite !Nat2Z.id. apply substring_middle.
Qed.

(** The bases of a text are what [replace('\n', '')] leaves of it. *)
Lemma len_replace_newlines (s : string) :
  Py.len (Py.replace NL "" s) = count_bases s.
Proof.
  unfold NL. rewrite replace_nonempty.
  induction s as [|c s IH]; [reflexivity|].
  cbn [Py.replace_scan count_bases]. rewrite prefix_cons, prefix_nil, andb_true_r.
  cbn [String.length Nat.pred].
  destruct (Ascii.eqb c Py.nl).
  - change ("" +:+ ?x) with x. rewrite IH. lia.
  - rewrite len_cons, IH. lia.
Qed.

Lemma count_bases_app (s t : string) :
  count_bases (s +:+ t) = count_bases s + count_bases t.
Proof.
  induction s as [|c s IH]; [reflexivity|].
  change (String c s +:+ t) with (String c (s +:+ t)).
  cbn [count_bases]. rewrite IH. lia.
Qed.

Lemma count_bases_body (b : string) : count_bases (b +:+ NL) = count_bases b.
Proof. rewrite count_bases_app. change (count_bases NL) with 0. lia. Qed.

(** [__get_length] gives the last entry the number of bases of the body
    that lies between the two offsets. *)
Lemma get_length_body (c : list string) (e : string) (a b z : string)
    (i j : Z) :
  i = Py.len a → j = Py.len a + Py.len (b +:+ NL) →
  __get_length 0 (c ++ [e]) (a +:+ (b +:+ NL) +:+ z) i j
  = Ok (c ++ [e +:+ " " +:+ Py.str (count_bases b)]).
Proof.
  intros Hi Hj. unfold __get_length. rewrite !Z.sub_0_r.
  rewrite (slice_middle a (b +:+ NL) z i j Hi Hj).
  rewrite len_replace_newlines, count_bases_body, last_snoc.
  cbn [mbind result_bind]. by rewrite set_last_snoc.
Qed.

(** The entry of a header line. *)
Lemma sequence_entry_header (a z : string) (r : Fasta) (m : Match)
    (start end_ : Z) :
  m_start m = Py.len a → m_end m = Py.len a + Py.len (header r) + 2 →
  sequence_entry (a +:+ (">" +:+ header r +:+ NL) +:+ z) m start end_
  = entry (name_of r) 1 start end_.
Proof.
  intros Hs He. unfold sequence_entry, group.
  rewrite (slice_middle a _ z).
  - unfold entry, name_of. streq.
  - done.
  - rewrite He, !len_app. unfold NL. rewrite !len_cons.
    change (Py.len "") with 0. lia.
Qed.

(** ** [map] on a text of whole records *)

(** Closes equations between lengths of concatenations. *)
Ltac lens :=
  rewrite ?len_render; unfold render, NL; rewrite ?len_app, ?len_cons;
  change (Py.len "") with 0; lia.

(** The loop over the headers that follow the record [r]: when it ends,
    [__get_length] up to the end of the text completes the index. *)
Lemma map_loop (l : list Fasta) :
  ∀ (before : string) (r : Fasta) (c : list string) (data : string)
    (p off : Z),
    Forall well_formed (r :: l) →
    data = before +:+ render r +:+ fasta_text l →
    p = Py.len before + Py.len (header r) + 2 →
    off = Py.len before + Py.len (render r) →
    ∃ st,
      for_each (map_head 0 0 data)
        {| first_sequence := false; prev := p;
           content := c ++ [entry (name_of r) 1 (Py.len before) p] |}
        (header_matches off l) = Ok st
      ∧ __get_length 0 (content st) data (prev st) (Py.len data)
        = Ok (c ++ index_of (Py.len before) (r :: l)).
Proof.
  induction l as [|r' l IH]; intros before r c data p off Hwf Hdata Hp Hoff.
  - eexists. split; [reflexivity|]. cbn [content prev index_of].
    subst data. cbn [fasta_text]. unfold render at 1.
    replace (before +:+ (">" +:+ header r +:+ NL +:+ body r +:+ NL) +:+ "")
      with ((before +:+ ">" +:+ header r +:+ NL) +:+ (body r +:+ NL) +:+ "")
      by streq.
    rewrite get_length_body.
    + by rewrite Hp.
    + rewrite Hp. lens.
    + lens.
  - pose proof Hwf as Hwf'. apply Forall_cons in Hwf' as [Hr Hwf'].
    cbn [header_matches for_each].
    assert (Hlen := len_render r).
    pose proof (len_nonneg before). pose proof (len_nonneg (header r)).
    pose proof (len_nonneg (body r)).
    assert (Hstep :
      map_head 0 0 data
        {| first_sequence := false; prev := p;
           content := c ++ [entry (name_of r) 1 (Py.len before) p] |}
        {| m_start := off; m_end := off + Py.len (header r') + 2 |}
      = Ok {| first_sequence := false;
              prev := off + Py.len (header r') + 2;
              content :=
                (c ++ [entry_len (name_of r) 1 (Py.len before) p
                         (count_bases (body r))])
                  ++ [entry (name_of r') 1 off (off + Py.len (header r') + 2)] |}).
    { unfold map_head.
      cbn [first_sequence prev content m_start m_end]. rewrite !Z.add_0_l.
      destruct (Z.eqb_spec p off) as [Heq|_]; [lia|].
      destruct (Z.eqb_spec p (-1)) as [Heq|_]; [lia|].
      cbn [negb].
      assert (Hget :
        __get_length 0 (c ++ [entry (name_of r) 1 (Py.len before) p]) data p off
        = Ok (c ++ [entry_len (name_of r) 1 (Py.len before) p
                      (count_bases (body r))])).
      { subst data. unfold render at 1.
        replace (before +:+ (">" +:+ header r +:+ NL +:+ body r +:+ NL)
                   +:+ fasta_text (r' :: l))
          with ((before +:+ ">" +:+ header r +:+ NL) +:+ (body r +:+ NL)
                  +:+ fasta_text (r' :: l)) by streq.
        apply get_length_body.
        - rewrite Hp. lens.
        - rewrite Hoff. lens. }
      rewrite Hget. cbn [mbind result_bind].
      assert (Hentry :
        sequence_entry data
          {| m_start := off; m_end := off + Py.len (header r') + 2 |}
          off (off + Py.len (header r') + 2)
        = entry (name_of r') 1 off (off + Py.len (header r') + 2)).
      { subst data. cbn [fasta_text]. unfold render at 2.
        replace (before +:+ render r
                   +:+ (">" +:+ header r' +:+ NL +:+ body r' +:+ NL)
                   +:+ fasta_text l)
          with ((before +:+ render r) +:+ (">" +:+ header r' +:+ NL)
                  +:+ (body r' +:+ NL +:+ fasta_text l)) by streq.
        apply sequence_entry_header; cbn [m_start m_end];
          rewrite ?Hoff; lens. }
      rewrite Hentry. reflexivity. }
    rewrite Hstep. cbn [mbind result_bind].
    destruct (IH (before +:+ render r) r'
                (c ++ [entry_len (name_of r) 1 (Py.len before) p
                         (count_bases (body r))])
                data (off + Py.len (header r') + 2)
                (off + Py.len (render r')) Hwf')
      as (st & Hloop & Hfinal).
    + subst data. cbn [fasta_text]. streq.
    + rewrite len_app. lia.
    + rewrite len_app. lia.
    + exists st. rewrite len_app in Hloop, Hfinal. rewrite <- Hoff in Hloop, Hfinal.
      split; [exact Hloop|]. rewrite Hfinal, <- app_assoc.
      cbn [index_of app]. rewrite <- Hp, <- Hoff. reflexivity.
Qed.

Lemma last_cons_Ok {A} (x y : A) (l : list A) :
  Py.last l = Ok y → Py.last (x :: l) = Ok y.
Proof.
  unfold Py.last. cbn [rev]. destruct (rev l) as [|a l']; [done|].
  by intros [= ->].
Qed.

(** The last match of [\n>] is one character before the last header. *)
Lemma last_matches (l : list Fasta) (off : Z) :
  l ≠ [] →
  ∃ mh mn, Py.last (header_matches off l) = Ok mh
           ∧ Py.last (newline_matches off l) = Ok mn
           ∧ m_start mn + 1 = m_start mh.
Proof.
  revert off. induction l as [|r l IH]; intros off Hne; [done|].
  destruct l as [|r' l].
  - eexists _, _. repeat split; [reflexivity..|]. cbn. lia.
  - destruct (IH (off + Py.len (render r)) ltac:(done))
      as (mh & mn & Hh & Hn & Hs).
    exists mh, mn. repeat split; [| |done].
    + cbn [header_matches] in Hh |- *. by apply last_cons_Ok.
    + cbn [newline_matches] in Hn |- *. by apply last_cons_Ok.
Qed.

Lemma header_lines_line (h t : string) :
  lacks Py.nl h →
  header_lines_from false (h +:+ t) = header_lines_from false t.
Proof.
  induction h as [|c h IH]; intros Hh; [reflexivity|].
  apply lacks_cons in Hh as [Hc Hh].
  change (String c h +:+ t) with (String c (h +:+ t)).
  cbn [header_lines_from andb]. rewrite Hc. by apply IH.
Qed.

Lemma header_lines_body (f : bool) (b t : string) :
  lacks ">" b →
  header_lines_from f (b +:+ NL +:+ t) = header_lines_from true t.
Proof.
  revert f. induction b as [|c b IH]; intros f Hb.
  - change ("" +:+ NL +:+ t) with (String Py.nl t).
    cbn [header_lines_from]. change (Ascii.eqb Py.nl Py.gt) with false.
    rewrite andb_false_r, Ascii.eqb_refl. reflexivity.
  - apply lacks_cons in Hb as [Hc Hb].
    change (String c b +:+ NL +:+ t) with (String c (b +:+ NL +:+ t)).
    cbn [header_lines_from]. unfold Py.gt. rewrite Hc, andb_false_r.
    by apply IH.
Qed.

(** A text of well-formed records has one header line for each record. *)
Lemma header_lines_fasta (l : list Fasta) :
  Forall well_formed l → header_lines (fasta_text l) = length l.
Proof.
  unfold header_lines. induction l as [|r l IH]; intros Hl; [reflexivity|].
  apply Forall_cons in Hl as [(Hne & Hnl & Hgt) Hl].
  cbn [fasta_text length]. unfold render.
  change ((">" +:+ ?s) +:+ ?t) with (String ">" (s +:+ t)).
  cbn [header_lines_from]. change (Ascii.eqb ">" Py.gt) with true.
  change (Ascii.eqb ">" Py.nl) with false. cbn [andb].
  rewrite !str_app_assoc, (header_lines_line _ _ Hnl).
  change (NL +:+ ?s) with (String Py.nl s) at 1.
  cbn [header_lines_from andb]. rewrite Ascii.eqb_refl.
  rewrite (header_lines_body _ _ _ Hgt), (IH Hl). reflexivity.
Qed.

Lemma length_index_of (off : Z) (l : list Fasta) :
  length (index_of off l) = length l.
Proof.
  revert off. induction l as [|r l IH]; intros off; [reflexivity|].
  cbn [index_of length]. by rewrite IH.
Qed.

(** The loop over all the headers of a text of records. *)
Lemma map_loop_whole (r : Fasta) (l : list Fasta) :
  Forall well_formed (r :: l) →
  ∃ st,
    for_each (map_head 0 0 (fasta_text (r :: l)))
      {| first_sequence := true; prev := -1; content := [] |}
      (header_matches 0 (r :: l)) = Ok st
    ∧ __get_length 0 (content st) (fasta_text (r :: l)) (prev st)
        (Py.len (fasta_text (r :: l)))
      = Ok (index_of 0 (r :: l)).
Proof.
  intros Hwf. set (text := fasta_text (r :: l)).
  assert (Hfirst :
    map_head 0 0 text {| first_sequence := true; prev := -1; content := [] |}
      {| m_start := 0; m_end := 0 + Py.len (header r) + 2 |}
    = Ok {| first_sequence := false; prev := Py.len (header r) + 2;
            content := [] ++ [entry (name_of r) 1 0 (Py.len (header r) + 2)] |}).
  { unfold map_head. cbn [first_sequence prev content m_start m_end].
    rewrite !Z.add_0_l. change (0 >? 0) with false. cbn [andb negb Z.eqb].
    cbn [mbind result_bind app].
    assert (Hentry :
      sequence_entry text
        {| m_start := 0; m_end := Py.len (header r) + 2 |}
        0 (Py.len (header r) + 2)
      = entry (name_of r) 1 0 (Py.len (header r) + 2)).
    { subst text. cbn [fasta_text]. unfold render at 1.
      replace ((">" +:+ header r +:+ NL +:+ body r +:+ NL) +:+ fasta_text l)
        with ("" +:+ (">" +:+ header r +:+ NL)
                +:+ (body r +:+ NL +:+ fasta_text l))
        by streq.
      apply sequence_entry_header; reflexivity. }
    rewrite Hentry. reflexivity. }
  cbn [header_matches for_each]. rewrite Hfirst. cbn [mbind result_bind].
  destruct (map_loop l "" r [] text (Py.len (header r) + 2)
              (0 + Py.len (render r)) Hwf)
    as (st & Hloop & Hfinal); [reflexivity..|].
  change (Py.len "") with 0 in Hloop, Hfinal. by exists st.
Qed.

(** With a last match of [\n>] right before the last header, no header is
    cut at the end of the chunk. *)
Lemma map_tail_whole (mx : Z) (data : string) (ini heads : list Match)
    (mn mh : Match) (st : LoopState) :
  Py.last ini = Ok mn → Py.last heads = Ok mh →
  m_start mn + 1 = m_start mh →
  map_tail 0 mx data ini heads st
  = __get_length 0 (content st) data (prev st) mx.
Proof.
  intros Hn Hh Hs. unfold map_tail. rewrite Hn, Hh. cbn [mbind result_bind].
  destruct (Z.gtb_spec (m_start mn + 1) (m_start mh)) as [Hgt|_]; [lia|].
  destruct heads as [|m heads]; [done|]. cbn [length].
  by destruct (Z.eqb_spec (Z.of_nat (S (length heads))) 0) as [Heq|_].
Qed.

(** For a text of at least two records, each a header line [>] with a
    text that is not empty, and a body whose lines end with a newline and
    hold no [>], scanned as a single chunk, [map] returns one entry for each
    header line of the text; the entry of a record has the span 1, the
    offsets of its header and of its bases, and the number of the characters
    of its body that are not newlines. *)
Lemma map_single_chunk (r1 r2 : Fasta) (l : list Fasta) (key : string)
    (chunk_size : Z) :
  Forall well_formed (r1 :: r2 :: l) →
  let text := fasta_text (r1 :: r2 :: l) in
  map text 0 key chunk_size (Py.len text) 1
  = Ok {| min_range := 0; max_range := Py.len text;
          sequences := index_of 0 (r1 :: r2 :: l) |}
  ∧ length (index_of 0 (r1 :: r2 :: l)) = header_lines text.
Proof.
  intros Hwf text. split.
  2:{ subst text. by rewrite length_index_of, header_lines_fasta. }
  unfold map. change (0 * chunk_size) with 0.
  change (0 =? 1 - 1) with true. cbv iota.
  assert (Hini : Re.newline_gt 0 text
                 = newline_matches (0 + Py.len (render r1)) (r2 :: l))
    by (by apply newline_gt_fasta).
  assert (Hheads : Re.header_line 0 0 text = header_matches 0 (r1 :: r2 :: l))
    by (by apply header_line_fasta).
  rewrite Hini, Hheads.
  destruct (last_matches (r2 :: l) (0 + Py.len (render r1)) ltac:(done))
    as (mh & mn & Hh & Hn & Hs).
  destruct (map_loop_whole r1 (r2 :: l) Hwf) as (st & Hloop & Hfinal).
  fold text in Hloop, Hfinal.
  destruct (newline_matches (0 + Py.len (render r1)) (r2 :: l))
    as [|m ms] eqn:Hms; [done|].
  cbn [mbind result_bind]. rewrite Hloop. cbn [mbind result_bind].
  assert (Hh' : Py.last (header_matches 0 (r1 :: r2 :: l)) = Ok mh)
    by exact (last_cons_Ok _ _ _ Hh).
  rewrite (map_tail_whole (Py.len text) text (m :: ms) _ mn mh st Hn Hh' Hs).
  rewrite Hfinal. reflexivity.
Qed.

Lemma map_single_chunk_witness :
  map (unlines [">s1 one"; "AAAA"; "AA"; ">s2"; "CCCC"]) 0 "key" 25 25 1
  = Ok {| min_range := 0; max_range := 25;
          sequences := ["s1 1 0 8 6"; "s2" +:+ NL +:+ " 1 16 20 4"] |}.
Proof.
  assert (Hwf : Forall well_formed
                  [ {| header := "s1 one"; body := "AAAA" +:+ NL +:+ "AA" |};
                    {| header := "s2"; body := "CCCC" |} ])
    by (repeat constructor; (discriminate || reflexivity)).
  exact (proj1 (map_single_chunk _ _ [] "key" 25 Hwf)).
Defined.

(** C6: scanned as a single chunk, a text does not always get one entry
    for each of its header lines.  A text with one header line gets none:
    [map] raises an [IndexError], the list [ini_heads] being empty when its
    last element is read (line 89).  In [">a\n>b\nCC\n"] the header line of
    [b] follows the header line of [a] directly: [prev] is [start] when it is
    met (line 80), so [b] gets no entry, and the entry of [a] has the offset
    3, where the header line of [b] starts, for its bases, and the 2 bases
    of [b]. *)
Theorem single_chunk_misses_header_lines :
  header_lines (unlines [">a"; "AAAA"]) = 1%nat
  ∧ map (unlines [">a"; "AAAA"]) 0 "key" 8 8 1 = Raise IndexError
  ∧ header_lines (unlines [">a"; ">b"; "CC"]) = 2%nat
  ∧ map (unlines [">a"; ">b"; "CC"]) 0 "key" 9 9 1
    = Ok {| min_range := 0; max_range := 9;
            sequences := ["a" +:+ NL +:+ " 1 0 3 2"] |}
  ∧ Py.slice (unlines [">a"; ">b"; "CC"]) 3 9
    = ">b" +:+ NL +:+ "CC" +:+ NL.
Proof. repeat split; by vm_compute. Qed.

(** ** The markers that [map] writes *)

(** A head-split marker of [map] carries one pair or two. *)
Lemma head_split_marker_shape (min_range : Z) (data : string)
    (m m0 : Match) (more : list Match) :
  ∃ cs text, head_split_marker min_range data m m0 more = head_split cs text.
Proof.
  unfold head_split_marker, head_split.
  destruct more as [|m1 more].
  - by eexists (One _ _), _.
  - by eexists (Two _ _ _ _), _.
Qed.

Lemma first_field_gt (t : string) :
  first_field " " (String ">" t) = String ">" (first_field " " t).
Proof.
  unfold first_field. cbn [Py.split]. change (Ascii.eqb ">" " ") with false.
  cbv iota. by destruct (Py.split " " t).
Qed.

(** The tail-split marker of a header cut after its [>]: the tag tells
    whether the text of the header has a space. *)
Lemma tail_split_marker_shape (t : string) (last_seq_start : Z) :
  tail_split_marker (String ">" t) last_seq_start
  = tail_split (Py.has_char " " t) (first_field " " t) last_seq_start.
Proof.
  unfold tail_split_marker, tail_split. rewrite first_field_gt.
  cbn [Py.has_char]. change (Ascii.eqb ">" " ") with false. cbn [orb].
  by destruct (Py.has_char " " t).
Qed.

(** After a tail-split marker, a head-split marker with one pair only makes
    [reduce] fail: the second pair is read.  [map] writes such a marker for
    a cut header whose sequence has no bases. *)
Lemma tail_split_with_one_pair_raises :
  for_each (map_worker (text_store empty_body) "key" 37 23 2) [] [0; 1]
  = Ok [ {| min_range := 0; max_range := 23;
            sequences := [entry_len ("a" +:+ NL) 1 0 3 16;
                          tail_split false "se" 20] |};
         {| min_range := 23; max_range := 37;
            sequences := [head_split (One 23 7) "q2";
                          entry_len ("c" +:+ NL) 1 31 34 2] |} ]
  ∧ map_reduce (text_store empty_body) "key" 37 (Some 23) None
    = Raise IndexError.
Proof. split; by vm_compute. Qed.

(** * Further properties

    ** The ranges of the partitioner and the ranges of [map] *)

(** X1: with [chunk_size] given and positive, and sizes below [2 ^ 53],
    the ranges computed for an object that is not empty are a chain from [0]
    to [obj_size]: there are as many as the ceiling of the quotient, none is
    empty, each starts where the previous one ends and the last one ends at
    [obj_size]. *)
Theorem chunk_size_ranges_are_a_partition (obj_size chunk_size : Z) :
  0 < obj_size < 2 ^ 53 → 0 < chunk_size < 2 ^ 53 →
  ∃ l, __local_preprocess_ranges obj_size (Some chunk_size) None = Ok l
       ∧ Z.of_nat (length l) = ceil_div obj_size chunk_size
       ∧ l ≠ [] ∧ chain 0 l = Some obj_size.
Proof.
  intros Hsize Hcs'. unfold __local_preprocess_ranges.
  rewrite chunking_chunk_size by lia. cbn [mbind result_bind].
  assert (Hcs : 0 < chunk_size) by lia.
  pose proof (ceil_div_bounds obj_size chunk_size Hcs) as [Hlo Hhi].
  set (n := ceil_div obj_size chunk_size) in *.
  assert (Hn : 1 ≤ n) by nia.
  eexists. split; [reflexivity|].
  split.
  { rewrite length_fmap. unfold Py.range. rewrite length_map, length_seq. lia. }
  unfold Py.range. rewrite Z.sub_0_r.
  destruct (Z.to_nat n) as [|m] eqn:Hm; [lia|].
  split; [done|].
  pose proof (chain_byte_ranges obj_size chunk_size m 0 Hcs) as Hchain.
  change (Z.of_nat 0 * chunk_size) with 0 in Hchain.
  rewrite Hchain by lia.
  f_equal. lia.
Qed.

Lemma chunk_size_ranges_are_a_partition_witness :
  ∃ l, __local_preprocess_ranges 10 (Some 4) None = Ok l
       ∧ Z.of_nat (length l) = ceil_div 10 4
       ∧ l ≠ [] ∧ chain 0 l = Some 10.
Proof. apply (chunk_size_ranges_are_a_partition 10 4); lia. Defined.

(** Beyond [2 ^ 53] the float quotient can be an integer where the
    quotient is not: the ceiling is one too small and the ranges stop
    before the end of the object. *)
Lemma float_quotient_misses_a_range :
  __local_preprocess_ranges (2 ^ 54 + 1) (Some (2 ^ 53)) None
  = Ok [(0, 2 ^ 53); (2 ^ 53, 2 ^ 54)]
  ∧ ceil_div (2 ^ 54 + 1) (2 ^ 53) = 3.
Proof. split; by vm_compute. Qed.

(** X2: with [chunk_size] given, and sizes below [2 ^ 53], the range that
    [map] computes for a worker from the chunk size, the size of the object
    and the number of iterations is the range that was computed for its
    iteration. *)
Theorem map_range_is_the_fetched_range (obj_size chunk_size : Z) :
  0 < obj_size < 2 ^ 53 → 0 < chunk_size < 2 ^ 53 →
  ∃ iterations,
    chunking obj_size (Some chunk_size) None = Ok (iterations, chunk_size)
    ∧ ∀ i, 0 ≤ i < iterations →
        map_range i chunk_size obj_size iterations
        = byte_range obj_size chunk_size i.
Proof.
  intros Hsize Hcs'. eexists. split; [by apply chunking_chunk_size; lia|].
  intros i Hi. unfold map_range, byte_range.
  assert (Hcs : 0 < chunk_size) by lia.
  pose proof (ceil_div_bounds obj_size chunk_size Hcs) as [Hlo Hhi].
  set (n := ceil_div obj_size chunk_size) in *.
  f_equal.
  destruct (Z.eqb_spec i (n - 1)) as [->|Hne].
  - destruct (Z.leb_spec ((n - 1) * chunk_size + chunk_size) obj_size); lia.
  - destruct (Z.leb_spec (i * chunk_size + chunk_size) obj_size); nia.
Qed.

Lemma map_range_is_the_fetched_range_witness :
  ∃ iterations,
    chunking 10 (Some 4) None = Ok (iterations, 4)
    ∧ ∀ i, 0 ≤ i < iterations →
        map_range i 4 10 iterations = byte_range 10 4 i.
Proof. apply (map_range_is_the_fetched_range 10 4); lia. Defined.

Lemma chain_map_ranges (obj_size cs n : Z) (m s : nat) :
  0 < cs →
  n = Z.of_nat s + Z.of_nat m + 1 →
  (n - 1) * cs < obj_size →
  chain (Z.of_nat s * cs)
    ((λ i, map_range i cs obj_size n)
       <$> List.map (λ k, 0 + Z.of_nat k) (seq s (S m)))
  = Some obj_size.
Proof.
  intros Hcs. revert s. induction m as [|m IH]; intros s Hn Hlt.
  - cbn. unfold map_range.
    replace (0 + Z.of_nat s) with (Z.of_nat s) by lia.
    rewrite Z.eqb_refl.
    destruct (Z.eqb_spec (Z.of_nat s) (n - 1)); [|lia].
    destruct (Z.ltb_spec (Z.of_nat s * cs) obj_size); [done|nia].
  - change (seq s (S (S m))) with (s :: seq (S s) (S m)).
    cbn [List.map fmap list_fmap chain]. unfold map_range at 1.
    replace (0 + Z.of_nat s) with (Z.of_nat s) by lia.
    rewrite Z.eqb_refl.
    destruct (Z.eqb_spec (Z.of_nat s) (n - 1)); [lia|].
    destruct (Z.ltb_spec (Z.of_nat s * cs) ((Z.of_nat s + 1) * cs)); [|nia].
    cbn [andb].
    replace ((Z.of_nat s + 1) * cs) with (Z.of_nat (S s) * cs) by lia.
    change (list_fmap _ _ ?f) with (fmap (M := list) f).
    apply IH; lia.
Qed.

(** X3: the ranges that the workers of [map] record, taken in the order of
    the workers, are a chain from [0] to [obj_size] as soon as the last
    worker starts before the end of the object, whatever the ranges that
    were fetched. *)
Theorem map_ranges_cover (obj_size chunk_size partitions : Z) :
  0 < chunk_size → 1 ≤ partitions →
  (partitions - 1) * chunk_size < obj_size →
  chain 0 ((λ i, map_range i chunk_size obj_size partitions)
             <$> Py.range 0 partitions) = Some obj_size.
Proof.
  intros Hcs Hn Hlt. unfold Py.range. rewrite Z.sub_0_r.
  destruct (Z.to_nat partitions) as [|m] eqn:Hm; [lia|].
  pose proof (chain_map_ranges obj_size chunk_size partitions m 0 Hcs) as H.
  change (Z.of_nat 0 * chunk_size) with 0 in H. apply H; lia.
Qed.

Lemma map_ranges_cover_witness :
  chain 0 ((λ i, map_range i 3 10 3) <$> Py.range 0 3) = Some 10.
Proof. apply map_ranges_cover; lia. Defined.

(** X4: with [num_workers] given and an object smaller than [2 ^ 52],
    the chunk size is the quotient rounded to the nearest integer; when it
    is positive and the last range starts before the end of the object, the
    ranges computed are a chain from [0] that stops at
    [num_workers * chunk_size] or at [obj_size], whichever is smaller, and
    what is left of the object after them is at most half a byte for each
    worker. *)
Theorem num_workers_ranges_reach (obj_size num_workers : Z) :
  0 < num_workers → obj_size < 2 ^ 52 →
  0 < round_div obj_size num_workers →
  (num_workers - 1) * round_div obj_size num_workers < obj_size →
  chunking obj_size None (Some num_workers)
  = Ok (num_workers, round_div obj_size num_workers)
  ∧ ∃ l, __local_preprocess_ranges obj_size None (Some num_workers) = Ok l
         ∧ Z.of_nat (length l) = num_workers
         ∧ chain 0 l
           = Some (Z.min (num_workers * round_div obj_size num_workers)
                     obj_size)
         ∧ 2 * (obj_size
                - Z.min (num_workers * round_div obj_size num_workers)
                    obj_size)
           ≤ num_workers.
Proof.
  intros Hn Hos Hcs Hlt.
  pose proof (round_div_nearest obj_size num_workers Hn) as Hr.
  assert (Hchunking : chunking obj_size None (Some num_workers)
                      = Ok (num_workers, round_div obj_size num_workers))
    by (apply chunking_num_workers; nia).
  split; [done|]. unfold __local_preprocess_ranges.
  rewrite Hchunking. cbn [mbind result_bind].
  set (cs := round_div obj_size num_workers) in *.
  eexists. split; [reflexivity|].
  split.
  { rewrite length_fmap. unfold Py.range. rewrite length_map, length_seq. lia. }
  unfold Py.range. rewrite Z.sub_0_r.
  destruct (Z.to_nat num_workers) as [|m] eqn:Hm; [lia|].
  pose proof (chain_byte_ranges obj_size cs m 0 Hcs) as Hchain.
  change (Z.of_nat 0 * cs) with 0 in Hchain.
  rewrite Hchain by lia.
  split; [f_equal; lia|]. lia.
Qed.

Lemma num_workers_ranges_reach_witness :
  chunking 10 None (Some 3) = Ok (3, round_div 10 3)
  ∧ ∃ l, __local_preprocess_ranges 10 None (Some 3) = Ok l
         ∧ Z.of_nat (length l) = 3
         ∧ chain 0 l = Some (Z.min (3 * round_div 10 3) 10)
         ∧ 2 * (10 - Z.min (3 * round_div 10 3) 10) ≤ 3.
Proof. apply (num_workers_ranges_reach 10 3); vm_compute; congruence. Defined.

(** Beyond [2 ^ 53] the rounding is that of the float: with a single worker
    the chunk size can be smaller than the object. *)
Lemma float_quotient_misses_a_byte :
  __local_preprocess_ranges (2 ^ 53 + 1) None (Some 1) = Ok [(0, 2 ^ 53)].
Proof. by vm_compute. Qed.

(** ** When [map] returns *)

Lemma header_line_spans (s : string) :
  ∀ pos skip m, m ∈ Re.header_line pos skip s → pos ≤ m_start m < m_end m.
Proof.
  induction s as [|c s IH]; intros pos skip m Hm; [by apply elem_of_nil in Hm|].
  cbn [Re.header_line] in Hm. destruct skip as [|k].
  - destruct (Ascii.eqb c Py.gt).
    + destruct (Re.find_nl s) as [[|n]|].
      * apply IH in Hm. lia.
      * apply elem_of_cons in Hm as [->|Hm]; [cbn; lia|]. apply IH in Hm. lia.
      * apply IH in Hm. lia.
    + apply IH in Hm. lia.
  - apply IH in Hm. lia.
Qed.

Lemma get_length_nonempty (mn : Z) (c : list string) (d : string) (a b : Z) :
  c ≠ [] → ∃ c', __get_length mn c d a b = Ok c' ∧ c' ≠ [].
Proof.
  intros Hc. destruct (exists_last Hc) as (l & x & ->).
  unfold __get_length. rewrite last_snoc. cbn [mbind result_bind].
  rewrite set_last_snoc. eexists. split; [reflexivity|]. by destruct l.
Qed.

Lemma get_length_empty (mn : Z) (d : string) (a b : Z) :
  __get_length mn [] d a b = Raise IndexError.
Proof. reflexivity. Qed.

(** One step of the loop from its first state: a false header leaves the
    state as it is, any other header gives an entry. *)
Lemma map_head_start (w mn : Z) (data : string) (m : Match) :
  0 ≤ mn → 0 ≤ m_start m < m_end m →
  ∃ st, map_head w mn data loop_start m = Ok st
        ∧ (if false_header w mn data m then st = loop_start
           else first_sequence st = false ∧ prev st ≠ -1 ∧ content st ≠ []).
Proof.
  intros Hmn Hm. unfold map_head, false_header, loop_start.
  cbn [first_sequence prev content].
  destruct ((w >? 0) && (mn + m_start m - 1 >? mn)); cbn [andb].
  - destruct (Re.any_line 0 0 (Py.slice data 0 (m_start m))) as [|m0 more].
    + cbn. eexists. split; reflexivity.
    + destruct (Z.eqb_spec (-1) (mn + m_start m)) as [Heq|_]; [lia|].
      cbn. eexists. split; [reflexivity|]. cbn. split; [done|].
      split; [lia|]. done.
  - destruct (Z.eqb_spec (-1) (mn + m_start m)) as [Heq|_]; [lia|].
    cbn. eexists. split; [reflexivity|]. cbn. split; [done|].
    split; [lia|]. done.
Qed.

(** One step of the loop after a header was taken. *)
Lemma map_head_next (w mn : Z) (data : string) (st : LoopState) (m : Match) :
  0 ≤ mn → 0 ≤ m_start m < m_end m →
  first_sequence st = false → prev st ≠ -1 → content st ≠ [] →
  ∃ st', map_head w mn data st m = Ok st'
         ∧ first_sequence st' = false ∧ prev st' ≠ -1 ∧ content st' ≠ [].
Proof.
  intros Hmn Hm Hf Hp Hc. unfold map_head. rewrite Hf.
  destruct (Z.eqb_spec (prev st) (mn + m_start m)) as [Heq|Hne]; cbn [negb].
  - cbn. eexists. split; [reflexivity|]. cbn. repeat split; [lia|done].
  - destruct (Z.eqb_spec (prev st) (-1)) as [Heq|_]; [done|]. cbn [negb].
    destruct (get_length_nonempty mn (content st) data (prev st)
                (mn + m_start m) Hc) as (c' & -> & Hc').
    cbn. eexists. split; [reflexivity|]. cbn. repeat split; [lia|].
    by destruct c'.
Qed.

Lemma map_loop_next (w mn : Z) (data : string) (heads : list Match) :
  0 ≤ mn → (∀ m, m ∈ heads → 0 ≤ m_start m < m_end m) →
  ∀ st, first_sequence st = false → prev st ≠ -1 → content st ≠ [] →
  ∃ st', for_each (map_head w mn data) st heads = Ok st' ∧ content st' ≠ [].
Proof.
  intros Hmn. induction heads as [|m heads IH]; intros Hms st Hf Hp Hc.
  - by exists st.
  - destruct (map_head_next w mn data st m Hmn) as (st1 & Hst1 & Hf1 & Hp1 & Hc1);
      [apply Hms; left|done..|].
    cbn [for_each]. rewrite Hst1. cbn [mbind result_bind].
    apply IH; [|done..]. intros m' Hm'. apply Hms. by right.
Qed.

(** The loop of [map] never raises; it ends with no entry exactly when
    every header was taken for a false one. *)
Lemma map_loop_total (w mn : Z) (data : string) (heads : list Match) :
  0 ≤ mn → (∀ m, m ∈ heads → 0 ≤ m_start m < m_end m) →
  ∃ st, for_each (map_head w mn data) loop_start heads = Ok st
        ∧ (content st = []
           ↔ Forall (λ m, false_header w mn data m = true) heads).
Proof.
  intros Hmn. induction heads as [|m heads IH]; intros Hms.
  - exists loop_start. split; [reflexivity|]. split; [by constructor|done].
  - destruct (map_head_start w mn data m Hmn) as (st1 & Hst1 & Hcase);
      [apply Hms; left|].
    cbn [for_each]. rewrite Hst1. cbn [mbind result_bind].
    assert (Hms' : ∀ m', m' ∈ heads → 0 ≤ m_start m' < m_end m')
      by (intros m' Hm'; apply Hms; by right).
    destruct (false_header w mn data m) eqn:Hfalse.
    + subst st1. destruct (IH Hms') as (st & Hst & Hiff).
      exists st. split; [done|]. rewrite Hiff. split.
      * intros H. by constructor.
      * intros H. by apply Forall_cons in H as [_ H].
    + destruct Hcase as (Hf & Hp & Hc).
      destruct (map_loop_next w mn data heads Hmn Hms' st1 Hf Hp Hc)
        as (st & Hst & Hne).
      exists st. split; [done|]. split; [done|].
      intros H. apply Forall_cons in H as [H _]. congruence.
Qed.

(** After the loop: with a match of each pattern, [map_tail] returns a list
    that is not empty when the loop left one, and raises otherwise. *)
Lemma map_tail_total (mn mx : Z) (data : string) (ini heads : list Match)
    (st : LoopState) :
  ini ≠ [] → heads ≠ [] →
  if decide (content st = [])
  then map_tail mn mx data ini heads st = Raise IndexError
  else ∃ c, map_tail mn mx data ini heads st = Ok c ∧ c ≠ [].
Proof.
  intros Hini Hheads. unfold map_tail.
  destruct (exists_last Hini) as (ini' & ih & ->).
  destruct (exists_last Hheads) as (heads' & h & ->).
  rewrite !last_snoc. cbn [mbind result_bind].
  rewrite length_app. cbn [length].
  destruct (Z.eqb_spec (Z.of_nat (length heads' + 1)) 0) as [Heq|_]; [lia|].
  cbn [negb].
  destruct (decide (content st = [])) as [Hc|Hc].
  - rewrite Hc, !get_length_empty. by destruct (m_start ih + 1 >? m_start h).
  - destruct (m_start ih + 1 >? m_start h).
    + destruct (get_length_nonempty mn (content st) data (prev st)
                  (m_start ih + mn + 1) Hc) as (c' & -> & Hc').
      cbn. eexists. split; [reflexivity|]. by destruct c'.
    + apply get_length_nonempty, Hc.
Qed.

Lemma Forall_true_Exists_false {A} (f : A → bool) (l : list A) :
  ¬ Forall (λ x, f x = true) l ↔ Exists (λ x, f x = false) l.
Proof.
  induction l as [|x l IH].
  - split; [intros H; by destruct H|intros H; by apply Exists_nil in H].
  - rewrite Forall_cons, Exists_cons, <- IH. destruct (f x); split.
    + intros H. right. intros Hl. by apply H.
    + intros [?|H] [_ Hl]; [done|by apply H].
    + intros _. by left.
    + intros _ [? _]. done.
Qed.

(** The five cases of [map]. *)
Lemma map_cases (data key : string)
    (worker_id chunk_size obj_size partitions : Z) :
  0 ≤ worker_id * chunk_size →
  let heads := Re.header_line 0 O data in
  let record c :=
    {| min_range := worker_id * chunk_size;
       max_range := (if worker_id =? partitions - 1 then obj_size
                     else (worker_id + 1) * chunk_size);
       sequences := c |} in
  let result := map data worker_id key chunk_size obj_size partitions in
  if Py.contains (NL +:+ ">") data then
    if decide (Forall (λ m, false_header worker_id (worker_id * chunk_size)
                              data m = true) heads)
    then result = Raise IndexError
    else ∃ c, c ≠ [] ∧ result = Ok (record c)
  else
    match data with
    | EmptyString => result = Raise IndexError
    | String c _ =>
        if Ascii.eqb c ">" then result = Raise IndexError
        else result = Ok (record [])
    end.
Proof.
  intros Hmn heads record result. subst result. unfold map.
  set (mn := worker_id * chunk_size) in *.
  set (mx := if worker_id =? partitions - 1 then obj_size
             else (worker_id + 1) * chunk_size) in *.
  fold heads. fold loop_start.
  assert (Hspans : ∀ m, m ∈ heads → 0 ≤ m_start m < m_end m)
    by (intros m Hm; by apply header_line_spans in Hm).
  destruct (map_loop_total worker_id mn data heads Hmn Hspans)
    as (st & Hst & Hiff).
  rewrite Hst.
  destruct (Py.contains (NL +:+ ">") data) eqn:Hini.
  - destruct (Re.newline_gt 0 data) as [|ih ini] eqn:Hih.
    { apply newline_gt_nil in Hih. congruence. }
    cbn [mbind result_bind].
    destruct (decide (Forall _ heads)) as [Hall|Hsome].
    + destruct heads as [|h heads'] eqn:Hheads.
      * unfold map_tail.
        destruct (exists_last (l := ih :: ini) ltac:(done)) as (l' & x & ->).
        by rewrite last_snoc.
      * pose proof (map_tail_total mn mx data (ih :: ini) (h :: heads') st
                      ltac:(done) ltac:(done)) as Ht.
        apply Hiff in Hall. destruct (decide (content st = [])); [|done].
        by rewrite Ht.
    + assert (Hh : heads ≠ []) by (intros Hh; apply Hsome; rewrite Hh; constructor).
      pose proof (map_tail_total mn mx data (ih :: ini) heads st
                    ltac:(done) Hh) as Ht.
      destruct (decide (content st = [])) as [Hc|_];
        [by apply Hiff in Hc|].
      destruct Ht as (c & -> & Hc). by exists c.
  - apply (newline_gt_nil 0) in Hini. rewrite Hini.
    destruct data as [|c data]; [reflexivity|]. unfold Py.gt.
    destruct (Ascii.eqb c ">"); [|reflexivity]. cbn [mbind result_bind].
    by unfold map_tail.
Qed.

(** X5: [map] raises nothing but an [IndexError], and it returns exactly
    when the text of the chunk is not empty and either has no [>] after a
    newline and does not start with [>], or has a [>] after a newline and a
    match of [>.+\n] that is not taken for a false header. *)
Theorem map_returns_iff (data key : string)
    (worker_id chunk_size obj_size partitions : Z) :
  0 ≤ worker_id * chunk_size →
  ((∃ r, map data worker_id key chunk_size obj_size partitions = Ok r)
   ↔ (data ≠ "" ∧ Py.contains (NL +:+ ">") data = false
      ∧ String.prefix ">" data = false)
     ∨ (Py.contains (NL +:+ ">") data = true
        ∧ Exists (λ m, false_header worker_id (worker_id * chunk_size)
                         data m = false) (Re.header_line 0 O data)))
  ∧ (∀ e, map data worker_id key chunk_size obj_size partitions = Raise e →
          e = IndexError).
Proof.
  intros Hmn.
  pose proof (map_cases data key worker_id chunk_size obj_size partitions Hmn)
    as Hcases. cbv zeta in Hcases.
  rewrite <- Forall_true_Exists_false.
  destruct (Py.contains (NL +:+ ">") data).
  - destruct (decide (Forall _ _)) as [Hall|Hsome].
    + rewrite Hcases. split; [|by intros e [= <-]]. split.
      * by intros [r Hr].
      * intros [(_ & ? & _)|[_ ?]]; done.
    + destruct Hcases as (c & _ & ->). split; [|done]. split; [|by eexists].
      intros _. by right.
  - destruct data as [|c data].
    + rewrite Hcases. split; [|by intros e [= <-]]. split.
      * by intros [r Hr].
      * intros [(? & _)|[? _]]; done.
    + rewrite prefix_cons, prefix_nil, andb_true_r.
      destruct (Ascii.eqb c ">"); rewrite Hcases.
      * split; [|by intros e [= <-]]. split; [by intros [r Hr]|].
        intros [(_ & _ & ?)|[? _]]; done.
      * split; [|done]. split; [|by eexists]. intros _. by left.
Qed.

Lemma map_returns_iff_witness :
  ((∃ r, map ("AA" +:+ NL +:+ ">s2 x" +:+ NL +:+ "CC") 1 "key" 10 20 2 = Ok r)
   ↔ ("AA" +:+ NL +:+ ">s2 x" +:+ NL +:+ "CC" ≠ ""
      ∧ Py.contains (NL +:+ ">") ("AA" +:+ NL +:+ ">s2 x" +:+ NL +:+ "CC")
        = false
      ∧ String.prefix ">" ("AA" +:+ NL +:+ ">s2 x" +:+ NL +:+ "CC") = false)
     ∨ (Py.contains (NL +:+ ">") ("AA" +:+ NL +:+ ">s2 x" +:+ NL +:+ "CC")
        = true
        ∧ Exists (λ m, false_header 1 (1 * 10)
                         ("AA" +:+ NL +:+ ">s2 x" +:+ NL +:+ "CC") m = false)
            (Re.header_line 0 O ("AA" +:+ NL +:+ ">s2 x" +:+ NL +:+ "CC"))))
  ∧ (∀ e, map ("AA" +:+ NL +:+ ">s2 x" +:+ NL +:+ "CC") 1 "key" 10 20 2
          = Raise e → e = IndexError).
Proof.
  apply (map_returns_iff ("AA" +:+ NL +:+ ">s2 x" +:+ NL +:+ "CC") "key" 1 10 20 2).
  lia.
Defined.

(** X6: a record that [map] returns carries the range of its worker, and
    its list of sequences is empty exactly when the text of the chunk has no
    [>] after a newline and does not start with [>]. *)
Theorem map_returns_empty_iff (data key : string)
    (worker_id chunk_size obj_size partitions : Z) (r : PartialRecord) :
  0 ≤ worker_id * chunk_size →
  map data worker_id key chunk_size obj_size partitions = Ok r →
  (min_range r, max_range r)
  = map_range worker_id chunk_size obj_size partitions
  ∧ (sequences r = []
     ↔ Py.contains (NL +:+ ">") data = false
       ∧ String.prefix ">" data = false).
Proof.
  intros Hmn Hr.
  pose proof (map_cases data key worker_id chunk_size obj_size partitions Hmn)
    as Hcases. cbv zeta in Hcases. rewrite Hr in Hcases.
  destruct (Py.contains (NL +:+ ">") data).
  - destruct (decide (Forall _ _)); [done|].
    destruct Hcases as (c & Hc & [= ->]). cbn. split; [done|].
    split; [done|]. by intros [? _].
  - destruct data as [|c data]; [done|].
    rewrite prefix_cons, prefix_nil, andb_true_r.
    destruct (Ascii.eqb c ">"); [done|]. injection Hcases as ->. by cbn.
Qed.

Lemma map_returns_empty_iff_witness :
  (min_range {| min_range := 5; max_range := 10; sequences := [] |},
   max_range {| min_range := 5; max_range := 10; sequences := [] |})
  = map_range 1 5 10 2
  ∧ (sequences {| min_range := 5; max_range := 10; sequences := [] |} = []
     ↔ Py.contains (NL +:+ ">") ("CC" +:+ NL +:+ "GG") = false
       ∧ String.prefix ">" ("CC" +:+ NL +:+ "GG") = false).
Proof.
  apply (map_returns_empty_iff ("CC" +:+ NL +:+ "GG") "key" 1 5 10 2);
    [lia|reflexivity].
Defined.

(** ** What [reduce] keeps *)

Lemma for_each_related {S A} (R : S → S → Prop) (body : S → A → result S)
    (l : list A) :
  (∀ s, R s s) → (∀ s1 s2 s3, R s1 s2 → R s2 s3 → R s1 s3) →
  (∀ s x s', body s x = Ok s' → R s s') →
  ∀ s s', for_each body s l = Ok s' → R s s'.
Proof.
  intros Hrefl Htrans Hbody. induction l as [|x l IH]; intros s s' H.
  - injection H as ->. apply Hrefl.
  - cbn [for_each] in H. binds H. eauto.
Qed.

Lemma nonempty_snoc {A} (l : list A) : l ≠ [] → ∃ k y, l = k ++ [y].
Proof. intros H. destruct (exists_last H) as (k & y & ->). eauto. Qed.

Lemma set_last_length {A} (l l' : list A) (x : A) :
  Py.set_last l x = Ok l' → length l' = length l.
Proof.
  destruct (decide (l = [])) as [->|Hl]; [done|].
  apply nonempty_snoc in Hl as (k & y & ->).
  rewrite set_last_snoc. intros [= <-]. by rewrite !length_app.
Qed.

Lemma set_length {A} (l l' : list A) (i : Z) (x : A) :
  Py.set l i x = Ok l' → length l' = length l.
Proof.
  unfold Py.set. intros H. binds H. injection H as <-. apply length_insert.
Qed.

Lemma set_insert {A} (l l' : list A) (i : Z) (y : A) :
  Py.set l i y = Ok l' →
  ∃ p, Py.position (length l) i = Ok p ∧ l' = <[p:=y]> l.
Proof. unfold Py.set. intros H. binds H. injection H as <-. eauto. Qed.

(** An assignment [rs[i] = r'], where [r] is [rs[i]] and [r'] has [n]
    entries. *)
Lemma get_set_entries (rs rs' : list PartialRecord) (i : Z)
    (r r' : PartialRecord) :
  Py.get rs i = Ok r → Py.set rs i r' = Ok rs' →
  ∃ p, Py.position (length rs) i = Ok p
       ∧ entries rs !! p = Some (length (sequences r))
       ∧ entries rs' = <[p:=length (sequences r')]> (entries rs).
Proof.
  intros Hget Hset. apply get_lookup in Hget as (p & Hp & Hr).
  apply set_insert in Hset as (p' & Hp' & ->).
  rewrite Hp in Hp'. injection Hp' as <-. exists p. split; [done|].
  unfold entries. split.
  - by rewrite list_lookup_fmap, Hr.
  - by rewrite list_fmap_insert.
Qed.

Lemma get_set_same_entries (rs rs' : list PartialRecord) (i : Z)
    (r r' : PartialRecord) :
  Py.get rs i = Ok r → Py.set rs i r' = Ok rs' →
  length (sequences r') = length (sequences r) →
  entries rs' = entries rs.
Proof.
  intros Hget Hset Hlen.
  destruct (get_set_entries _ _ _ _ _ Hget Hset) as (p & _ & Hp & ->).
  rewrite Hlen. by apply list_insert_id.
Qed.

Lemma replace_in_last_same (o n : string) (rs rs' : list PartialRecord)
    (x : Z) :
  replace_in_last o n rs x = Ok rs' → entries rs' = entries rs.
Proof.
  unfold replace_in_last. intros H. binds H.
  eapply get_set_same_entries; [done..|].
  cbn. by eapply set_last_length.
Qed.

Lemma replace_in_first_same (o n : string) (i : Z)
    (rs rs' : list PartialRecord) :
  replace_in_first o n i rs = Ok rs' → entries rs' = entries rs.
Proof.
  unfold replace_in_first. intros H. binds H.
  eapply get_set_same_entries; [done..|].
  cbn. by eapply set_length.
Qed.

Lemma for_each_same {A} (body : list PartialRecord → A → result _)
    (l : list A) :
  (∀ s x s', body s x = Ok s' → entries s' = entries s) →
  ∀ s s', for_each body s l = Ok s' → entries s' = entries s.
Proof.
  intros Hbody.
  apply (for_each_related (λ s s', entries s' = entries s)); [done| |done].
  intros s1 s2 s3 H12 H23. congruence.
Qed.

Lemma resolve_entry_same (rs : list PartialRecord) (i : Z)
    (param psp : list string) (r : Resolved) :
  resolve_entry rs i param psp = Ok r → entries (res_results r) = entries rs.
Proof.
  unfold resolve_entry. intros H. binds H. injection H as <-.
  cbn [res_results].
  eapply for_each_same; [|eassumption]. intros s y s'.
  apply replace_in_last_same.
Qed.

Lemma rewrite_first_same (i : Z) (param : list string) (r : Resolved)
    (rs' : list PartialRecord) :
  rewrite_first i param r = Ok rs' → entries rs' = entries (res_results r).
Proof.
  unfold rewrite_first. intros H. binds H.
  apply replace_in_first_same in Hx0, Hx2, Hx4, Hx5, Hx6, H. congruence.
Qed.

Lemma pop_length_pred {A} (l l' : list A) :
  Py.pop l = Ok l' → length l = S (length l').
Proof.
  destruct (decide (l = [])) as [->|Hl]; [done|].
  apply nonempty_snoc in Hl as (k & y & ->).
  rewrite pop_snoc. intros [= <-]. rewrite length_app. cbn. lia.
Qed.

(** The branch of the tail-split marker takes one entry from the record
    before [i]. *)
Lemma resolve_marker_pops (rs : list PartialRecord) (i : Z)
    (param psp : list string) (sp : string) (r : Resolved) :
  0 < i →
  resolve_marker rs i param psp sp = Ok r →
  ∃ n, entries rs !! Z.to_nat (i - 1) = Some (S n)
       ∧ entries (res_results r) = <[Z.to_nat (i - 1):=n]> (entries rs).
Proof.
  intros Hi. unfold resolve_marker. intros H. binds H. injection H as <-.
  cbn [res_results].
  destruct (get_set_entries _ _ _ _ _ Hx5 Hx7) as (p & Hp & Hn & E1).
  cbn in E1. apply pop_length_pred in Hx6.
  assert (Hpi : p = Z.to_nat (i - 1)).
  { unfold Py.position in Hp.
    destruct (Z.leb_spec 0 (i - 1)); [|lia].
    destruct (Z.ltb_spec (i - 1) (Z.of_nat (length rs))); cbn in Hp.
    - by injection Hp as <-.
    - destruct (Z.ltb_spec (i - 1) 0); [lia|done]. }
  subst p.
  pose proof (get_set_same_entries _ _ _ _ _ Hx9 Hx10 eq_refl) as E2.
  pose proof (get_set_same_entries _ _ _ _ _ Hx12 Hx13 eq_refl) as E3.
  exists (length x6). split; [by rewrite Hn, Hx6|]. congruence.
Qed.

(** One iteration of the loop of [reduce]: the numbers of entries stay, or
    the record before [i] loses one entry. *)
Lemma reduce_body_step (rs : list PartialRecord) (i : Z)
    (rs' : list PartialRecord) :
  reduce_body rs i = Ok rs' →
  entries rs' = entries rs
  ∨ (0 < i
     ∧ ∃ n, entries rs !! Z.to_nat (i - 1) = Some (S n)
            ∧ entries rs' = <[Z.to_nat (i - 1):=n]> (entries rs)).
Proof.
  unfold reduce_body. intros H. binds H.
  destruct (Z.gtb_spec i 0) as [Hi|_]; [|left; by injection H as <-].
  destruct (sequences x0); [left; by injection H as <-|].
  destruct (sequences x) as [|d0 ?]; [left; by injection H as <-|].
  destruct (Py.contains ">>" d0); [|left; by injection H as <-].
  binds H. apply rewrite_first_same in H.
  match goal with
  | Hr : (if _ || _ then _ else _) = Ok _ |- _ => rename Hr into Hres
  end.
  destruct (_ || _).
  - assert (Hi' : 0 < i) by lia. right. split; [done|].
    destruct (resolve_marker_pops _ _ _ _ _ _ Hi' Hres) as (n & Hn & E).
    exists n. split; [done|]. congruence.
  - left. apply resolve_entry_same in Hres. congruence.
Qed.

Lemma lost_before_loop (e0 : list nat) (len : nat) :
  ∀ (a : Z) (rs rs' : list PartialRecord),
    0 ≤ a →
    for_each reduce_body rs (Py.range a (a + Z.of_nat len)) = Ok rs' →
    lost_before a e0 (entries rs) →
    lost_before (a + Z.of_nat len) e0 (entries rs').
Proof.
  induction len as [|len IH]; intros a rs rs' Ha Hloop Hinv.
  - rewrite Z.add_0_r in *. unfold Py.range in Hloop.
    rewrite Z.sub_diag in Hloop. by injection Hloop as <-.
  - rewrite range_first in Hloop by lia. cbn [for_each] in Hloop.
    binds Hloop.
    replace (a + Z.of_nat (S len)) with (a + 1 + Z.of_nat len) in * by lia.
    apply (IH (a + 1) x rs'); [lia|done|].
    destruct Hinv as [Hlen Hinv].
    destruct (reduce_body_step _ _ _ Hx) as [E|(Hpos & n & Hn & E)];
      rewrite E.
    + split; [done|]. intros j m0 m H0 Hm.
      destruct (Hinv j m0 m H0 Hm) as [H1 H2]. split; [done|]. intros. lia.
    + split; [by rewrite length_insert|]. intros j m0 m H0 Hm.
      destruct (decide (j = Z.to_nat (a - 1))) as [->|Hne].
      * rewrite list_lookup_insert_eq in Hm
          by (by eapply lookup_lt_Some).
        injection Hm as <-.
        destruct (Hinv _ m0 (S n) H0 Hn) as [_ H2].
        specialize (H2 ltac:(lia)). split; lia.
      * rewrite list_lookup_insert_ne in Hm by done.
        destruct (Hinv j m0 m H0 Hm) as [H1 H2]. split; [done|].
        intros. apply H2. lia.
Qed.

(** X7: [reduce] adds no record and no entry, and takes one entry at most
    from a record: the list that it leaves has as many records as the list
    it was given, no record has more entries than before, none has lost more
    than one, and the last record has lost none. *)
Theorem reduce_adds_no_entry (results results' : list PartialRecord) :
  reduce results = Ok results' →
  length results' = length results
  ∧ Forall2 no_more_entries results results'
  ∧ Forall2 (λ r r', (length (sequences r) ≤ S (length (sequences r')))%nat)
      results results'
  ∧ ∀ r r', last results = Some r → last results' = Some r' →
            length (sequences r') = length (sequences r).
Proof.
  intros H.
  assert (Hinv : lost_before (Z.of_nat (length results)) (entries results)
                   (entries results')).
  { unfold reduce in H. destruct (_ >? 1).
    - apply (lost_before_loop _ (length results) 0 results results');
        [lia|done|].
      split; [done|]. intros j m0 m H0 Hm. rewrite H0 in Hm.
      injection Hm as <-. split; [lia|done].
    - injection H as <-. split; [done|]. intros j m0 m H0 Hm.
      rewrite H0 in Hm. injection Hm as <-. split; [lia|done]. }
  destruct Hinv as [Hlen Hinv]. unfold entries in Hlen, Hinv.
  rewrite !length_fmap in Hlen.
  assert (Hrec : ∀ j r r', results !! j = Some r → results' !! j = Some r' →
            (length (sequences r') ≤ length (sequences r)
             ≤ S (length (sequences r')))%nat
            ∧ (Z.of_nat (length results) ≤ Z.of_nat j + 1 →
               length (sequences r') = length (sequences r))).
  { intros j r r' Hr Hr'. apply (Hinv j); by rewrite list_lookup_fmap, ?Hr, ?Hr'. }
  split; [done|]. split; [|split].
  - apply Forall2_same_length_lookup_2; [done|].
    intros j r r' Hr Hr'. unfold no_more_entries.
    by destruct (Hrec j r r' Hr Hr') as [[? ?] _].
  - apply Forall2_same_length_lookup_2; [done|].
    intros j r r' Hr Hr'. by destruct (Hrec j r r' Hr Hr') as [[? ?] _].
  - intros r r' Hr Hr'. rewrite last_lookup in Hr, Hr'.
    rewrite Hlen in Hr'.
    destruct (Hrec _ r r' Hr Hr') as [_ Hlast]. apply Hlast.
    apply lookup_lt_Some in Hr. lia.
Qed.

Lemma reduce_adds_no_entry_witness :
  let results :=
    [ {| min_range := 0; max_range := 11;
         sequences := ["s1 1 0 4 6"; "<->s2 14"] |};
      {| min_range := 11; max_range := 25;
         sequences := [">> <X> <Y> 11-18 2-4 ^AA^"; "s3 1 30 34 2"] |} ] in
  let results' :=
    [ {| min_range := 0; max_range := 14; sequences := ["s1 1 0 4 6"] |};
      {| min_range := 14; max_range := 25;
         sequences := ["s2 1 14 18 4"; "s3 1 30 34 2"] |} ] in
  length results' = length results
  ∧ Forall2 no_more_entries results results'
  ∧ Forall2 (λ r r', (length (sequences r) ≤ S (length (sequences r')))%nat)
      results results'
  ∧ ∀ r r', last results = Some r → last results' = Some r' →
            length (sequences r') = length (sequences r).
Proof.
  cbv zeta. apply reduce_adds_no_entry. vm_compute. reflexivity.
Defined.

(** X8: [reduce] leaves the list as it is, and raises nothing, when no
    record starts with a head-split marker. *)
Theorem reduce_without_head_split (results : list PartialRecord) :
  no_head_split results = true → reduce results = Ok results.
Proof.
  intros Hno. unfold reduce.
  destruct (Z.gtb_spec (Z.of_nat (length results)) 1) as [Hlen|_];
    [|reflexivity].
  apply for_each_fixed. intros i Hi. apply elem_of_range in Hi.
  unfold reduce_body.
  destruct (get_in_range results i ltac:(lia)) as (dict & Hdict).
  destruct (get_in_range results (i - 1) ltac:(lia)) as (dict_prev & Hprev).
  rewrite Hdict, Hprev. cbn [mbind result_bind].
  destruct (i >? 0); [|reflexivity].
  destruct (sequences dict_prev); [reflexivity|].
  destruct (sequences dict) as [|d0 rest] eqn:Hseq; [reflexivity|].
  apply get_elem_of in Hdict.
  unfold no_head_split in Hno. rewrite forallb_forall in Hno.
  apply list_elem_of_In, Hno in Hdict. rewrite Hseq in Hdict.
  apply negb_true_iff in Hdict. by rewrite Hdict.
Qed.

Lemma reduce_without_head_split_witness :
  reduce [ {| min_range := 0; max_range := 9;
              sequences := ["s1 1 0 4 4"; "<->s2 9"] |};
           {| min_range := 9; max_range := 18; sequences := [] |} ]
  = Ok [ {| min_range := 0; max_range := 9;
            sequences := ["s1 1 0 4 4"; "<->s2 9"] |};
         {| min_range := 9; max_range := 18; sequences := [] |} ].
Proof. apply reduce_without_head_split. reflexivity. Defined.

(** X9: when record [i-1] ends with a tail-split marker and record [i]
    starts with a head-split marker that carries one pair only, the body of
    the loop of [reduce] raises an [IndexError], the second length being
    read; so does [reduce] on the two records. *)
Theorem tail_split_then_one_pair_raises (pre post : list PartialRecord)
    (prev cur : PartialRecord) (seqs rest : list string)
    (complete : bool) (id text : string) (oh o0 l0 : Z) :
  lacks " " id → lacks "<" id → lacks " " text → 0 ≤ o0 → 0 ≤ l0 →
  sequences prev = seqs ++ [tail_split complete id oh] →
  sequences cur = head_split (One o0 l0) text :: rest →
  reduce_body (pre ++ prev :: cur :: post) (Z.of_nat (length pre) + 1)
  = Raise IndexError
  ∧ reduce [prev; cur] = Raise IndexError.
Proof.
  intros Hid1 Hid2 Ht1 Ho0 Hl0 Hprev Hcur.
  assert (Hbody : ∀ pre post,
    reduce_body (pre ++ prev :: cur :: post) (Z.of_nat (length pre) + 1)
    = Raise IndexError).
  { clear pre post. intros pre post.
    set (i := Z.of_nat (length pre) + 1).
    assert (Hi : i = Z.of_nat (length pre) + 1) by reflexivity.
    assert (Hi1 : i - 1 = Z.of_nat (length pre)) by lia.
    assert (Hpos : (i >? 0) = true) by lia.
    clearbody i.
    unfold reduce_body.
    rewrite (get_second pre post prev cur i Hi). cbn [mbind result_bind].
    rewrite (get_middle pre (cur :: post) prev (i - 1) Hi1).
    cbn [mbind result_bind]. cbv zeta. rewrite Hpos, Hcur.
    destruct (sequences prev) as [|y ys] eqn:Hsp; [by destruct seqs|].
    rewrite Hprev in Hsp |- *. clear y ys Hprev.
    rewrite contains_head_split, last_snoc. cbn [mbind result_bind].
    destruct (contains_tail_split complete id oh Hid2) as [Hc1 Hc2].
    rewrite Hc1, Hc2, orb_negb_r.
    rewrite split_head_split, split_tail_split by done.
    unfold resolve_marker. rewrite Hc1, get_head.
    change (Py.get [_; _; _; _; _; ?p5] 5) with (Ok p5).
    replace (if complete then _ else _)
      with (Ok (if complete
                then Py.replace "<->" ""
                       ((if complete then "<->" else "<_>") +:+ id)
                else Py.replace "<_>" ""
                       ((if complete then "<->" else "<_>") +:+ id)
                     +:+ Py.replace "^" "" ("^" +:+ text +:+ "^")))
      by (by destruct complete).
    cbn [mbind result_bind].
    change (Py.get [_; _; _; _; ?p4; _] 4) with (Ok p4).
    cbn [mbind result_bind].
    by rewrite split_lengths_one. }
  split; [apply Hbody|].
  rewrite reduce_two. apply (Hbody [] []).
Qed.

Lemma tail_split_then_one_pair_raises_witness :
  reduce_body
    ([] ++ {| min_range := 0; max_range := 23;
              sequences := [entry_len ("a" +:+ NL) 1 0 3 16]
                             ++ [tail_split false "se" 20] |}
        :: {| min_range := 23; max_range := 37;
              sequences := [head_split (One 23 7) "q2";
                            entry_len ("c" +:+ NL) 1 31 34 2] |} :: [])
    (Z.of_nat (length (@nil PartialRecord)) + 1)
  = Raise IndexError
  ∧ reduce
      [ {| min_range := 0; max_range := 23;
           sequences := [entry_len ("a" +:+ NL) 1 0 3 16]
                          ++ [tail_split false "se" 20] |};
        {| min_range := 23; max_range := 37;
           sequences := [head_split (One 23 7) "q2";
                         entry_len ("c" +:+ NL) 1 31 34 2] |} ]
    = Raise IndexError.
Proof.
  apply (tail_split_then_one_pair_raises [] [] _ _
           [entry_len ("a" +:+ NL) 1 0 3 16]
           [entry_len ("c" +:+ NL) 1 31 34 2] false "se" "q2" 20 23 7);
    (reflexivity || lia).
Defined.

(** ** [map] on a chunk of whole records, for any worker *)

(** [data[i:j]] for a part [m] that ends the text, the bound [j] being at
    the end of the text or after it. *)
Lemma slice_to_end (a m : string) (i j : Z) :
  i = Py.len a → Py.len a + Py.len m ≤ j → Py.slice (a +:+ m) i j = m.
Proof.
  intros -> Hj. unfold Py.slice, Py.clamp. rewrite !len_app.
  pose proof (len_nonneg a). pose proof (len_nonneg m).
  destruct (Z.ltb_spec (Py.len a) 0); [lia|].
  destruct (Z.ltb_spec j 0); [lia|].
  rewrite Z.min_l, Z.min_r by lia.
  replace (Py.len a + Py.len m - Py.len a) with (Py.len m) by lia.
  unfold Py.len. rewrite !Nat2Z.id.
  rewrite <- (str_app_empty_r m) at 2. rewrite <- (substring_middle a m "") at 3.
  by rewrite str_app_empty_r.
Qed.

Lemma get_length_body_at (mn : Z) (c : list string) (e : string)
    (a b z : string) (i j : Z) :
  i = mn + Py.len a → j = mn + Py.len a + Py.len (b +:+ NL) →
  __get_length mn (c ++ [e]) (a +:+ (b +:+ NL) +:+ z) i j
  = Ok (c ++ [e +:+ " " +:+ Py.str (count_bases b)]).
Proof.
  intros Hi Hj. unfold __get_length.
  rewrite (slice_middle a (b +:+ NL) z (i - mn) (j - mn)) by lia.
  rewrite len_replace_newlines, count_bases_body, last_snoc.
  cbn [mbind result_bind]. by rewrite set_last_snoc.
Qed.

Lemma get_length_last_at (mn : Z) (c : list string) (e : string)
    (a b : string) (i j : Z) :
  i = mn + Py.len a → mn + Py.len a + Py.len (b +:+ NL) ≤ j →
  __get_length mn (c ++ [e]) (a +:+ (b +:+ NL)) i j
  = Ok (c ++ [e +:+ " " +:+ Py.str (count_bases b)]).
Proof.
  intros Hi Hj. unfold __get_length.
  rewrite (slice_to_end a (b +:+ NL) (i - mn) (j - mn)) by lia.
  rewrite len_replace_newlines, count_bases_body, last_snoc.
  cbn [mbind result_bind]. by rewrite set_last_snoc.
Qed.

(** The loop over the headers that follow the record [r], for a worker
    whose range starts at [mn]: when it ends, [__get_length] up to [mx], at
    the end of the text or after it, completes the index. *)
Lemma map_loop_at (w mn mx : Z) (l : list Fasta) :
  ∀ (before : string) (r : Fasta) (c : list string) (data : string)
    (p off : Z),
    0 ≤ mn →
    Forall well_formed (r :: l) →
    data = before +:+ render r +:+ fasta_text l →
    p = Py.len before + Py.len (header r) + 2 →
    off = Py.len before + Py.len (render r) →
    mn + Py.len data ≤ mx →
    ∃ st,
      for_each (map_head w mn data)
        {| first_sequence := false; prev := mn + p;
           content :=
             c ++ [entry (name_of r) 1 (mn + Py.len before) (mn + p)] |}
        (header_matches off l) = Ok st
      ∧ __get_length mn (content st) data (prev st) mx
        = Ok (c ++ index_of (mn + Py.len before) (r :: l)).
Proof.
  induction l as [|r' l IH];
    intros before r c data p off Hmn Hwf Hdata Hp Hoff Hmx.
  - eexists. split; [reflexivity|]. cbn [content prev index_of].
    subst data. cbn [fasta_text] in Hmx |- *. unfold render at 1.
    replace (before +:+ (">" +:+ header r +:+ NL +:+ body r +:+ NL) +:+ "")
      with ((before +:+ ">" +:+ header r +:+ NL) +:+ (body r +:+ NL))
      by streq.
    rewrite get_length_last_at.
    + rewrite Hp.
      replace (mn + Py.len before + Py.len (header r) + 2)
        with (mn + (Py.len before + Py.len (header r) + 2)) by lia.
      reflexivity.
    + rewrite Hp. lens.
    + revert Hmx. rewrite ?len_render. unfold render, NL.
      rewrite ?len_app, ?len_cons. change (Py.len "") with 0. lia.
  - pose proof Hwf as Hwf'. apply Forall_cons in Hwf' as [Hr Hwf'].
    cbn [header_matches for_each].
    assert (Hlen := len_render r).
    pose proof (len_nonneg before). pose proof (len_nonneg (header r)).
    pose proof (len_nonneg (body r)).
    assert (Hstep :
      map_head w mn data
        {| first_sequence := false; prev := mn + p;
           content :=
             c ++ [entry (name_of r) 1 (mn + Py.len before) (mn + p)] |}
        {| m_start := off; m_end := off + Py.len (header r') + 2 |}
      = Ok {| first_sequence := false;
              prev := mn + (off + Py.len (header r') + 2);
              content :=
                (c ++ [entry_len (name_of r) 1 (mn + Py.len before) (mn + p)
                         (count_bases (body r))])
                  ++ [entry (name_of r') 1 (mn + off)
                        (mn + (off + Py.len (header r') + 2))] |}).
    { unfold map_head.
      cbn [first_sequence prev content m_start m_end].
      destruct (Z.eqb_spec (mn + p) (mn + off)) as [Heq|_]; [lia|].
      destruct (Z.eqb_spec (mn + p) (-1)) as [Heq|_]; [lia|].
      cbn [negb].
      assert (Hget :
        __get_length mn
          (c ++ [entry (name_of r) 1 (mn + Py.len before) (mn + p)]) data
          (mn + p) (mn + off)
        = Ok (c ++ [entry_len (name_of r) 1 (mn + Py.len before) (mn + p)
                      (count_bases (body r))])).
      { subst data. unfold render at 1.
        replace (before +:+ (">" +:+ header r +:+ NL +:+ body r +:+ NL)
                   +:+ fasta_text (r' :: l))
          with ((before +:+ ">" +:+ header r +:+ NL) +:+ (body r +:+ NL)
                  +:+ fasta_text (r' :: l)) by streq.
        apply get_length_body_at.
        - rewrite Hp. lens.
        - rewrite Hoff. lens. }
      rewrite Hget. cbn [mbind result_bind].
      assert (Hentry :
        sequence_entry data
          {| m_start := off; m_end := off + Py.len (header r') + 2 |}
          (mn + off) (mn + (off + Py.len (header r') + 2))
        = entry (name_of r') 1 (mn + off)
            (mn + (off + Py.len (header r') + 2))).
      { subst data. cbn [fasta_text]. unfold render at 2.
        replace (before +:+ render r
                   +:+ (">" +:+ header r' +:+ NL +:+ body r' +:+ NL)
                   +:+ fasta_text l)
          with ((before +:+ render r) +:+ (">" +:+ header r' +:+ NL)
                  +:+ (body r' +:+ NL +:+ fasta_text l)) by streq.
        apply sequence_entry_header; cbn [m_start m_end];
          rewrite ?Hoff; lens. }
      rewrite Hentry. reflexivity. }
    rewrite Hstep. cbn [mbind result_bind].
    destruct (IH (before +:+ render r) r'
                (c ++ [entry_len (name_of r) 1 (mn + Py.len before) (mn + p)
                         (count_bases (body r))])
                data (off + Py.len (header r') + 2)
                (off + Py.len (render r')) Hmn Hwf')
      as (st & Hloop & Hfinal).
    + subst data. cbn [fasta_text]. streq.
    + rewrite len_app. lia.
    + rewrite len_app. lia.
    + done.
    + exists st. rewrite len_app in Hloop, Hfinal.
      rewrite <- Hoff in Hloop, Hfinal.
      split; [exact Hloop|]. rewrite Hfinal, <- app_assoc.
      cbn [index_of app]. rewrite Hp, Hoff.
      replace (mn + Py.len before + Py.len (header r) + 2)
        with (mn + (Py.len before + Py.len (header r) + 2)) by lia.
      replace (mn + Py.len before + Py.len (render r))
        with (mn + (Py.len before + Py.len (render r))) by lia.
      reflexivity.
Qed.

(** The loop over all the headers of a text of records. *)
Lemma map_loop_whole_at (w mn mx : Z) (r : Fasta) (l : list Fasta) :
  0 ≤ mn →
  Forall well_formed (r :: l) →
  mn + Py.len (fasta_text (r :: l)) ≤ mx →
  ∃ st,
    for_each (map_head w mn (fasta_text (r :: l))) loop_start
      (header_matches 0 (r :: l)) = Ok st
    ∧ __get_length mn (content st) (fasta_text (r :: l)) (prev st) mx
      = Ok (index_of mn (r :: l)).
Proof.
  intros Hmn Hwf Hmx. set (text := fasta_text (r :: l)) in *.
  pose proof (len_nonneg (header r)).
  assert (Hfirst :
    map_head w mn text loop_start
      {| m_start := 0; m_end := 0 + Py.len (header r) + 2 |}
    = Ok {| first_sequence := false; prev := mn + (Py.len (header r) + 2);
            content := [] ++ [entry (name_of r) 1 (mn + 0)
                                (mn + (Py.len (header r) + 2))] |}).
  { unfold map_head, loop_start.
    cbn [first_sequence prev content m_start m_end].
    destruct (Z.gtb_spec (mn + 0 - 1) mn) as [Hgt|_]; [lia|].
    rewrite andb_false_r.
    destruct (Z.eqb_spec (-1) (mn + 0)) as [Heq|_]; [lia|].
    cbn [negb Z.eqb mbind result_bind app].
    assert (Hentry :
      sequence_entry text
        {| m_start := 0; m_end := 0 + Py.len (header r) + 2 |}
        (mn + 0) (mn + (0 + Py.len (header r) + 2))
      = entry (name_of r) 1 (mn + 0) (mn + (0 + Py.len (header r) + 2))).
    { subst text. cbn [fasta_text]. unfold render at 1.
      replace ((">" +:+ header r +:+ NL +:+ body r +:+ NL) +:+ fasta_text l)
        with ("" +:+ (">" +:+ header r +:+ NL)
                +:+ (body r +:+ NL +:+ fasta_text l))
        by streq.
      apply sequence_entry_header; reflexivity. }
    rewrite Hentry. rewrite !Z.add_0_l. reflexivity. }
  cbn [header_matches for_each]. rewrite Hfirst. cbn [mbind result_bind].
  destruct (map_loop_at w mn mx l "" r [] text (Py.len (header r) + 2)
              (0 + Py.len (render r)) Hmn Hwf)
    as (st & Hloop & Hfinal); [reflexivity..|done|].
  change (Py.len "") with 0 in Hloop, Hfinal.
  rewrite Z.add_0_r in Hfinal. by exists st.
Qed.

Lemma map_tail_whole_at (mn mx : Z) (data : string) (ini heads : list Match)
    (ih h : Match) (st : LoopState) :
  Py.last ini = Ok ih → Py.last heads = Ok h →
  m_start ih + 1 = m_start h →
  map_tail mn mx data ini heads st
  = __get_length mn (content st) data (prev st) mx.
Proof.
  intros Hn Hh Hs. unfold map_tail. rewrite Hn, Hh. cbn [mbind result_bind].
  destruct (Z.gtb_spec (m_start ih + 1) (m_start h)) as [Hgt|_]; [lia|].
  destruct heads as [|m heads]; [done|]. cbn [length].
  by destruct (Z.eqb_spec (Z.of_nat (S (length heads))) 0) as [Heq|_].
Qed.

(** For any worker, when the text of the chunk is made of at least
    two whole records (a header line [>] with a text that is not empty, a
    body whose lines end with a newline and hold no [>]) and the range of
    the worker reaches the end of the text, [map] returns one entry for each
    record, in order, with the span 1, the offsets of the header and of the
    bases counted from the start of the object, and the number of the
    characters of the body that are not newlines. *)
Lemma map_on_whole_records (r1 r2 : Fasta) (l : list Fasta) (key : string)
    (worker_id chunk_size obj_size partitions : Z) :
  0 ≤ worker_id * chunk_size →
  Forall well_formed (r1 :: r2 :: l) →
  worker_id * chunk_size + Py.len (fasta_text (r1 :: r2 :: l))
    ≤ (map_range worker_id chunk_size obj_size partitions).2 →
  map (fasta_text (r1 :: r2 :: l)) worker_id key chunk_size obj_size partitions
  = Ok {| min_range := worker_id * chunk_size;
          max_range := (map_range worker_id chunk_size obj_size partitions).2;
          sequences := index_of (worker_id * chunk_size) (r1 :: r2 :: l) |}.
Proof.
  intros Hmn Hwf Hmx. unfold map_range in *. cbn [snd] in *.
  set (text := fasta_text (r1 :: r2 :: l)) in *.
  set (mn := worker_id * chunk_size) in *.
  set (mx := if worker_id =? partitions - 1 then obj_size
             else (worker_id + 1) * chunk_size) in *.
  unfold map. fold mn mx loop_start.
  assert (Hini : Re.newline_gt 0 text
                 = newline_matches (0 + Py.len (render r1)) (r2 :: l))
    by (by apply newline_gt_fasta).
  assert (Hheads : Re.header_line 0 0 text = header_matches 0 (r1 :: r2 :: l))
    by (by apply header_line_fasta).
  rewrite Hini, Hheads.
  destruct (last_matches (r2 :: l) (0 + Py.len (render r1)) ltac:(done))
    as (mh & ih & Hh & Hn & Hs).
  destruct (map_loop_whole_at worker_id mn mx r1 (r2 :: l) Hmn Hwf Hmx)
    as (st & Hloop & Hfinal).
  fold text in Hloop, Hfinal.
  destruct (newline_matches (0 + Py.len (render r1)) (r2 :: l))
    as [|m ms] eqn:Hms; [done|].
  cbn [mbind result_bind]. rewrite Hloop. cbn [mbind result_bind].
  assert (Hh' : Py.last (header_matches 0 (r1 :: r2 :: l)) = Ok mh)
    by exact (last_cons_Ok _ _ _ Hh).
  rewrite (map_tail_whole_at mn mx text (m :: ms) _ ih mh st Hn Hh' Hs).
  rewrite Hfinal. reflexivity.
Qed.

(** X10: for any worker, when the text of the chunk is made of at least
    two whole records (a header line [>] with a text that is not empty, a
    body whose lines end with a newline and hold no [>]) and the range of
    the worker reaches the end of the text, [map] returns one entry for each
    record, in order, with the span 1, the offsets of the header and of the
    bases counted from the start of the object, and the number of the
    characters of the body that are not newlines; there is one entry for
    each line of the chunk that starts with [>]. *)
Theorem map_whole_records (r1 r2 : Fasta) (l : list Fasta) (key : string)
    (worker_id chunk_size obj_size partitions : Z) :
  0 ≤ worker_id * chunk_size →
  Forall well_formed (r1 :: r2 :: l) →
  worker_id * chunk_size + Py.len (fasta_text (r1 :: r2 :: l))
    ≤ (map_range worker_id chunk_size obj_size partitions).2 →
  map (fasta_text (r1 :: r2 :: l)) worker_id key chunk_size obj_size partitions
  = Ok {| min_range := worker_id * chunk_size;
          max_range := (map_range worker_id chunk_size obj_size partitions).2;
          sequences := index_of (worker_id * chunk_size) (r1 :: r2 :: l) |}
  ∧ length (index_of (worker_id * chunk_size) (r1 :: r2 :: l))
    = header_lines (fasta_text (r1 :: r2 :: l)).
Proof.
  intros Hmn Hwf Hmx. split.
  - by apply map_on_whole_records.
  - by rewrite length_index_of, header_lines_fasta.
Qed.

Lemma map_whole_records_witness :
  map (unlines [">s3"; "GG"; ">s4 x"; "TT"]) 1 "key" 16 32 2
  = Ok {| min_range := 16; max_range := 32;
          sequences := ["s3" +:+ NL +:+ " 1 16 20 2"; "s4 1 23 29 2"] |}
  ∧ length ["s3" +:+ NL +:+ " 1 16 20 2"; "s4 1 23 29 2"]
    = header_lines (unlines [">s3"; "GG"; ">s4 x"; "TT"]).
Proof.
  assert (Hwf : Forall well_formed
                  [ {| header := "s3"; body := "GG" |};
                    {| header := "s4 x"; body := "TT" |} ])
    by (repeat constructor; (discriminate || reflexivity)).
  refine (map_whole_records _ _ [] "key" 1 16 32 2 _ Hwf _); vm_compute;
    discriminate.
Defined.

(** ** Objects cut at the boundaries of their records *)

Lemma fasta_text_app (l1 l2 : list Fasta) :
  fasta_text (l1 ++ l2) = fasta_text l1 +:+ fasta_text l2.
Proof.
  induction l1 as [|r l1 IH]; [reflexivity|].
  cbn [app fasta_text]. by rewrite IH, str_app_assoc.
Qed.

Lemma index_of_app (off : Z) (l1 l2 : list Fasta) :
  index_of off (l1 ++ l2)
  = index_of off l1 ++ index_of (off + Py.len (fasta_text l1)) l2.
Proof.
  revert off. induction l1 as [|r l1 IH]; intros off.
  - cbn. change (Py.len "") with 0. by rewrite Z.add_0_r.
  - cbn [app index_of fasta_text]. rewrite IH, len_app.
    by rewrite Z.add_assoc.
Qed.

Lemma len_full_chunks (cs : Z) (pre : list (list Fasta)) :
  Forall (full_chunk cs) pre →
  Py.len (fasta_text (concat pre)) = Z.of_nat (length pre) * cs.
Proof.
  induction pre as [|c pre IH]; intros H; [reflexivity|].
  apply Forall_cons in H as [[_ Hc] H].
  cbn [concat length]. rewrite fasta_text_app, len_app, Hc, (IH H). lia.
Qed.

Lemma len_whole_chunk (c : list Fasta) : whole_chunk c → 0 < Py.len (fasta_text c).
Proof.
  intros [Hlen _]. destruct c as [|r c]; [cbn in Hlen; lia|].
  cbn [fasta_text]. rewrite len_app, len_render.
  pose proof (len_nonneg (header r)). pose proof (len_nonneg (body r)).
  pose proof (len_nonneg (fasta_text c)). lia.
Qed.

(** [replace(c, '')] leaves no [c]. *)
Lemma replace_char_lacks (c : ascii) (s : string) :
  lacks c (Py.replace (String c "") "" s).
Proof.
  unfold lacks. rewrite replace_nonempty.
  induction s as [|a s IH]; [reflexivity|].
  cbn [Py.replace_scan]. rewrite prefix_cons, prefix_nil, andb_true_r.
  cbn [String.length Nat.pred].
  destruct (Ascii.eqb a c) eqn:Hac.
  - exact IH.
  - cbn [Py.has_char]. rewrite Hac. exact IH.
Qed.

(** The entry of a record is not taken for a head-split marker. *)
Lemma entry_len_no_head_split (r : Fasta) (sp oh ob len : Z) :
  Py.contains ">>" (entry_len (name_of r) sp oh ob len) = false.
Proof.
  apply (contains_absent ">"); [reflexivity|].
  pose proof (replace_char_lacks ">" (first_field " " (">" +:+ header r +:+ NL)))
    as Hname.
  unfold entry_len, entry, name_of. lacks.
Qed.

Lemma aligned_records_no_head_split (cs os n k : Z) (chunks : list (list Fasta)) :
  no_head_split (aligned_records cs os n k chunks) = true.
Proof.
  revert k. induction chunks as [|c chunks IH]; intros k; [reflexivity|].
  cbn [aligned_records no_head_split forallb sequences].
  fold (no_head_split (aligned_records cs os n (k + 1) chunks)).
  rewrite IH, andb_true_r. destruct c as [|r c]; [reflexivity|].
  cbn [index_of]. by rewrite entry_len_no_head_split.
Qed.

Lemma aligned_records_index (cs os n : Z) (full : list (list Fasta))
    (last : list Fasta) (k : Z) :
  Forall (full_chunk cs) full →
  sequence_index (aligned_records cs os n k (full ++ [last]))
  = index_of (k * cs) (concat (full ++ [last])).
Proof.
  unfold sequence_index. revert k.
  induction full as [|c full IH]; intros k Hfull.
  - cbn. by rewrite !app_nil_r.
  - apply Forall_cons in Hfull as [[_ Hc] Hfull].
    cbn [app aligned_records fmap list_fmap concat sequences].
    change (list_fmap _ _ sequences ?l) with (sequences <$> l).
    rewrite (IH (k + 1) Hfull), index_of_app, Hc.
    by replace ((k + 1) * cs) with (k * cs + cs) by lia.
Qed.

Lemma length_aligned_records (cs os n k : Z) (chunks : list (list Fasta)) :
  length (aligned_records cs os n k chunks) = length chunks.
Proof.
  revert k. induction chunks as [|c chunks IH]; intros k; [reflexivity|].
  cbn [aligned_records length]. by rewrite IH.
Qed.

(** An iteration of [reduce] on a list without head-split marker. *)
Lemma reduce_body_no_head_split (results : list PartialRecord) (i : Z) :
  no_head_split results = true →
  0 ≤ i < Z.of_nat (length results) →
  reduce_body results i = Ok results.
Proof.
  intros Hno Hi. unfold reduce_body.
  destruct (get_in_range results i ltac:(lia)) as (dict & Hdict).
  destruct (get_in_range results (i - 1) ltac:(lia)) as (dict_prev & Hprev).
  rewrite Hdict, Hprev. cbn [mbind result_bind].
  destruct (i >? 0); [|reflexivity].
  destruct (sequences dict_prev); [reflexivity|].
  destruct (sequences dict) as [|d0 rest] eqn:Hseq; [reflexivity|].
  apply get_elem_of in Hdict.
  unfold no_head_split in Hno. rewrite forallb_forall in Hno.
  apply list_elem_of_In, Hno in Hdict. rewrite Hseq in Hdict.
  apply negb_true_iff in Hdict. by rewrite Hdict.
Qed.

(** A chunk of the list is the last one, or one of the full ones. *)
Lemma split_chunks (cs : Z) (full : list (list Fasta)) (last : list Fasta)
    (pre : list (list Fasta)) (c : list Fasta) (suf : list (list Fasta)) :
  Forall (full_chunk cs) full → whole_chunk last →
  full ++ [last] = pre ++ c :: suf →
  Forall (full_chunk cs) pre ∧ whole_chunk c
  ∧ (if decide (suf = []) then c = last else Py.len (fasta_text c) = cs).
Proof.
  intros Hfull Hlast. revert pre.
  induction Hfull as [|f full' Hf Hfull' IH]; intros pre Hsplit.
  - destruct pre as [|p pre].
    + injection Hsplit as <- <-. split; [done|]. split; [done|].
      by destruct (decide _).
    + injection Hsplit as _ Hsplit. by destruct pre.
  - destruct pre as [|p pre].
    + injection Hsplit as <- <-. split; [done|]. split; [apply Hf|].
      destruct (decide (full' ++ [last] = [])) as [He|_];
        [by destruct full'|apply Hf].
    + injection Hsplit as <- Hsplit.
      destruct (IH pre Hsplit) as (? & ? & ?).
      split; [by constructor|done].
Qed.

Section Aligned.

Variable key : string.
Variable cs : Z.
Variable full : list (list Fasta).
Variable last : list Fasta.

Hypothesis Hfull : Forall (full_chunk cs) full.
Hypothesis Hlast : whole_chunk last.
Hypothesis Hfits : Py.len (fasta_text last) ≤ cs.

Let chunks := full ++ [last].
Let text := fasta_text (concat chunks).
Let os := Py.len text.
Let n := Z.of_nat (length chunks).

Hypothesis Hsmall : os < 2 ^ 53.
Hypothesis Hcs_small : cs < 2 ^ 53.

Lemma aligned_size : os = (n - 1) * cs + Py.len (fasta_text last).
Proof.
  subst os text n chunks. rewrite concat_app, fasta_text_app, len_app.
  rewrite (len_full_chunks cs full Hfull), length_app. cbn [concat length].
  rewrite app_nil_r. lia.
Qed.

Lemma aligned_iterations : 0 < cs ∧ ceil_div os cs = n.
Proof.
  pose proof (len_whole_chunk last Hlast) as Hpos.
  assert (Hcs : 0 < cs) by lia. split; [done|].
  pose proof (ceil_div_bounds os cs Hcs) as [Hlo Hhi].
  pose proof aligned_size as Hsize. nia.
Qed.

(** The worker [k] on its chunk [c]: what the store hands out for its
    range is the text of [c], and [map] gives the entries of [c]. *)
Lemma map_worker_aligned (pre suf : list (list Fasta)) (c : list Fasta)
    (acc : list PartialRecord) (k : Z) :
  chunks = pre ++ c :: suf →
  k = Z.of_nat (length pre) →
  map_worker (text_store text) key os cs n acc k
  = Ok (acc ++ [ {| min_range := k * cs;
                    max_range := (map_range k cs os n).2;
                    sequences := index_of (k * cs) c |} ]).
Proof.
  intros Hsplit Hk.
  destruct aligned_iterations as [Hcs _].
  pose proof aligned_size as Hsize.
  pose proof (split_chunks cs full last pre c suf Hfull Hlast Hsplit) as Hpre.
  destruct Hpre as (Hpre & Hc & Hsuf).
  assert (Hn : n = Z.of_nat (length pre) + 1 + Z.of_nat (length suf)).
  { subst n. rewrite Hsplit, length_app. cbn [length]. lia. }
  assert (Ha : Py.len (fasta_text (concat pre)) = k * cs)
    by (rewrite Hk; by apply len_full_chunks).
  assert (Htext : text = fasta_text (concat pre) +:+ fasta_text c
                           +:+ fasta_text (concat suf)).
  { subst text. rewrite Hsplit, concat_app. cbn [concat].
    by rewrite !fasta_text_app. }
  pose proof (len_whole_chunk c Hc) as Hclen.
  pose proof (len_nonneg (fasta_text (concat suf))) as Hsuflen.
  assert (Hos : os = k * cs + Py.len (fasta_text c)
                     + Py.len (fasta_text (concat suf))).
  { subst os. rewrite Htext, !len_app. lia. }
  assert (Hend : (byte_range os cs k).2 = k * cs + Py.len (fasta_text c)
                 ∧ k * cs + Py.len (fasta_text c) ≤ (map_range k cs os n).2).
  { unfold byte_range, map_range. cbn [snd].
    destruct (decide (suf = [])) as [->|Hne].
    - subst c. cbn [concat fasta_text length] in Hos, Hn.
      change (Py.len "") with 0 in Hos.
      destruct (Z.eqb_spec k (n - 1)); [|lia].
      destruct (Z.leb_spec (k * cs + cs) os); lia.
    - assert (0 < Z.of_nat (length suf)) by (destruct suf; [done|cbn; lia]).
      destruct (Z.eqb_spec k (n - 1)); [lia|].
      destruct (Z.leb_spec (k * cs + cs) os); lia. }
  destruct Hend as [Hr1 Hmx].
  unfold map_worker. destruct (byte_range os cs k) as [r0 r1] eqn:Hrange.
  assert (Hr0 : r0 = k * cs) by (unfold byte_range in Hrange; congruence).
  cbn [snd] in Hr1. subst r0 r1.
  assert (Hstore : text_store text (k * cs) (k * cs + Py.len (fasta_text c))
                   = fasta_text c).
  { unfold text_store. rewrite Htext. apply slice_middle; lia. }
  rewrite Hstore.
  destruct Hc as [Hlen Hwf]. destruct c as [|r1 [|r2 l]]; [cbn in Hlen; lia..|].
  rewrite (map_on_whole_records r1 r2 l key k cs os n) by (done || nia).
  reflexivity.
Qed.

(** The loop over the workers: each one adds the record of its chunk. *)
Lemma map_workers_aligned (suf : list (list Fasta)) :
  ∀ (pre : list (list Fasta)) (acc : list PartialRecord),
    chunks = pre ++ suf →
    for_each (map_worker (text_store text) key os cs n) acc
      (List.map (λ j, 0 + Z.of_nat j) (seq (length pre) (length suf)))
    = Ok (acc ++ aligned_records cs os n (Z.of_nat (length pre)) suf).
Proof.
  induction suf as [|c suf IH]; intros pre acc Hsplit.
  - cbn. by rewrite app_nil_r.
  - cbn [length seq List.map for_each aligned_records].
    rewrite (map_worker_aligned pre suf c acc _ Hsplit) by lia.
    cbn [mbind result_bind].
    specialize (IH (pre ++ [c])
                  (acc ++ [ {| min_range := (0 + Z.of_nat (length pre)) * cs;
                               max_range :=
                                 (map_range (0 + Z.of_nat (length pre))
                                    cs os n).2;
                               sequences :=
                                 index_of ((0 + Z.of_nat (length pre)) * cs) c
                            |} ])).
    rewrite length_app in IH. cbn [length] in IH.
    replace (length pre + 1)%nat with (S (length pre)) in IH by lia.
    rewrite IH by (by rewrite <- app_assoc).
    rewrite <- app_assoc. cbn [app]. rewrite !Z.add_0_l.
    by replace (Z.of_nat (S (length pre))) with (Z.of_nat (length pre) + 1)
      by lia.
Qed.

(** [map] on every range and [reduce], on an object cut at the boundaries
    of its records. *)
Lemma map_reduce_aligned :
  map_reduce (text_store text) key os (Some cs) None
  = Ok (aligned_records cs os n 0 chunks).
Proof.
  destruct aligned_iterations as [Hcs Hn].
  unfold map_reduce.
  rewrite chunking_chunk_size by (pose proof (len_nonneg text); lia).
  cbn [mbind result_bind]. rewrite Hn.
  unfold Py.range. rewrite Z.sub_0_r.
  replace (Z.to_nat n) with (length chunks) by (unfold n; lia).
  pose proof (map_workers_aligned chunks [] [] eq_refl) as Hloop.
  change (length (@nil (list Fasta))) with O in Hloop.
  change (Z.of_nat 0) with 0 in Hloop. cbn [app] in Hloop.
  rewrite Hloop. cbn [mbind result_bind].
  set (rs := aligned_records _ _ _ _ _).
  unfold reduce.
  destruct (Z.of_nat (length rs) >? 1); [|reflexivity].
  apply for_each_fixed. intros i Hi. apply elem_of_range in Hi.
  apply reduce_body_no_head_split; [|lia].
  apply aligned_records_no_head_split.
Qed.

End Aligned.

(** X11: an object made of whole records and cut at their boundaries, every
    chunk but the last one holding exactly [chunk_size] characters, the last
    one at most as many, and every chunk at least two records, the sizes
    being below [2 ^ 53].  [map] called on the text of every range
    (half-open, for the chunk size given) and [reduce] called on the list of
    the records raise nothing, [reduce] changes nothing, there is one record
    for each chunk, and the entries of the records, in order, are the
    entries of the records of the object, with their offsets in the
    object. *)
Theorem aligned_chunks_give_the_index (key : string) (chunk_size : Z)
    (full : list (list Fasta)) (last : list Fasta) :
  Forall (full_chunk chunk_size) full →
  whole_chunk last →
  Py.len (fasta_text last) ≤ chunk_size →
  Py.len (fasta_text (concat (full ++ [last]))) < 2 ^ 53 →
  chunk_size < 2 ^ 53 →
  ∃ results,
    map_reduce (text_store (fasta_text (concat (full ++ [last]))))
      key (Py.len (fasta_text (concat (full ++ [last]))))
      (Some chunk_size) None
    = Ok results
    ∧ length results = length (full ++ [last])
    ∧ sequence_index results = index_of 0 (concat (full ++ [last])).
Proof.
  intros Hfull Hlast Hfits Hsmall Hcs. eexists. split.
  - by apply map_reduce_aligned.
  - split; [apply length_aligned_records|].
    by rewrite aligned_records_index.
Qed.

Lemma aligned_chunks_give_the_index_witness :
  ∃ results,
    map_reduce
      (text_store
         (fasta_text
            (concat ([[ {| header := "s1"; body := "AAAA" |};
                        {| header := "s2 x"; body := "CC" |} ]]
                     ++ [[ {| header := "s3"; body := "GG" |};
                           {| header := "s4"; body := "T" |} ]]))))
      "key"
      (Py.len
         (fasta_text
            (concat ([[ {| header := "s1"; body := "AAAA" |};
                        {| header := "s2 x"; body := "CC" |} ]]
                     ++ [[ {| header := "s3"; body := "GG" |};
                           {| header := "s4"; body := "T" |} ]]))))
      (Some 18) None
    = Ok results
    ∧ length results
      = length ([[ {| header := "s1"; body := "AAAA" |};
                   {| header := "s2 x"; body := "CC" |} ]]
                ++ [[ {| header := "s3"; body := "GG" |};
                      {| header := "s4"; body := "T" |} ]])
    ∧ sequence_index results
      = index_of 0
          (concat ([[ {| header := "s1"; body := "AAAA" |};
                      {| header := "s2 x"; body := "CC" |} ]]
                   ++ [[ {| header := "s3"; body := "GG" |};
                         {| header := "s4"; body := "T" |} ]])).
Proof.
  apply (aligned_chunks_give_the_index "key" 18).
  - constructor; [|constructor]. split; [|reflexivity].
    split; [cbn; lia|]. repeat constructor; (discriminate || reflexivity).
  - split; [cbn; lia|]. repeat constructor; (discriminate || reflexivity).
  - vm_compute. discriminate.
  - reflexivity.
  - reflexivity.
Defined.

(** ** The number of bases that [__get_length] appends *)

Lemma count_bases_bounds (s : string) : 0 ≤ count_bases s ≤ Py.len s.
Proof.
  induction s as [|c s IH]; [done|].
  cbn [count_bases]. rewrite len_cons. destruct (Ascii.eqb c Py.nl); lia.
Qed.

(** X12: [__get_length] touches the last entry of [content] only: it
    appends a space and the number of the characters of
    [data[start_base - min_range : end_base - min_range]] that are not
    newlines, a number between 0 and the length of that slice; on an empty
    [content] it raises an [IndexError]. *)
Theorem get_length_appends_count (min_range : Z) (c : list string)
    (e data : string) (start_base end_base : Z) :
  let bases := Py.slice data (start_base - min_range) (end_base - min_range) in
  __get_length min_range (c ++ [e]) data start_base end_base
  = Ok (c ++ [e +:+ " " +:+ Py.str (count_bases bases)])
  ∧ 0 ≤ count_bases bases ≤ Py.len bases
  ∧ __get_length min_range [] data start_base end_base = Raise IndexError.
Proof.
  intros bases. split; [|split; [apply count_bases_bounds|reflexivity]].
  unfold __get_length. fold bases.
  rewrite len_replace_newlines, last_snoc. cbn [mbind result_bind].
  by rewrite set_last_snoc.
Qed.

(** ** The preprocesser of a wrapper *)

(** X13: [_get_preprocesser] returns the preprocesser of the first wrapper
    that has one, starting with the wrapper itself and going up the wrappers
    it inherits from; it raises [Exception('There is not preprocesser')]
    exactly when none of them has one. *)
Theorem get_preprocesser_is_the_nearest {P C} (w : CloudObjectWrapper P C) :
  _get_preprocesser w
  = match omap own_preprocesser (lineage w) with
    | p :: _ => Ok p
    | [] => Raise (Exception "There is not preprocesser")
    end.
Proof.
  induction w as [c p|c p parent IH].
  - by destruct p.
  - destruct p as [p|]; [reflexivity|]. exact IH.
Qed.

(** ** A sequence whose body is cut between two chunks *)

Lemma first_field_lacks_sep (sep : ascii) (s : string) :
  lacks sep (first_field sep s).
Proof.
  unfold first_field, lacks. induction s as [|c s IH]; [reflexivity|].
  cbn [Py.split]. destruct (Ascii.eqb c sep) eqn:Hc; [reflexivity|].
  destruct (Py.split sep s) as [|f fs].
  - cbn. by rewrite Hc.
  - cbn [Py.has_char]. by rewrite Hc, IH.
Qed.

Lemma first_field_lacks (c sep : ascii) (s : string) :
  lacks c s → lacks c (first_field sep s).
Proof.
  unfold first_field, lacks. induction s as [|a s IH]; [reflexivity|].
  cbn [Py.split Py.has_char]. intros [Ha Hs]%orb_false_elim.
  destruct (Ascii.eqb a sep); [reflexivity|].
  destruct (Py.split sep s) as [|f fs].
  - cbn. by rewrite Ha.
  - cbn [Py.has_char]. by rewrite Ha, (IH Hs).
Qed.

(** [replace(d, '')] adds no character. *)
Lemma replace_char_keeps_lacks (c d : ascii) (s : string) :
  lacks c s → lacks c (Py.replace (String d "") "" s).
Proof.
  unfold lacks. rewrite replace_nonempty.
  induction s as [|a s IH]; [reflexivity|].
  cbn [Py.has_char]. intros [Ha Hs]%orb_false_elim.
  cbn [Py.replace_scan]. rewrite prefix_cons, prefix_nil, andb_true_r.
  cbn [String.length Nat.pred].
  destruct (Ascii.eqb a d).
  - exact (IH Hs).
  - cbn [Py.has_char]. by rewrite Ha, (IH Hs).
Qed.

Lemma name_of_lacks_space (r : Fasta) : lacks " " (name_of r).
Proof.
  unfold name_of. apply replace_char_keeps_lacks, first_field_lacks_sep.
Qed.

Lemma name_of_lacks (c : ascii) (r : Fasta) :
  Ascii.eqb ">" c = false → Ascii.eqb Py.nl c = false →
  lacks c (header r) → lacks c (name_of r).
Proof.
  intros Hgt Hnl Hh. unfold name_of.
  apply replace_char_keeps_lacks, first_field_lacks.
  unfold lacks in *. rewrite !has_char_app, Hh. cbn [Py.has_char NL].
  by rewrite Hgt, Hnl.
Qed.

(** *** The matches in a text of records that something follows *)

Lemma header_line_lacks (pos : Z) (s : string) :
  lacks ">" s → Re.header_line pos O s = [].
Proof.
  intros Hs. rewrite <- (str_app_empty_r s).
  by rewrite (header_line_pass pos s "" Hs).
Qed.

Lemma header_line_header (pos : Z) (h t : string) :
  h ≠ "" → lacks Py.nl h →
  Re.header_line pos O (">" +:+ h +:+ NL +:+ t)
  = {| m_start := pos; m_end := pos + Py.len h + 2 |}
      :: Re.header_line (pos + Py.len h + 2) O t.
Proof.
  intros Hne Hnl.
  change (">" +:+ ?s) with (String ">" s).
  cbn [Re.header_line]. change (Ascii.eqb ">" Py.gt) with true. cbv iota.
  rewrite (find_nl_line _ _ Hnl).
  destruct h as [|c h]; [done|].
  cbn [String.length]. apply (f_equal2 cons); [reflexivity|].
  replace (S (S (String.length h)))
    with (String.length (String c h +:+ NL))
    by (rewrite str_length_app; cbn; lia).
  rewrite <- (str_app_assoc (String c h) NL).
  rewrite header_line_skip.
  f_equal. rewrite !len_app, len_cons. unfold NL. rewrite !len_cons.
  change (Py.len "") with 0. lia.
Qed.

Lemma header_line_records (pos : Z) (l : list Fasta) (t : string) :
  Forall well_formed l →
  Re.header_line pos O (fasta_text l +:+ t)
  = header_matches pos l ++ Re.header_line (pos + Py.len (fasta_text l)) O t.
Proof.
  revert pos. induction l as [|r l IH]; intros pos Hl.
  - cbn. change (Py.len "") with 0. by rewrite Z.add_0_r.
  - apply Forall_cons in Hl as [Hr Hl].
    cbn [fasta_text header_matches app]. rewrite str_app_assoc.
    rewrite (header_line_render pos r _ Hr), (IH _ Hl), len_app.
    by rewrite Z.add_assoc.
Qed.

Lemma newline_gt_lacks (pos : Z) (s : string) :
  lacks ">" s → Re.newline_gt pos s = [].
Proof.
  intros Hs. apply newline_gt_nil. by apply (contains_absent ">").
Qed.

Lemma prefix_gt_lacks_all (s : string) :
  lacks ">" s → String.prefix ">" s = false.
Proof.
  intros Hs. destruct s as [|c s]; [reflexivity|].
  apply lacks_cons in Hs as [Hc _]. by rewrite prefix_cons, Hc.
Qed.

Lemma newline_gt_render_then (pos : Z) (r : Fasta) (t : string) :
  well_formed r →
  Re.newline_gt pos (render r +:+ t)
  = (if String.prefix ">" t
     then [{| m_start := pos + Py.len (render r) - 1;
              m_end := pos + Py.len (render r) + 1 |}]
     else [])
      ++ Re.newline_gt (pos + Py.len (render r)) t.
Proof.
  intros (Hne & Hnl & Hgt). rewrite len_render. unfold render.
  change ((">" +:+ ?s) +:+ ?t) with (String ">" (s +:+ t)).
  cbn [Re.newline_gt]. change (Ascii.eqb ">" Py.nl) with false. cbn [andb].
  rewrite !str_app_assoc, (newline_gt_line _ _ _ Hnl).
  change (NL +:+ ?s) with (String Py.nl s) at 1.
  cbn [Re.newline_gt]. rewrite (prefix_gt_lacks _ _ Hgt), andb_false_r.
  rewrite (newline_gt_body _ _ _ Hgt).
  replace (pos + 1 + Py.len (header r) + 1 + Py.len (body r) + 1)
    with (pos + (Py.len (header r) + Py.len (body r) + 3)) by lia.
  replace (pos + 1 + Py.len (header r) + 1 + Py.len (body r) + 2)
    with (pos + (Py.len (header r) + Py.len (body r) + 3) + 1) by lia.
  replace (pos + 1 + Py.len (header r) + 1 + Py.len (body r))
    with (pos + (Py.len (header r) + Py.len (body r) + 3) - 1) by lia.
  reflexivity.
Qed.

(** The last match of [\n>] in records that a header follows is the one
    before that header, when nothing after it matches. *)
Lemma newline_gt_records (l : list Fasta) :
  ∀ (pos : Z) (r : Fasta) (t : string),
    Forall well_formed (r :: l) → String.prefix ">" t = true →
    Re.newline_gt (pos + Py.len (fasta_text (r :: l))) t = [] →
    ∃ ms, Re.newline_gt pos (fasta_text (r :: l) +:+ t)
          = ms ++ [{| m_start := pos + Py.len (fasta_text (r :: l)) - 1;
                      m_end := pos + Py.len (fasta_text (r :: l)) + 1 |}].
Proof.
  induction l as [|r' l IH]; intros pos r t Hwf Ht Hrest;
    apply Forall_cons in Hwf as [Hr Hwf].
  - cbn [fasta_text] in *. rewrite str_app_empty_r in *.
    rewrite (newline_gt_render_then pos r t Hr), Ht, Hrest.
    by exists [].
  - cbn [fasta_text] in *. rewrite str_app_assoc.
    rewrite (newline_gt_render_then pos r _ Hr).
    destruct (IH (pos + Py.len (render r)) r' t Hwf Ht) as (ms & Hms).
    { cbn [fasta_text]. rewrite len_app in Hrest.
      by rewrite <- Z.add_assoc. }
    cbn [fasta_text] in Hms. rewrite Hms. eexists.
    rewrite app_assoc. f_equal. rewrite !len_app. do 2 f_equal; lia.
Qed.

(** *** [map] on the chunk that ends inside the body *)

(** The loop over the headers that follow the record [r], in a text that
    goes on after the records: when it ends, [__get_length] up to the end
    of the records completes their entries. *)
Lemma map_loop_then (w mn : Z) (z : string) (l : list Fasta) :
  ∀ (before : string) (r : Fasta) (c : list string) (data : string)
    (p off : Z),
    0 ≤ mn →
    Forall well_formed (r :: l) →
    data = before +:+ render r +:+ fasta_text l +:+ z →
    p = Py.len before + Py.len (header r) + 2 →
    off = Py.len before + Py.len (render r) →
    ∃ st,
      for_each (map_head w mn data)
        {| first_sequence := false; prev := mn + p;
           content :=
             c ++ [entry (name_of r) 1 (mn + Py.len before) (mn + p)] |}
        (header_matches off l) = Ok st
      ∧ first_sequence st = false
      ∧ -1 < prev st < mn + Py.len before + Py.len (fasta_text (r :: l))
      ∧ __get_length mn (content st) data (prev st)
          (mn + Py.len before + Py.len (fasta_text (r :: l)))
        = Ok (c ++ index_of (mn + Py.len before) (r :: l)).
Proof.
  induction l as [|r' l IH];
    intros before r c data p off Hmn Hwf Hdata Hp Hoff.
  - pose proof (len_nonneg before). pose proof (len_nonneg (header r)).
    pose proof (len_nonneg (body r)). pose proof (len_render r).
    eexists. split; [reflexivity|]. cbn [content prev index_of first_sequence].
    split; [done|]. cbn [fasta_text]. rewrite str_app_empty_r.
    split; [lia|].
    subst data. cbn [fasta_text]. unfold render at 1.
    replace (before +:+ (">" +:+ header r +:+ NL +:+ body r +:+ NL) +:+ "" +:+ z)
      with ((before +:+ ">" +:+ header r +:+ NL) +:+ (body r +:+ NL) +:+ z)
      by streq.
    rewrite get_length_body_at.
    + rewrite Hp.
      replace (mn + Py.len before + Py.len (header r) + 2)
        with (mn + (Py.len before + Py.len (header r) + 2)) by lia.
      reflexivity.
    + rewrite Hp. lens.
    + lens.
  - pose proof Hwf as Hwf'. apply Forall_cons in Hwf' as [Hr Hwf'].
    cbn [header_matches for_each].
    assert (Hlen := len_render r).
    pose proof (len_nonneg before). pose proof (len_nonneg (header r)).
    pose proof (len_nonneg (body r)).
    assert (Hstep :
      map_head w mn data
        {| first_sequence := false; prev := mn + p;
           content :=
             c ++ [entry (name_of r) 1 (mn + Py.len before) (mn + p)] |}
        {| m_start := off; m_end := off + Py.len (header r') + 2 |}
      = Ok {| first_sequence := false;
              prev := mn + (off + Py.len (header r') + 2);
              content :=
                (c ++ [entry_len (name_of r) 1 (mn + Py.len before) (mn + p)
                         (count_bases (body r))])
                  ++ [entry (name_of r') 1 (mn + off)
                        (mn + (off + Py.len (header r') + 2))] |}).
    { unfold map_head.
      cbn [first_sequence prev content m_start m_end].
      destruct (Z.eqb_spec (mn + p) (mn + off)) as [Heq|_]; [lia|].
      destruct (Z.eqb_spec (mn + p) (-1)) as [Heq|_]; [lia|].
      cbn [negb].
      assert (Hget :
        __get_length mn
          (c ++ [entry (name_of r) 1 (mn + Py.len before) (mn + p)]) data
          (mn + p) (mn + off)
        = Ok (c ++ [entry_len (name_of r) 1 (mn + Py.len before) (mn + p)
                      (count_bases (body r))])).
      { subst data. unfold render at 1.
        replace (before +:+ (">" +:+ header r +:+ NL +:+ body r +:+ NL)
                   +:+ fasta_text (r' :: l) +:+ z)
          with ((before +:+ ">" +:+ header r +:+ NL) +:+ (body r +:+ NL)
                  +:+ fasta_text (r' :: l) +:+ z) by streq.
        apply get_length_body_at.
        - rewrite Hp. lens.
        - rewrite Hoff. lens. }
      rewrite Hget. cbn [mbind result_bind].
      assert (Hentry :
        sequence_entry data
          {| m_start := off; m_end := off + Py.len (header r') + 2 |}
          (mn + off) (mn + (off + Py.len (header r') + 2))
        = entry (name_of r') 1 (mn + off)
            (mn + (off + Py.len (header r') + 2))).
      { subst data. cbn [fasta_text]. unfold render at 2.
        replace (before +:+ render r
                   +:+ ((">" +:+ header r' +:+ NL +:+ body r' +:+ NL)
                          +:+ fasta_text l) +:+ z)
          with ((before +:+ render r) +:+ (">" +:+ header r' +:+ NL)
                  +:+ (body r' +:+ NL +:+ fasta_text l +:+ z)) by streq.
        apply sequence_entry_header; cbn [m_start m_end];
          rewrite ?Hoff; lens. }
      rewrite Hentry. reflexivity. }
    rewrite Hstep. cbn [mbind result_bind].
    destruct (IH (before +:+ render r) r'
                (c ++ [entry_len (name_of r) 1 (mn + Py.len before) (mn + p)
                         (count_bases (body r))])
                data (off + Py.len (header r') + 2)
                (off + Py.len (render r')) Hmn Hwf')
      as (st & Hloop & Hfirst & Hprev & Hfinal).
    + subst data. cbn [fasta_text]. streq.
    + rewrite len_app. lia.
    + rewrite len_app. lia.
    + exists st. rewrite len_app in Hloop, Hprev, Hfinal.
      rewrite <- Hoff in Hloop, Hfinal.
      assert (Hend : mn + (Py.len before + Py.len (render r))
                       + Py.len (fasta_text (r' :: l))
                     = mn + Py.len before + Py.len (fasta_text (r :: r' :: l))).
      { cbn [fasta_text]. rewrite !len_app. lia. }
      rewrite <- Hoff in Hend at 1.
      rewrite Hend in Hfinal.
      split; [exact Hloop|]. split; [done|]. split; [lia|].
      rewrite Hfinal, <- app_assoc.
      cbn [index_of app]. rewrite Hp, Hoff.
      replace (mn + Py.len before + Py.len (header r) + 2)
        with (mn + (Py.len before + Py.len (header r) + 2)) by lia.
      replace (mn + Py.len before + Py.len (render r))
        with (mn + (Py.len before + Py.len (render r))) by lia.
      reflexivity.
Qed.

Lemma get_length_tail_at (mn : Z) (c : list string) (e : string)
    (a m : string) (i j : Z) :
  i = mn + Py.len a → mn + Py.len a + Py.len m ≤ j →
  __get_length mn (c ++ [e]) (a +:+ m) i j
  = Ok (c ++ [e +:+ " " +:+ Py.str (count_bases m)]).
Proof.
  intros Hi Hj. unfold __get_length.
  rewrite (slice_to_end a m (i - mn) (j - mn)) by lia.
  rewrite len_replace_newlines, last_snoc.
  cbn [mbind result_bind]. by rewrite set_last_snoc.
Qed.

(** The loop over all the headers of records that something follows. *)
Lemma map_loop_whole_then (w mn : Z) (z : string) (r : Fasta) (l : list Fasta) :
  0 ≤ mn →
  Forall well_formed (r :: l) →
  ∃ st,
    for_each (map_head w mn (fasta_text (r :: l) +:+ z)) loop_start
      (header_matches 0 (r :: l)) = Ok st
    ∧ first_sequence st = false
    ∧ -1 < prev st < mn + Py.len (fasta_text (r :: l))
    ∧ __get_length mn (content st) (fasta_text (r :: l) +:+ z) (prev st)
        (mn + Py.len (fasta_text (r :: l)))
      = Ok (index_of mn (r :: l)).
Proof.
  intros Hmn Hwf. set (text := fasta_text (r :: l) +:+ z) in *.
  pose proof (len_nonneg (header r)).
  assert (Htext : text = "" +:+ render r +:+ fasta_text l +:+ z).
  { subst text. cbn [fasta_text]. streq. }
  assert (Hfirst :
    map_head w mn text loop_start
      {| m_start := 0; m_end := 0 + Py.len (header r) + 2 |}
    = Ok {| first_sequence := false; prev := mn + (Py.len (header r) + 2);
            content := [] ++ [entry (name_of r) 1 (mn + 0)
                                (mn + (Py.len (header r) + 2))] |}).
  { unfold map_head, loop_start.
    cbn [first_sequence prev content m_start m_end].
    destruct (Z.gtb_spec (mn + 0 - 1) mn) as [Hgt|_]; [lia|].
    rewrite andb_false_r.
    destruct (Z.eqb_spec (-1) (mn + 0)) as [Heq|_]; [lia|].
    cbn [negb Z.eqb mbind result_bind app].
    assert (Hentry :
      sequence_entry text
        {| m_start := 0; m_end := 0 + Py.len (header r) + 2 |}
        (mn + 0) (mn + (0 + Py.len (header r) + 2))
      = entry (name_of r) 1 (mn + 0) (mn + (0 + Py.len (header r) + 2))).
    { subst text. cbn [fasta_text]. unfold render at 1.
      replace (((">" +:+ header r +:+ NL +:+ body r +:+ NL) +:+ fasta_text l)
                 +:+ z)
        with ("" +:+ (">" +:+ header r +:+ NL)
                +:+ (body r +:+ NL +:+ fasta_text l +:+ z))
        by streq.
      apply sequence_entry_header; reflexivity. }
    rewrite Hentry. rewrite !Z.add_0_l. reflexivity. }
  cbn [header_matches for_each]. rewrite Hfirst. cbn [mbind result_bind].
  destruct (map_loop_then w mn z l "" r [] text (Py.len (header r) + 2)
              (0 + Py.len (render r)) Hmn Hwf Htext)
    as (st & Hloop & Hfalse & Hprev & Hfinal); [reflexivity..|].
  change (Py.len "") with 0 in Hloop, Hprev, Hfinal.
  rewrite !Z.add_0_r in Hprev, Hfinal. by exists st.
Qed.

Lemma newline_gt_cut (pos : Z) (h b : string) :
  lacks Py.nl h → lacks ">" b →
  Re.newline_gt pos (">" +:+ h +:+ NL +:+ b) = [].
Proof.
  intros Hh Hb. change (">" +:+ ?s) with (String ">" s).
  cbn [Re.newline_gt]. change (Ascii.eqb ">" Py.nl) with false. cbn [andb].
  rewrite (newline_gt_line _ _ _ Hh).
  change (NL +:+ b) with (String Py.nl b). cbn [Re.newline_gt].
  by rewrite (prefix_gt_lacks_all b Hb), andb_false_r, newline_gt_lacks.
Qed.

(** For any worker: a chunk made of whole records, then the header line of
    one more record and a part of its body.  [map] returns the entries of
    the records and the entry of the last sequence, with the number of the
    bases that the chunk holds of it. *)
Lemma map_records_then_cut (a : Fasta) (A : list Fasta) (h b1 key : string)
    (worker_id chunk_size obj_size partitions : Z) :
  0 ≤ worker_id * chunk_size →
  Forall well_formed (a :: A) →
  h ≠ "" → lacks Py.nl h → lacks ">" b1 →
  worker_id * chunk_size
    + Py.len (fasta_text (a :: A) +:+ ">" +:+ h +:+ NL +:+ b1)
    ≤ (map_range worker_id chunk_size obj_size partitions).2 →
  map (fasta_text (a :: A) +:+ ">" +:+ h +:+ NL +:+ b1) worker_id key
    chunk_size obj_size partitions
  = Ok {| min_range := worker_id * chunk_size;
          max_range := (map_range worker_id chunk_size obj_size partitions).2;
          sequences :=
            index_of (worker_id * chunk_size) (a :: A)
              ++ [entry_len (name_of {| header := h; body := b1 |}) 1
                    (worker_id * chunk_size + Py.len (fasta_text (a :: A)))
                    (worker_id * chunk_size + Py.len (fasta_text (a :: A))
                       + Py.len h + 2)
                    (count_bases b1)] |}.
Proof.
  intros Hmn Hwf Hne Hnl Hb1 Hmx. unfold map_range in *. cbn [snd] in *.
  set (recs := fasta_text (a :: A)) in *.
  set (data := recs +:+ ">" +:+ h +:+ NL +:+ b1) in *.
  set (mn := worker_id * chunk_size) in *.
  set (mx := if worker_id =? partitions - 1 then obj_size
             else (worker_id + 1) * chunk_size) in *.
  set (off := Py.len recs) in *.
  pose proof (len_nonneg recs) as Hoff. fold off in Hoff.
  pose proof (len_nonneg h) as Hh.
  set (m_r := {| m_start := off; m_end := off + Py.len h + 2 |}).
  assert (Hheads : Re.header_line 0 0 data = header_matches 0 (a :: A) ++ [m_r]).
  { subst data recs. rewrite (header_line_records 0 (a :: A) _ Hwf).
    rewrite (header_line_header _ h b1 Hne Hnl), header_line_lacks by done.
    reflexivity. }
  destruct (newline_gt_records A 0 a (">" +:+ h +:+ NL +:+ b1) Hwf)
    as (ms & Hini); [apply (prefix_app ">")|by apply newline_gt_cut|].
  fold recs data off in Hini. rewrite !Z.add_0_l in Hini.
  set (ih := {| m_start := off - 1; m_end := off + 1 |}) in *.
  unfold map. fold mn mx loop_start. rewrite Hini, Hheads.
  assert (Henter :
    match ms ++ [ih], data with
    | _ :: _, _ => Ok true
    | [], String c _ => Ok (Ascii.eqb c Py.gt)
    | [], EmptyString => Raise IndexError
    end = Ok true) by (by destruct ms).
  rewrite Henter. cbn [mbind result_bind].
  destruct (map_loop_whole_then worker_id mn (">" +:+ h +:+ NL +:+ b1) a A
              Hmn Hwf) as (st & Hloop & Hfalse & Hprev & Hfinal).
  fold recs data off in Hloop, Hprev, Hfinal.
  rewrite for_each_app, Hloop. cbn [mbind result_bind for_each].
  assert (Hstep :
    map_head worker_id mn data st m_r
    = Ok {| first_sequence := false; prev := mn + (off + Py.len h + 2);
            content :=
              index_of mn (a :: A)
                ++ [entry (name_of {| header := h; body := b1 |}) 1 (mn + off)
                      (mn + (off + Py.len h + 2))] |}).
  { unfold map_head, m_r. rewrite Hfalse. cbn [m_start m_end].
    destruct (Z.eqb_spec (prev st) (mn + off)) as [Heq|_]; [lia|].
    destruct (Z.eqb_spec (prev st) (-1)) as [Heq|_]; [lia|].
    cbn [negb]. rewrite Hfinal. cbn [mbind result_bind].
    assert (Hentry :
      sequence_entry data {| m_start := off; m_end := off + Py.len h + 2 |}
        (mn + off) (mn + (off + Py.len h + 2))
      = entry (name_of {| header := h; body := b1 |}) 1 (mn + off)
          (mn + (off + Py.len h + 2))).
    { subst data.
      replace (recs +:+ ">" +:+ h +:+ NL +:+ b1)
        with (recs +:+ (">" +:+ header {| header := h; body := b1 |} +:+ NL)
                +:+ b1) by (cbn [header]; streq).
      apply sequence_entry_header; reflexivity. }
    rewrite Hentry. reflexivity. }
  rewrite Hstep. cbn [mbind result_bind].
  rewrite (map_tail_whole_at mn mx data (ms ++ [ih])
             (header_matches 0 (a :: A) ++ [m_r]) ih m_r);
    [|apply last_snoc|apply last_snoc|cbn; lia].
  cbn [content prev].
  assert (Hget :
    __get_length mn
      (index_of mn (a :: A)
         ++ [entry (name_of {| header := h; body := b1 |}) 1 (mn + off)
               (mn + (off + Py.len h + 2))])
      data (mn + (off + Py.len h + 2)) mx
    = Ok (index_of mn (a :: A)
            ++ [entry_len (name_of {| header := h; body := b1 |}) 1 (mn + off)
                  (mn + off + Py.len h + 2) (count_bases b1)])).
  { assert (Hlen : Py.len data = off + Py.len h + 2 + Py.len b1).
    { subst data off. unfold NL. rewrite !len_app, !len_cons.
      change (Py.len "") with 0. lia. }
    subst data.
    replace (recs +:+ ">" +:+ h +:+ NL +:+ b1)
      with ((recs +:+ ">" +:+ h +:+ NL) +:+ b1) in * by streq.
    rewrite get_length_tail_at.
    - unfold entry_len.
      by replace (mn + off + Py.len h + 2)
        with (mn + (off + Py.len h + 2)) by lia.
    - subst off. unfold NL. rewrite !len_app, !len_cons.
      change (Py.len "") with 0. lia.
    - revert Hmx. subst off. unfold NL. rewrite !len_app, !len_cons.
      change (Py.len "") with 0. lia. }
  rewrite Hget. reflexivity.
Qed.

(** *** [map] on the chunk that starts inside the body *)

Lemma any_line_first (s : string) :
  ∀ pos start, ∃ m0 more,
    Re.any_line pos start (s +:+ NL) = m0 :: more ∧ m_start m0 = start.
Proof.
  induction s as [|c s IH]; intros pos start.
  - eexists _, _. split; reflexivity.
  - change (String c s +:+ NL) with (String c (s +:+ NL)).
    cbn [Re.any_line]. destruct (Ascii.eqb c Py.nl).
    + eexists _, _. split; reflexivity.
    + apply IH.
Qed.

Lemma any_line_spans (s : string) :
  ∀ pos start m, m ∈ Re.any_line pos start s → Z.min pos start ≤ m_start m.
Proof.
  induction s as [|c s IH]; intros pos start m Hm;
    [by apply elem_of_nil in Hm|].
  cbn [Re.any_line] in Hm. destruct (Ascii.eqb c Py.nl).
  - apply elem_of_cons in Hm as [->|Hm]; [cbn; lia|].
    apply IH in Hm. lia.
  - apply IH in Hm. lia.
Qed.

(** The head-split marker of [map]: its text has no space, its numbers are
    not negative, and its first pair is the offset of the chunk and the
    number of the bases before the first header. *)
Lemma head_split_marker_pairs (mn : Z) (data : string) (m m0 : Match)
    (more : list Match) :
  0 ≤ mn → m_start m0 = 0 → (∀ m1, m1 ∈ more → 0 ≤ m_start m1) →
  ∃ cands text,
    head_split_marker mn data m m0 more = head_split cands text
    ∧ lacks " " text ∧ natural cands
    ∧ first_pair cands = (mn, count_bases (Py.slice data 0 (m_start m))).
Proof.
  intros Hmn Hm0 Hmore. unfold head_split_marker, head_split.
  rewrite Hm0. destruct more as [|m1 more]; rewrite !len_replace_newlines.
  - eexists (One _ _), _. split; [reflexivity|].
    split; [apply first_field_lacks_sep|].
    split; [|reflexivity]. cbn [natural]. split; [lia|].
    apply count_bases_bounds.
  - eexists (Two _ _ _ _), _. split; [reflexivity|].
    split; [apply first_field_lacks_sep|].
    split; [|reflexivity].
    pose proof (Hmore m1 ltac:(left)). cbn [natural].
    split; [lia|]. split; [apply count_bases_bounds|].
    split; [lia|apply count_bases_bounds].
Qed.

(** For a worker that is not the first: a chunk that starts with the end
    [b2] of what the previous chunk began, then whole records.  [map]
    returns the head-split marker written from the lines of [b2], and the
    entries of the records. *)
Lemma map_rest_then_records_raw (b2 : string) (r' : Fasta) (B : list Fasta)
    (key : string) (worker_id chunk_size obj_size partitions : Z) :
  0 < worker_id → 0 ≤ worker_id * chunk_size →
  Forall well_formed (r' :: B) →
  b2 ≠ "" → lacks ">" b2 →
  worker_id * chunk_size + Py.len (b2 +:+ NL +:+ fasta_text (r' :: B))
    ≤ (map_range worker_id chunk_size obj_size partitions).2 →
  ∃ m0 more,
    Re.any_line 0 0 (b2 +:+ NL) = m0 :: more
    ∧ Py.slice (b2 +:+ NL +:+ fasta_text (r' :: B)) 0 (Py.len b2 + 1)
      = b2 +:+ NL
    ∧ map (b2 +:+ NL +:+ fasta_text (r' :: B)) worker_id key
        chunk_size obj_size partitions
      = Ok {| min_range := worker_id * chunk_size;
              max_range :=
                (map_range worker_id chunk_size obj_size partitions).2;
              sequences :=
                head_split_marker (worker_id * chunk_size)
                  (b2 +:+ NL +:+ fasta_text (r' :: B))
                  {| m_start := Py.len b2 + 1;
                     m_end := Py.len b2 + 1 + Py.len (header r') + 2 |}
                  m0 more
                  :: index_of (worker_id * chunk_size + Py.len b2 + 1)
                       (r' :: B) |}.
Proof.
  intros Hw Hmn Hwf Hne Hb2 Hmx. unfold map_range in *. cbn [snd] in *.
  set (data := b2 +:+ NL +:+ fasta_text (r' :: B)) in *.
  set (mn := worker_id * chunk_size) in *.
  set (mx := if worker_id =? partitions - 1 then obj_size
             else (worker_id + 1) * chunk_size) in *.
  pose proof (len_nonneg b2) as Hlen.
  assert (Hpos : 0 < Py.len b2).
  { destruct b2; [done|]. rewrite len_cons. pose proof (len_nonneg b2). lia. }
  pose proof (len_nonneg (header r')) as Hh.
  pose proof Hwf as Hwf'. apply Forall_cons in Hwf' as [Hr' HB].
  set (off := Py.len b2 + 1) in *.
  set (m1 := {| m_start := off; m_end := off + Py.len (header r') + 2 |}).
  set (ih := {| m_start := Py.len b2; m_end := Py.len b2 + 2 |}).
  assert (Hdata : data = (b2 +:+ NL) +:+ render r' +:+ fasta_text B).
  { subst data. cbn [fasta_text]. streq. }
  assert (Hbefore : Py.len (b2 +:+ NL) = off).
  { subst off. unfold NL. rewrite len_app, len_cons.
    change (Py.len "") with 0. lia. }
  assert (Hheads : Re.header_line 0 0 data
                   = m1 :: header_matches (off + Py.len (render r')) B).
  { subst data. rewrite <- str_app_assoc.
    rewrite header_line_pass by (unfold NL; lacks).
    rewrite (header_line_fasta _ _ Hwf), Hbefore. reflexivity. }
  assert (Hini : Re.newline_gt 0 data
                 = ih :: newline_matches (off + Py.len (render r')) B).
  { subst data. rewrite (newline_gt_body 0 b2 _ Hb2), prefix_gt_fasta.
    rewrite (newline_gt_fasta _ r' B Hwf). reflexivity. }
  assert (Hslice : Py.slice data 0 off = b2 +:+ NL).
  { rewrite Hdata. change ((b2 +:+ NL) +:+ ?t) with ("" +:+ (b2 +:+ NL) +:+ t).
    apply slice_middle; [reflexivity|].
    change (Py.len "") with 0. lia. }
  destruct (any_line_first b2 0 0) as (m0 & more & Hlines & Hm0).
  exists m0, more. split; [done|]. split; [done|].
  assert (Hfirst :
    map_head worker_id mn data loop_start m1
    = Ok {| first_sequence := false;
            prev := mn + (Py.len (b2 +:+ NL) + Py.len (header r') + 2);
            content :=
              [head_split_marker mn data m1 m0 more]
                ++ [entry (name_of r') 1 (mn + Py.len (b2 +:+ NL))
                      (mn + (Py.len (b2 +:+ NL) + Py.len (header r') + 2))]
         |}).
  { unfold map_head, loop_start, m1.
    cbn [first_sequence prev content m_start m_end].
    destruct (Z.gtb_spec worker_id 0) as [_|Hle]; [|lia].
    destruct (Z.gtb_spec (mn + off - 1) mn) as [_|Hle]; [|lia].
    cbn [andb]. rewrite Hslice, Hlines.
    destruct (Z.eqb_spec (-1) (mn + off)) as [Heq|_]; [lia|].
    cbn [negb Z.eqb mbind result_bind app].
    fold m1.
    assert (Hentry :
      sequence_entry data m1 (mn + off) (mn + (off + Py.len (header r') + 2))
      = entry (name_of r') 1 (mn + off)
          (mn + (off + Py.len (header r') + 2))).
    { rewrite Hdata. unfold render.
      replace ((b2 +:+ NL)
                 +:+ (">" +:+ header r' +:+ NL +:+ body r' +:+ NL)
                 +:+ fasta_text B)
        with ((b2 +:+ NL) +:+ (">" +:+ header r' +:+ NL)
                +:+ (body r' +:+ NL +:+ fasta_text B)) by streq.
      apply sequence_entry_header; cbn [m_start m_end m1]; lia. }
    rewrite Hentry, Hbefore. reflexivity. }
  unfold map. fold mn mx loop_start data. rewrite Hini, Hheads.
  cbn [mbind result_bind for_each]. rewrite Hfirst. cbn [mbind result_bind].
  destruct (map_loop_at worker_id mn mx B (b2 +:+ NL) r'
              [head_split_marker mn data m1 m0 more] data
              (Py.len (b2 +:+ NL) + Py.len (header r') + 2)
              (Py.len (b2 +:+ NL) + Py.len (render r')) Hmn Hwf Hdata)
    as (st & Hloop & Hfinal); [reflexivity..|done|].
  rewrite Hbefore in Hloop, Hfinal |- *. rewrite Hloop.
  cbn [mbind result_bind].
  assert (Hlast : ∃ mh mi,
    Py.last (m1 :: header_matches (off + Py.len (render r')) B) = Ok mh
    ∧ Py.last (ih :: newline_matches (off + Py.len (render r')) B) = Ok mi
    ∧ m_start mi + 1 = m_start mh).
  { destruct B as [|r'' B].
    - exists m1, ih. repeat split.
    - destruct (last_matches (r'' :: B) (off + Py.len (render r'))
                  ltac:(done)) as (mh & mi & Hh' & Hi' & Hs).
      exists mh, mi. repeat split; [| |done]; by apply last_cons_Ok. }
  destruct Hlast as (mh & mi & Hh' & Hi' & Hs).
  rewrite (map_tail_whole_at mn mx data _ _ mi mh st Hi' Hh' Hs).
  rewrite Hfinal. cbn [app].
  by replace (mn + Py.len b2 + 1) with (mn + off) by (subst off; lia).
Qed.

(** The same, for the end [b2] of the body of a sequence: the first pair
    of the marker is the offset of the chunk and the number of the bases of
    [b2]. *)
Lemma map_rest_then_records (b2 : string) (r' : Fasta) (B : list Fasta)
    (key : string) (worker_id chunk_size obj_size partitions : Z) :
  0 < worker_id → 0 ≤ worker_id * chunk_size →
  Forall well_formed (r' :: B) →
  b2 ≠ "" → lacks ">" b2 →
  worker_id * chunk_size + Py.len (b2 +:+ NL +:+ fasta_text (r' :: B))
    ≤ (map_range worker_id chunk_size obj_size partitions).2 →
  ∃ cands text,
    lacks " " text ∧ natural cands
    ∧ first_pair cands = (worker_id * chunk_size, count_bases b2)
    ∧ map (b2 +:+ NL +:+ fasta_text (r' :: B)) worker_id key
        chunk_size obj_size partitions
      = Ok {| min_range := worker_id * chunk_size;
              max_range :=
                (map_range worker_id chunk_size obj_size partitions).2;
              sequences :=
                head_split cands text
                  :: index_of (worker_id * chunk_size + Py.len b2 + 1)
                       (r' :: B) |}.
Proof.
  intros Hw Hmn Hwf Hne Hb2 Hmx.
  destruct (map_rest_then_records_raw b2 r' B key worker_id chunk_size
              obj_size partitions Hw Hmn Hwf Hne Hb2 Hmx)
    as (m0 & more & Hlines & Hslice & Hmap).
  destruct (any_line_first b2 0 0) as (m0' & more' & Hlines' & Hm0).
  rewrite Hlines in Hlines'. injection Hlines' as <- <-.
  assert (Hmore : ∀ x, x ∈ more → 0 ≤ m_start x).
  { intros x Hx.
    assert (Hin : x ∈ Re.any_line 0 0 (b2 +:+ NL))
      by (rewrite Hlines; by right).
    apply any_line_spans in Hin. lia. }
  destruct (head_split_marker_pairs (worker_id * chunk_size)
              (b2 +:+ NL +:+ fasta_text (r' :: B))
              {| m_start := Py.len b2 + 1;
                 m_end := Py.len b2 + 1 + Py.len (header r') + 2 |}
              m0 more Hmn Hm0 Hmore)
    as (cands & text & Hmarker & Htext & Hnat & Hpair).
  cbn [m_start] in Hpair. rewrite Hslice, count_bases_body in Hpair.
  exists cands, text. rewrite <- Hmarker. done.
Qed.

(** *** The two chunks together *)

(** [reduce] on the records of the two chunks: the span of the sequence
    becomes 2 in the entry of the first record, and the marker of the second
    record becomes the entry of its second part. *)
Lemma reduce_cut_body (seqs rest : list string) (id text : string)
    (mn1 mx1 mn2 mx2 oh ob len : Z) (cands : Candidates) :
  lacks " " id → lacks "<" id → lacks " " text → natural cands → ob ≠ 1 →
  ∃ results,
    reduce [ {| min_range := mn1; max_range := mx1;
                sequences := seqs ++ [entry_len id 1 oh ob len] |};
             {| min_range := mn2; max_range := mx2;
                sequences := head_split cands text :: rest |} ]
    = Ok results
    ∧ sequence_index results
      = seqs
          ++ [entry_len id 2 oh ob len;
              entry_len id 2 oh (first_pair cands).1 (first_pair cands).2]
          ++ rest.
Proof.
  intros Hid1 Hid2 Htext Hnat Hob.
  set (prev := {| min_range := mn1; max_range := mx1;
                  sequences := seqs ++ [entry_len id 1 oh ob len] |}).
  set (cur := {| min_range := mn2; max_range := mx2;
                 sequences := head_split cands text :: rest |}).
  pose proof (reduce_body_entry [] [] [] prev cur seqs rest id text
                1 oh ob len cands Hid1 Hid2 Htext Hnat eq_refl
                ltac:(constructor) eq_refl eq_refl) as Hbody.
  eexists. split.
  - rewrite reduce_two. exact Hbody.
  - unfold sequence_index, replaced_in_last.
    cbn [app fmap list_fmap concat sequences set_sequences prev cur].
    rewrite map_last_snoc, (replace_span id 1 oh ob len Hid1 Hob).
    rewrite app_nil_r, <- app_assoc. reflexivity.
Qed.

(** [map] on the two ranges, then [reduce], for an object cut inside the
    body of a record. *)
Lemma map_reduce_cut_body (a : Fasta) (A : list Fasta) (h b1 b2 : string)
    (r' : Fasta) (B : list Fasta) (key : string) :
  Forall well_formed (a :: A) → Forall well_formed (r' :: B) →
  h ≠ "" → lacks Py.nl h → lacks "<" h →
  lacks ">" b1 → lacks ">" b2 → b2 ≠ "" →
  let cut := {| header := h; body := b1 +:+ b2 |} in
  let object := fasta_text ((a :: A) ++ cut :: r' :: B) in
  let off := Py.len (fasta_text (a :: A)) in
  let chunk_size := off + Py.len h + 2 + Py.len b1 in
  Py.len object ≤ 2 * chunk_size →
  Py.len object < 2 ^ 53 →
  ∃ results,
    map_reduce (text_store object) key (Py.len object)
      (Some chunk_size) None = Ok results
    ∧ sequence_index results
      = index_of 0 (a :: A)
          ++ [entry_len (name_of cut) 2 off (off + Py.len h + 2)
                (count_bases b1);
              entry_len (name_of cut) 2 off chunk_size (count_bases b2)]
          ++ index_of (chunk_size + Py.len b2 + 1) (r' :: B).
Proof.
  intros HA HB Hne Hnl Hlt Hb1 Hb2 Hb2ne cut object off cs Hsize Hsmall.
  set (chunk1 := fasta_text (a :: A) +:+ ">" +:+ h +:+ NL +:+ b1).
  set (chunk2 := b2 +:+ NL +:+ fasta_text (r' :: B)).
  assert (Hobject : object = chunk1 +:+ chunk2).
  { assert (Hrender : render cut = ">" +:+ h +:+ NL +:+ b1 +:+ b2 +:+ NL)
      by (unfold render, cut; cbn [header body]; streq).
    subst object chunk1 chunk2. rewrite fasta_text_app.
    change (fasta_text (cut :: r' :: B))
      with (render cut +:+ fasta_text (r' :: B)).
    rewrite Hrender. streq. }
  pose proof (len_nonneg (fasta_text (a :: A))) as Hoff. fold off in Hoff.
  pose proof (len_nonneg h). pose proof (len_nonneg b1).
  pose proof (len_nonneg b2). pose proof (len_nonneg (fasta_text (r' :: B))).
  assert (Hlen1 : Py.len chunk1 = cs).
  { subst chunk1 cs off. unfold NL. rewrite !len_app, !len_cons.
    change (Py.len "") with 0. lia. }
  assert (Hlen2 : Py.len chunk2 = Py.len b2 + 1 + Py.len (fasta_text (r' :: B))).
  { subst chunk2. unfold NL. rewrite !len_app, !len_cons.
    change (Py.len "") with 0. lia. }
  assert (Hos : Py.len object = cs + Py.len chunk2)
    by (rewrite Hobject, len_app; lia).
  assert (Hcs : 0 < cs) by (subst cs; lia).
  set (os := Py.len object) in *.
  assert (Hiter : ceil_div os cs = 2).
  { pose proof (ceil_div_bounds os cs Hcs). nia. }
  (* the first chunk *)
  assert (Hstore1 : text_store object 0 cs = chunk1).
  { unfold text_store. rewrite Hobject.
    change (chunk1 +:+ chunk2) with ("" +:+ chunk1 +:+ chunk2).
    apply slice_middle; [reflexivity|]. change (Py.len "") with 0. lia. }
  assert (Hmap1 :
    map chunk1 0 key cs os 2
    = Ok {| min_range := 0; max_range := cs;
            sequences :=
              index_of 0 (a :: A)
                ++ [entry_len (name_of cut) 1 off (off + Py.len h + 2)
                      (count_bases b1)] |}).
  { unfold chunk1.
    rewrite (map_records_then_cut a A h b1 key 0 cs os 2 ltac:(lia) HA
               Hne Hnl Hb1).
    - unfold map_range. cbn [snd]. change (0 =? 2 - 1) with false.
      cbv iota. change (0 + 1) with 1. rewrite Z.mul_1_l. reflexivity.
    - unfold map_range. cbn [snd]. change (0 =? 2 - 1) with false.
      cbv iota. fold chunk1. lia. }
  (* the second chunk *)
  assert (Hstore2 : text_store object cs os = chunk2).
  { unfold text_store. rewrite Hobject. apply slice_to_end; lia. }
  destruct (map_rest_then_records b2 r' B key 1 cs os 2 ltac:(lia) ltac:(lia)
              HB Hb2ne Hb2) as (cands & text & Htext & Hnat & Hpair & Hmap2).
  { unfold map_range. cbn [snd]. change (1 =? 2 - 1) with true.
    cbv iota. fold chunk2. lia. }
  fold chunk2 in Hmap2. unfold map_range in Hmap2. cbn [snd] in Hmap2.
  change (1 =? 2 - 1) with true in Hmap2. cbv iota in Hmap2.
  rewrite !Z.mul_1_l in Hmap2, Hpair.
  (* the records reduced *)
  destruct (reduce_cut_body (index_of 0 (a :: A))
              (index_of (cs + Py.len b2 + 1) (r' :: B)) (name_of cut) text
              0 cs cs os off (off + Py.len h + 2) (count_bases b1) cands)
    as (results & Hreduce & Hindex);
    [apply name_of_lacks_space|by apply name_of_lacks|done|done|lia|].
  exists results. split.
  - unfold map_reduce. rewrite chunking_chunk_size by lia.
    cbn [mbind result_bind]. rewrite Hiter.
    change (Py.range 0 2) with [0; 1]. cbn [for_each].
    unfold map_worker, byte_range.
    change (0 * cs) with 0. rewrite Z.add_0_l, Z.mul_1_l.
    assert (Hr0 : (if cs <=? os then cs else os) = cs)
      by (destruct (Z.leb_spec cs os); lia).
    assert (Hr1 : (if cs + cs <=? os then cs + cs else os) = os)
      by (destruct (Z.leb_spec (cs + cs) os); lia).
    rewrite Hr0, Hr1, Hstore1, Hmap1. cbn [mbind result_bind app].
    rewrite Hstore2, Hmap2. cbn [mbind result_bind app].
    exact Hreduce.
  - rewrite Hindex, Hpair. reflexivity.
Qed.

(** X14: an object of whole records in two chunks, the first of which
    ends inside the body of a record (after the part [b1] of it, with at
    least one whole record before) and the second of which starts with the
    rest [b2] of that body, not empty, followed by at least one whole record;
    the object is smaller than [2 ^ 53].  [map] called on the text of each
    range (half-open, for the chunk size given) and [reduce] called on the
    two records raise nothing; the index holds the
    entries of the whole records with their offsets in the object, and two
    entries for the sequence that is cut: both with its name, the span 2 and
    the offset of its header, the first with the offset of its bases and the
    number of the bases of [b1], the second with the offset of the second
    chunk and the number of the bases of [b2].  The two numbers add up to
    the number of the bases of the sequence. *)
Theorem body_cut_between_two_chunks (a : Fasta) (A : list Fasta)
    (h b1 b2 : string) (r' : Fasta) (B : list Fasta) (key : string) :
  Forall well_formed (a :: A) → Forall well_formed (r' :: B) →
  h ≠ "" → lacks Py.nl h → lacks "<" h →
  lacks ">" b1 → lacks ">" b2 → b2 ≠ "" →
  let cut := {| header := h; body := b1 +:+ b2 |} in
  let object := fasta_text ((a :: A) ++ cut :: r' :: B) in
  let off := Py.len (fasta_text (a :: A)) in
  let chunk_size := off + Py.len h + 2 + Py.len b1 in
  Py.len object ≤ 2 * chunk_size →
  Py.len object < 2 ^ 53 →
  (∃ results,
     map_reduce (text_store object) key (Py.len object)
       (Some chunk_size) None = Ok results
     ∧ sequence_index results
       = index_of 0 (a :: A)
           ++ [entry_len (name_of cut) 2 off (off + Py.len h + 2)
                 (count_bases b1);
               entry_len (name_of cut) 2 off chunk_size (count_bases b2)]
           ++ index_of (chunk_size + Py.len b2 + 1) (r' :: B))
  ∧ count_bases b1 + count_bases b2 = count_bases (body cut).
Proof.
  intros HA HB Hne Hnl Hlt Hb1 Hb2 Hb2ne cut object off chunk_size Hsize Hsmall.
  split.
  - by apply map_reduce_cut_body.
  - unfold cut. cbn [body]. by rewrite count_bases_app.
Qed.

Lemma body_cut_between_two_chunks_witness :
  (∃ results,
     map_reduce
       (text_store
          (fasta_text
             ([ {| header := "s1"; body := "AAAA" |} ]
                ++ {| header := "s2 x"; body := "CC" +:+ "CC" +:+ NL +:+ "GG" |}
                :: [ {| header := "s3"; body := "TT" |} ])))
       "key"
       (Py.len
          (fasta_text
             ([ {| header := "s1"; body := "AAAA" |} ]
                ++ {| header := "s2 x"; body := "CC" +:+ "CC" +:+ NL +:+ "GG" |}
                :: [ {| header := "s3"; body := "TT" |} ])))
       (Some 17) None = Ok results
     ∧ sequence_index results
       = ["s1" +:+ NL +:+ " 1 0 4 4"; "s2 2 9 15 2"; "s2 2 9 17 4";
          "s3" +:+ NL +:+ " 1 23 27 2"])
  ∧ 2 + 4 = 6.
Proof.
  assert (HA : Forall well_formed [ {| header := "s1"; body := "AAAA" |} ])
    by (repeat constructor; (discriminate || reflexivity)).
  assert (HB : Forall well_formed [ {| header := "s3"; body := "TT" |} ])
    by (repeat constructor; (discriminate || reflexivity)).
  refine (body_cut_between_two_chunks _ [] "s2 x" "CC"
            ("CC" +:+ NL +:+ "GG") _ [] "key" HA HB _ _ _ _ _ _ _ _);
    (reflexivity || discriminate).
Defined.

(** ** A sequence whose header line is cut between two chunks *)

Lemma find_nl_lacks (s : string) : lacks Py.nl s → Re.find_nl s = None.
Proof.
  induction s as [|c s IH]; intros Hs; [reflexivity|].
  apply lacks_cons in Hs as [Hc Hs]. cbn [Re.find_nl].
  by rewrite Hc, (IH Hs).
Qed.

(** A text of one line that no newline ends has no match of [>.+\n]. *)
Lemma header_line_no_newline (s : string) :
  lacks Py.nl s → ∀ pos, Re.header_line pos O s = [].
Proof.
  induction s as [|c s IH]; intros Hs pos; [reflexivity|].
  apply lacks_cons in Hs as [Hc Hs]. cbn [Re.header_line].
  rewrite (find_nl_lacks s Hs). destruct (Ascii.eqb c Py.gt); by apply IH.
Qed.

Lemma newline_gt_no_newline (pos : Z) (s : string) :
  lacks Py.nl s → Re.newline_gt pos s = [].
Proof.
  intros Hs. rewrite <- (str_app_empty_r s).
  by rewrite (newline_gt_line pos s "" Hs).
Qed.

Lemma slice_from_app (a m : string) (i : Z) :
  i = Py.len a → Py.slice_from (a +:+ m) i = m.
Proof.
  intros ->. unfold Py.slice_from, Py.clamp. rewrite len_app.
  pose proof (len_nonneg a). pose proof (len_nonneg m).
  destruct (Z.ltb_spec (Py.len a) 0); [lia|].
  rewrite Z.min_l by lia. unfold Py.len. rewrite Nat2Z.id, str_length_app.
  replace (String.length a + String.length m - String.length a)%nat
    with (String.length m) by lia.
  rewrite <- (str_app_empty_r m) at 2. rewrite <- (substring_middle a m "") at 3.
  by rewrite str_app_empty_r.
Qed.

(** The last header of a text of records starts inside the text. *)
Lemma header_matches_last (l : list Fasta) :
  ∀ (pos : Z) (r : Fasta),
    ∃ mh, Py.last (header_matches pos (r :: l)) = Ok mh
          ∧ m_start mh < pos + Py.len (fasta_text (r :: l)).
Proof.
  induction l as [|r' l IH]; intros pos r.
  - eexists. split; [reflexivity|]. cbn [m_start fasta_text].
    rewrite str_app_empty_r, len_render.
    pose proof (len_nonneg (header r)). pose proof (len_nonneg (body r)). lia.
  - destruct (IH (pos + Py.len (render r)) r') as (mh & Hlast & Hlt).
    exists mh. split.
    + cbn [header_matches] in Hlast |- *. by apply last_cons_Ok.
    + cbn [fasta_text] in Hlt |- *. rewrite !len_app in *. lia.
Qed.

(** For any worker: a chunk made of whole records, then a [>] and the
    start [h1] of a header line.  [map] returns the entries of the records
    and a tail-split marker with the first field of [h1] and the offset of
    the [>]; the marker tells whether [h1] holds a space. *)
Lemma map_records_then_cut_header (a : Fasta) (A : list Fasta)
    (h1 key : string) (worker_id chunk_size obj_size partitions : Z) :
  0 ≤ worker_id * chunk_size →
  Forall well_formed (a :: A) →
  lacks Py.nl h1 →
  map (fasta_text (a :: A) +:+ ">" +:+ h1) worker_id key
    chunk_size obj_size partitions
  = Ok {| min_range := worker_id * chunk_size;
          max_range := (map_range worker_id chunk_size obj_size partitions).2;
          sequences :=
            index_of (worker_id * chunk_size) (a :: A)
              ++ [tail_split (Py.has_char " " h1) (first_field " " h1)
                    (worker_id * chunk_size + Py.len (fasta_text (a :: A)))]
       |}.
Proof.
  intros Hmn Hwf Hnl. unfold map_range. cbn [snd].
  set (recs := fasta_text (a :: A)) in *.
  set (data := recs +:+ ">" +:+ h1) in *.
  set (mn := worker_id * chunk_size) in *.
  set (mx := if worker_id =? partitions - 1 then obj_size
             else (worker_id + 1) * chunk_size) in *.
  set (off := Py.len recs) in *.
  assert (Hcut : lacks Py.nl (">" +:+ h1)).
  { change (">" +:+ h1) with (String ">" h1). by apply lacks_cons. }
  assert (Hheads : Re.header_line 0 0 data = header_matches 0 (a :: A)).
  { subst data recs. rewrite (header_line_records 0 (a :: A) _ Hwf).
    by rewrite header_line_no_newline, app_nil_r. }
  destruct (newline_gt_records A 0 a (">" +:+ h1) Hwf)
    as (ms & Hini);
    [apply (prefix_app ">")|by apply newline_gt_no_newline|].
  fold recs data off in Hini. rewrite !Z.add_0_l in Hini.
  set (ih := {| m_start := off - 1; m_end := off + 1 |}) in *.
  unfold map. fold mn mx loop_start. rewrite Hini, Hheads.
  assert (Henter :
    match ms ++ [ih], data with
    | _ :: _, _ => Ok true
    | [], String c _ => Ok (Ascii.eqb c Py.gt)
    | [], EmptyString => Raise IndexError
    end = Ok true) by (by destruct ms).
  rewrite Henter. cbn [mbind result_bind].
  destruct (map_loop_whole_then worker_id mn (">" +:+ h1) a A Hmn Hwf)
    as (st & Hloop & Hfalse & Hprev & Hfinal).
  fold recs data off in Hloop, Hprev, Hfinal.
  rewrite Hloop. cbn [mbind result_bind].
  destruct (header_matches_last A 0 a) as (mh & Hlast & Hlt).
  fold recs off in Hlt. rewrite Z.add_0_l in Hlt.
  unfold map_tail. rewrite last_snoc, Hlast. cbn [mbind result_bind].
  cbn [m_start ih].
  destruct (Z.gtb_spec (off - 1 + 1) (m_start mh)) as [_|Hle]; [|lia].
  cbn [header_matches length].
  destruct (Z.eqb_spec (Z.of_nat (S (length (header_matches
              (0 + Py.len (render a)) A)))) 0) as [Heq|_]; [lia|].
  cbn [negb].
  replace (off - 1 + mn + 1) with (mn + off) by lia.
  rewrite Hfinal. cbn [mbind result_bind].
  replace (mn + off - mn) with off by lia.
  subst data. rewrite (slice_from_app recs (">" +:+ h1) off eq_refl).
  change (">" +:+ h1) with (String ">" h1).
  by rewrite tail_split_marker_shape.
Qed.

(** *** The chunk that starts with the rest of the header line *)

Lemma any_line_line (pos start : Z) (h t : string) :
  lacks Py.nl h →
  Re.any_line pos start (h +:+ NL +:+ t)
  = {| m_start := start; m_end := pos + Py.len h + 1 |}
      :: Re.any_line (pos + Py.len h + 1) (pos + Py.len h + 1) t.
Proof.
  revert pos. induction h as [|c h IH]; intros pos Hh.
  - change ("" +:+ NL +:+ t) with (String Py.nl t). cbn [Re.any_line].
    rewrite Ascii.eqb_refl. change (Py.len "") with 0.
    by rewrite !Z.add_0_r.
  - apply lacks_cons in Hh as [Hc Hh].
    change (String c h +:+ NL +:+ t) with (String c (h +:+ NL +:+ t)).
    cbn [Re.any_line]. rewrite Hc, (IH _ Hh), len_cons.
    by replace (pos + 1 + Py.len h + 1) with (pos + (1 + Py.len h) + 1) by lia.
Qed.

(** The head-split marker that [map] writes when the chunk starts with the
    rest [h2] of a header line and the body [bd] of its sequence. *)
Lemma head_split_marker_header (mn : Z) (h2 bd rest : string)
    (m m0 : Match) (more : list Match) :
  lacks Py.nl h2 →
  m_start m = Py.len (h2 +:+ NL +:+ bd) + 1 →
  Re.any_line 0 0 ((h2 +:+ NL +:+ bd) +:+ NL) = m0 :: more →
  head_split_marker mn ((h2 +:+ NL +:+ bd) +:+ NL +:+ rest) m m0 more
  = head_split
      (Two mn (count_bases (h2 +:+ NL +:+ bd)) (mn + Py.len h2 + 1)
         (count_bases bd))
      (first_field " " (h2 +:+ NL)).
Proof.
  intros Hh2 Hm Hlines.
  pose proof (len_nonneg h2). pose proof (len_nonneg bd).
  assert (Hlen : Py.len (h2 +:+ NL +:+ bd) = Py.len h2 + 1 + Py.len bd).
  { unfold NL. rewrite !len_app, !len_cons. change (Py.len "") with 0. lia. }
  rewrite !str_app_assoc, (any_line_line 0 0 h2 _ Hh2) in Hlines.
  destruct (any_line_first bd (0 + Py.len h2 + 1) (0 + Py.len h2 + 1))
    as (m1 & more' & Hbd & Hm1).
  rewrite Hbd in Hlines. injection Hlines as <- <-.
  unfold head_split_marker, head_split, group.
  cbn [m_start m_end offsets_text lengths_text]. rewrite Hm, Hm1, Hlen.
  assert (Hbefore :
    Py.slice ((h2 +:+ NL +:+ bd) +:+ NL +:+ rest) 0 (Py.len h2 + 1 + Py.len bd + 1)
    = (h2 +:+ NL +:+ bd) +:+ NL).
  { replace ((h2 +:+ NL +:+ bd) +:+ NL +:+ rest)
      with ("" +:+ ((h2 +:+ NL +:+ bd) +:+ NL) +:+ rest) by streq.
    apply slice_middle; [reflexivity|].
    unfold NL. rewrite !len_app, !len_cons. change (Py.len "") with 0. lia. }
  assert (Hline :
    Py.slice ((h2 +:+ NL +:+ bd) +:+ NL) 0 (0 + Py.len h2 + 1) = h2 +:+ NL).
  { replace ((h2 +:+ NL +:+ bd) +:+ NL)
      with ("" +:+ (h2 +:+ NL) +:+ (bd +:+ NL)) by streq.
    apply slice_middle; [reflexivity|].
    unfold NL. rewrite !len_app, !len_cons. change (Py.len "") with 0. lia. }
  assert (Hbody :
    Py.slice ((h2 +:+ NL +:+ bd) +:+ NL +:+ rest) (0 + Py.len h2 + 1)
      (Py.len h2 + 1 + Py.len bd + 1)
    = bd +:+ NL).
  { replace ((h2 +:+ NL +:+ bd) +:+ NL +:+ rest)
      with ((h2 +:+ NL) +:+ (bd +:+ NL) +:+ rest) by streq.
    apply slice_middle;
      unfold NL; rewrite !len_app, !len_cons; change (Py.len "") with 0; lia. }
  rewrite Hbefore, Hline, Hbody, !len_replace_newlines, !count_bases_body.
  rewrite Z.add_0_l.
  by replace (0 + Py.len h2 + 1 + mn) with (mn + Py.len h2 + 1) by lia.
Qed.

(** *** The name of the sequence *)

Lemma first_field_cons (sep c : ascii) (s : string) :
  Ascii.eqb c sep = false →
  first_field sep (String c s) = String c (first_field sep s).
Proof.
  intros Hc. unfold first_field. cbn [Py.split]. rewrite Hc.
  by destruct (Py.split sep s).
Qed.

Lemma first_field_app (sep : ascii) (a t : string) :
  first_field sep (a +:+ t)
  = if Py.has_char sep a then first_field sep a
    else a +:+ first_field sep t.
Proof.
  induction a as [|c a IH]; [reflexivity|].
  change (String c a +:+ t) with (String c (a +:+ t)).
  cbn [Py.has_char]. destruct (Ascii.eqb c sep) eqn:Hc.
  - unfold first_field. cbn [Py.split]. by rewrite Hc.
  - rewrite !first_field_cons, IH by done. cbn [orb].
    by destruct (Py.has_char sep a).
Qed.

Lemma replace_gt_head (s : string) :
  lacks ">" s → Py.replace ">" "" (String ">" s) = s.
Proof.
  intros Hs. rewrite replace_nonempty. cbn [Py.replace_scan].
  rewrite prefix_cons, prefix_nil. cbn [Ascii.eqb andb String.length Nat.pred].
  change (Ascii.eqb ">" ">") with true. cbv iota.
  change ("" +:+ ?x) with x. by apply (replace_scan_absent ">").
Qed.

(** The name that [reduce] puts together from the two markers is the name
    of the sequence. *)
Lemma name_of_cut_header (h1 h2 bd : string) :
  lacks ">" h1 → lacks ">" h2 →
  (if Py.has_char " " h1 then first_field " " h1
   else first_field " " h1 +:+ first_field " " (h2 +:+ NL))
  = name_of {| header := h1 +:+ h2; body := bd |}.
Proof.
  intros H1 H2. unfold name_of. cbn [header].
  change (">" +:+ ?s) with (String ">" s).
  rewrite first_field_cons by reflexivity.
  rewrite replace_gt_head.
  - rewrite str_app_assoc, (first_field_app " " h1 (h2 +:+ NL)).
    destruct (Py.has_char " " h1) eqn:Hsp; [reflexivity|].
    f_equal. unfold first_field. by rewrite split_no_sep.
  - apply first_field_lacks. unfold NL. lacks.
Qed.

(** *** The two chunks together *)

(** [map] on the two ranges, then [reduce], for an object cut inside the
    header line of a record. *)
Lemma map_reduce_cut_header (a : Fasta) (A : list Fasta)
    (h1 h2 bd : string) (r' : Fasta) (B : list Fasta) (key : string) :
  Forall well_formed (a :: A) → Forall well_formed (r' :: B) →
  lacks Py.nl h1 → lacks Py.nl h2 → lacks ">" h1 → lacks ">" h2 →
  lacks "<" h1 → lacks "^" h2 → lacks ">" bd →
  let cut := {| header := h1 +:+ h2; body := bd |} in
  let object := fasta_text ((a :: A) ++ cut :: r' :: B) in
  let off := Py.len (fasta_text (a :: A)) in
  let chunk_size := off + 1 + Py.len h1 in
  Py.len object ≤ 2 * chunk_size →
  Py.len object < 2 ^ 53 →
  map_reduce (text_store object) key (Py.len object)
    (Some chunk_size) None
  = Ok [ {| min_range := 0; max_range := off;
            sequences := index_of 0 (a :: A) |};
         {| min_range := off; max_range := Py.len object;
            sequences := index_of off (cut :: r' :: B) |} ].
Proof.
  intros HA HB Hnl1 Hnl2 Hgt1 Hgt2 Hlt1 Hc2 Hbd cut object off cs Hsize Hsmall.
  set (b2 := h2 +:+ NL +:+ bd).
  set (chunk1 := fasta_text (a :: A) +:+ ">" +:+ h1).
  set (chunk2 := b2 +:+ NL +:+ fasta_text (r' :: B)).
  assert (Hobject : object = chunk1 +:+ chunk2).
  { assert (Hrender : render cut = ">" +:+ h1 +:+ h2 +:+ NL +:+ bd +:+ NL)
      by (unfold render, cut; cbn [header body]; streq).
    subst object chunk1 chunk2 b2. rewrite fasta_text_app.
    change (fasta_text (cut :: r' :: B))
      with (render cut +:+ fasta_text (r' :: B)).
    rewrite Hrender. streq. }
  pose proof (len_nonneg (fasta_text (a :: A))) as Hoff. fold off in Hoff.
  pose proof (len_nonneg h1). pose proof (len_nonneg h2).
  pose proof (len_nonneg bd). pose proof (len_nonneg (fasta_text (r' :: B))).
  assert (Hlen1 : Py.len chunk1 = cs).
  { subst chunk1 cs off. rewrite !len_app, !len_cons.
    change (Py.len "") with 0. lia. }
  assert (Hlenb : Py.len b2 = Py.len h2 + 1 + Py.len bd).
  { subst b2. unfold NL. rewrite !len_app, !len_cons.
    change (Py.len "") with 0. lia. }
  assert (Hlen2 : Py.len chunk2 = Py.len b2 + 1 + Py.len (fasta_text (r' :: B))).
  { subst chunk2. unfold NL. rewrite !len_app, !len_cons.
    change (Py.len "") with 0. lia. }
  assert (Hos : Py.len object = cs + Py.len chunk2)
    by (rewrite Hobject, len_app; lia).
  assert (Hcs : 0 < cs) by (subst cs; lia).
  set (os := Py.len object) in *.
  assert (Hiter : ceil_div os cs = 2).
  { pose proof (ceil_div_bounds os cs Hcs). nia. }
  (* the first chunk *)
  assert (Hstore1 : text_store object 0 cs = chunk1).
  { unfold text_store. rewrite Hobject.
    change (chunk1 +:+ chunk2) with ("" +:+ chunk1 +:+ chunk2).
    apply slice_middle; [reflexivity|]. change (Py.len "") with 0. lia. }
  assert (Hmap1 :
    map chunk1 0 key cs os 2
    = Ok {| min_range := 0; max_range := cs;
            sequences :=
              index_of 0 (a :: A)
                ++ [tail_split (Py.has_char " " h1) (first_field " " h1) off]
         |}).
  { unfold chunk1.
    rewrite (map_records_then_cut_header a A h1 key 0 cs os 2 ltac:(lia) HA
               Hnl1).
    unfold map_range. cbn [snd]. change (0 =? 2 - 1) with false.
    cbv iota. change (0 + 1) with 1. rewrite Z.mul_1_l. reflexivity. }
  (* the second chunk *)
  assert (Hstore2 : text_store object cs os = chunk2).
  { unfold text_store. rewrite Hobject. apply slice_to_end; lia. }
  assert (Hb2ne : b2 ≠ "") by (subst b2; by destruct h2).
  assert (Hb2 : lacks ">" b2) by (subst b2; unfold NL; lacks).
  destruct (map_rest_then_records_raw b2 r' B key 1 cs os 2 ltac:(lia)
              ltac:(lia) HB Hb2ne Hb2) as (m0 & more & Hlines & _ & Hmap2).
  { unfold map_range. cbn [snd]. change (1 =? 2 - 1) with true.
    cbv iota. fold chunk2. lia. }
  fold chunk2 in Hmap2. unfold map_range in Hmap2. cbn [snd] in Hmap2.
  change (1 =? 2 - 1) with true in Hmap2. cbv iota in Hmap2.
  rewrite !Z.mul_1_l in Hmap2.
  unfold chunk2 at 2 in Hmap2. unfold b2 at 2 in Hmap2.
  rewrite (head_split_marker_header cs h2 bd (fasta_text (r' :: B)) _ m0 more
             Hnl2) in Hmap2; [|reflexivity|exact Hlines].
  fold b2 in Hmap2.
  (* the records reduced *)
  pose proof (count_bases_bounds b2). pose proof (count_bases_bounds bd).
  set (prev := {| min_range := 0; max_range := cs;
                  sequences :=
                    index_of 0 (a :: A)
                      ++ [tail_split (Py.has_char " " h1)
                            (first_field " " h1) off] |}) in *.
  set (cur := {| min_range := cs; max_range := os;
                 sequences :=
                   head_split
                     (Two cs (count_bases b2) (cs + Py.len h2 + 1)
                        (count_bases bd))
                     (first_field " " (h2 +:+ NL))
                     :: index_of (cs + Py.len b2 + 1) (r' :: B) |}) in *.
  assert (Hbody :
    reduce_body [prev; cur] 1
    = Ok [ {| min_range := 0; max_range := off;
              sequences := index_of 0 (a :: A) |};
           {| min_range := off; max_range := os;
              sequences :=
                entry_len
                  (if Py.has_char " " h1 then first_field " " h1
                   else first_field " " h1 +:+ first_field " " (h2 +:+ NL))
                  1 off (cs + Py.len h2 + 1) (count_bases bd)
                  :: index_of (cs + Py.len b2 + 1) (r' :: B) |} ]).
  { exact (reduce_body_tail_split [] [] prev cur
             (index_of 0 (a :: A))
             (index_of (cs + Py.len b2 + 1) (r' :: B))
             (Py.has_char " " h1) (first_field " " h1)
             (first_field " " (h2 +:+ NL)) off
             cs (count_bases b2) (cs + Py.len h2 + 1) (count_bases bd)
             (first_field_lacks_sep " " h1)
             (first_field_lacks "<" " " h1 Hlt1)
             (first_field_lacks_sep " " (h2 +:+ NL))
             (first_field_lacks "^" " " (h2 +:+ NL)
                ltac:(unfold NL; lacks))
             ltac:(lia) ltac:(lia) ltac:(lia) ltac:(lia) eq_refl eq_refl). }
  unfold map_reduce. rewrite chunking_chunk_size by lia.
  cbn [mbind result_bind]. rewrite Hiter.
  change (Py.range 0 2) with [0; 1]. cbn [for_each].
  unfold map_worker, byte_range.
  change (0 * cs) with 0. rewrite Z.add_0_l, Z.mul_1_l.
  assert (Hr0 : (if cs <=? os then cs else os) = cs)
    by (destruct (Z.leb_spec cs os); lia).
  assert (Hr1 : (if cs + cs <=? os then cs + cs else os) = os)
    by (destruct (Z.leb_spec (cs + cs) os); lia).
  rewrite Hr0, Hr1, Hstore1, Hmap1. cbn [mbind result_bind app].
  rewrite Hstore2, Hmap2. cbn [mbind result_bind app].
  rewrite reduce_two, Hbody. do 3 f_equal.
  rewrite (name_of_cut_header h1 h2 bd Hgt1 Hgt2). fold cut.
  assert (Hheader : Py.len (header cut) = Py.len h1 + Py.len h2)
    by (unfold cut; cbn [header]; apply len_app).
  assert (E1 : cs + Py.len h2 + 1 = off + Py.len (header cut) + 2)
    by (subst cs; lia).
  assert (E2 : cs + Py.len b2 + 1 = off + Py.len (render cut)).
  { rewrite len_render, Hheader. unfold cut at 1. cbn [body]. subst cs. lia. }
  cbn [index_of]. by rewrite E1, E2.
Qed.

(** X15: an object of whole records in two chunks, the first of which
    ends inside the header line of a record (after the [>] and the part [h1]
    of its text, with at least one whole record before), the second of which
    starts with the rest [h2] of the line and holds at least one whole record
    after the cut one; the text of the header has no [>], no [<] before the
    cut and no [^] after it; the object is smaller than [2 ^ 53].  [map]
    called on the text of each range (half-open, for the chunk size given)
    and [reduce] called on the two records raise
    nothing and the two markers are resolved: the index is the index of the
    records of the object, the cut sequence having one entry with the span 1,
    its whole name, the offsets of its header and of its bases and the number
    of its bases; the ranges of the two records meet at the [>] of the cut
    header. *)
Theorem header_cut_between_two_chunks (a : Fasta) (A : list Fasta)
    (h1 h2 bd : string) (r' : Fasta) (B : list Fasta) (key : string) :
  Forall well_formed (a :: A) → Forall well_formed (r' :: B) →
  lacks Py.nl h1 → lacks Py.nl h2 → lacks ">" h1 → lacks ">" h2 →
  lacks "<" h1 → lacks "^" h2 → lacks ">" bd →
  let cut := {| header := h1 +:+ h2; body := bd |} in
  let object := fasta_text ((a :: A) ++ cut :: r' :: B) in
  let off := Py.len (fasta_text (a :: A)) in
  let chunk_size := off + 1 + Py.len h1 in
  Py.len object ≤ 2 * chunk_size →
  Py.len object < 2 ^ 53 →
  ∃ results,
    map_reduce (text_store object) key (Py.len object)
      (Some chunk_size) None = Ok results
    ∧ sequence_index results = index_of 0 ((a :: A) ++ cut :: r' :: B)
    ∧ (λ r, (min_range r, max_range r)) <$> results
      = [(0, off); (off, Py.len object)].
Proof.
  intros HA HB Hnl1 Hnl2 Hgt1 Hgt2 Hlt1 Hc2 Hbd cut object off cs Hsize Hsmall.
  eexists. split; [by apply map_reduce_cut_header|].
  split; [|reflexivity].
  unfold sequence_index. cbn [fmap list_fmap concat sequences].
  rewrite app_nil_r, index_of_app. reflexivity.
Qed.

Lemma header_cut_between_two_chunks_witness :
  ∃ results,
    map_reduce
      (text_store
         (fasta_text
            ([ {| header := "s1"; body := "AAAAAAAA" |} ]
               ++ {| header := "se" +:+ "q2 x"; body := "CC" |}
               :: [ {| header := "s3"; body := "TT" |} ])))
      "key"
      (Py.len
         (fasta_text
            ([ {| header := "s1"; body := "AAAAAAAA" |} ]
               ++ {| header := "se" +:+ "q2 x"; body := "CC" |}
               :: [ {| header := "s3"; body := "TT" |} ])))
      (Some 16) None = Ok results
    ∧ sequence_index results
      = ["s1" +:+ NL +:+ " 1 0 4 8"; "seq2 1 13 21 2";
         "s3" +:+ NL +:+ " 1 24 28 2"]
    ∧ (λ r, (min_range r, max_range r)) <$> results = [(0, 13); (13, 31)].
Proof.
  assert (HA : Forall well_formed [ {| header := "s1"; body := "AAAAAAAA" |} ])
    by (repeat constructor; (discriminate || reflexivity)).
  assert (HB : Forall well_formed [ {| header := "s3"; body := "TT" |} ])
    by (repeat constructor; (discriminate || reflexivity)).
  refine (header_cut_between_two_chunks _ [] "se" "q2 x" "CC" _ [] "key"
            HA HB _ _ _ _ _ _ _ _ _);
    (reflexivity || discriminate).
Defined.

(** ** A sequence that goes on in a chunk without header *)

(** X16: an object of whole records in two chunks, the first of which
    ends inside the body of the last record (after the part [b1] of it, with
    at least one whole record before), the second of which holds the rest
    [b2] of that body and nothing else; the object is smaller than
    [2 ^ 53].  The second chunk has no header, so [map], called on the text
    of its range, returns no entry for it and writes no marker, and [reduce],
    called on the two records, changes nothing: neither raises, and the
    entry of the last sequence has the span 1 and the number of the bases of
    [b1] only; the bases of [b2] are counted nowhere. *)
Theorem bases_after_the_last_header_are_not_counted (a : Fasta)
    (A : list Fasta) (h b1 b2 key : string) :
  Forall well_formed (a :: A) →
  h ≠ "" → lacks Py.nl h → lacks ">" b1 → lacks ">" b2 → b2 ≠ "" →
  let cut := {| header := h; body := b1 +:+ b2 |} in
  let object := fasta_text ((a :: A) ++ [cut]) in
  let off := Py.len (fasta_text (a :: A)) in
  let chunk_size := off + Py.len h + 2 + Py.len b1 in
  Py.len object ≤ 2 * chunk_size →
  Py.len object < 2 ^ 53 →
  (∃ results,
     map_reduce (text_store object) key (Py.len object)
       (Some chunk_size) None = Ok results
     ∧ sequence_index results
       = index_of 0 (a :: A)
           ++ [entry_len (name_of cut) 1 off (off + Py.len h + 2)
                 (count_bases b1)])
  ∧ count_bases (body cut) = count_bases b1 + count_bases b2.
Proof.
  intros HA Hne Hnl Hb1 Hb2 Hb2ne cut object off cs Hsize Hsmall.
  split; [|unfold cut; cbn [body]; by rewrite count_bases_app].
  set (chunk1 := fasta_text (a :: A) +:+ ">" +:+ h +:+ NL +:+ b1).
  set (chunk2 := b2 +:+ NL).
  assert (Hobject : object = chunk1 +:+ chunk2).
  { assert (Hrender : render cut = ">" +:+ h +:+ NL +:+ b1 +:+ b2 +:+ NL)
      by (unfold render, cut; cbn [header body]; streq).
    subst object chunk1 chunk2. rewrite fasta_text_app.
    change (fasta_text [cut]) with (render cut +:+ "").
    rewrite Hrender. streq. }
  pose proof (len_nonneg (fasta_text (a :: A))) as Hoff. fold off in Hoff.
  pose proof (len_nonneg h). pose proof (len_nonneg b1).
  pose proof (len_nonneg b2).
  assert (Hlen1 : Py.len chunk1 = cs).
  { subst chunk1 cs off. unfold NL. rewrite !len_app, !len_cons.
    change (Py.len "") with 0. lia. }
  assert (Hlen2 : Py.len chunk2 = Py.len b2 + 1).
  { subst chunk2. unfold NL. rewrite !len_app, !len_cons.
    change (Py.len "") with 0. lia. }
  assert (Hos : Py.len object = cs + Py.len chunk2)
    by (rewrite Hobject, len_app; lia).
  assert (Hcs : 0 < cs) by (subst cs; lia).
  set (os := Py.len object) in *.
  assert (Hiter : ceil_div os cs = 2).
  { pose proof (ceil_div_bounds os cs Hcs). nia. }
  assert (Hstore1 : text_store object 0 cs = chunk1).
  { unfold text_store. rewrite Hobject.
    change (chunk1 +:+ chunk2) with ("" +:+ chunk1 +:+ chunk2).
    apply slice_middle; [reflexivity|]. change (Py.len "") with 0. lia. }
  assert (Hmap1 :
    map chunk1 0 key cs os 2
    = Ok {| min_range := 0; max_range := cs;
            sequences :=
              index_of 0 (a :: A)
                ++ [entry_len (name_of cut) 1 off (off + Py.len h + 2)
                      (count_bases b1)] |}).
  { unfold chunk1.
    rewrite (map_records_then_cut a A h b1 key 0 cs os 2 ltac:(lia) HA
               Hne Hnl Hb1).
    - unfold map_range. cbn [snd]. change (0 =? 2 - 1) with false.
      cbv iota. change (0 + 1) with 1. rewrite Z.mul_1_l. reflexivity.
    - unfold map_range. cbn [snd]. change (0 =? 2 - 1) with false.
      cbv iota. fold chunk1. lia. }
  assert (Hstore2 : text_store object cs os = chunk2).
  { unfold text_store. rewrite Hobject. apply slice_to_end; lia. }
  assert (Hmap2 :
    map chunk2 1 key cs os 2
    = Ok {| min_range := cs; max_range := os; sequences := [] |}).
  { pose proof (map_cases chunk2 key 1 cs os 2 ltac:(lia)) as Hcases.
    cbv zeta in Hcases.
    assert (Hno : Py.contains (NL +:+ ">") chunk2 = false).
    { apply (contains_absent ">"); [reflexivity|].
      subst chunk2. unfold NL. lacks. }
    rewrite Hno in Hcases. subst chunk2.
    destruct b2 as [|c b2]; [done|].
    apply lacks_cons in Hb2 as [Hc _].
    change (String c b2 +:+ NL) with (String c (b2 +:+ NL)) in *.
    cbv beta iota in Hcases. rewrite Hc in Hcases.
    rewrite Hcases, Z.mul_1_l. reflexivity. }
  exists [ {| min_range := 0; max_range := cs;
              sequences :=
                index_of 0 (a :: A)
                  ++ [entry_len (name_of cut) 1 off (off + Py.len h + 2)
                        (count_bases b1)] |};
           {| min_range := cs; max_range := os; sequences := [] |} ].
  split.
  - unfold map_reduce. rewrite chunking_chunk_size by lia.
    cbn [mbind result_bind]. rewrite Hiter.
    change (Py.range 0 2) with [0; 1]. cbn [for_each].
    unfold map_worker, byte_range.
    change (0 * cs) with 0. rewrite Z.add_0_l, Z.mul_1_l.
    assert (Hr0 : (if cs <=? os then cs else os) = cs)
      by (destruct (Z.leb_spec cs os); lia).
    assert (Hr1 : (if cs + cs <=? os then cs + cs else os) = os)
      by (destruct (Z.leb_spec (cs + cs) os); lia).
    rewrite Hr0, Hr1, Hstore1, Hmap1. cbn [mbind result_bind app].
    rewrite Hstore2, Hmap2. cbn [mbind result_bind app].
    rewrite reduce_two. unfold reduce_body.
    match goal with
    | |- context [Py.get [?p; ?c] 1] =>
        change (Py.get [p; c] 1) with (Ok c);
        change (Py.get [p; c] (1 - 1)) with (Ok p)
    end.
    cbn [mbind result_bind sequences]. change (1 >? 0) with true. cbv iota.
    by destruct (index_of 0 (a :: A) ++ _) at 1.
  - unfold sequence_index. cbn [fmap list_fmap concat sequences].
    by rewrite !app_nil_r.
Qed.

Lemma bases_after_the_last_header_are_not_counted_witness :
  (∃ results,
     map_reduce
       (text_store
          (fasta_text
             ([ {| header := "s1"; body := "AAAA" |} ]
                ++ [ {| header := "s2"; body := "CCCC" +:+ "GGGG" |} ])))
       "key"
       (Py.len
          (fasta_text
             ([ {| header := "s1"; body := "AAAA" |} ]
                ++ [ {| header := "s2"; body := "CCCC" +:+ "GGGG" |} ])))
       (Some 17) None = Ok results
     ∧ sequence_index results
       = ["s1" +:+ NL +:+ " 1 0 4 4"; "s2" +:+ NL +:+ " 1 9 13 4"])
  ∧ 8 = 4 + 4.
Proof.
  assert (HA : Forall well_formed [ {| header := "s1"; body := "AAAA" |} ])
    by (repeat constructor; (discriminate || reflexivity)).
  refine (bases_after_the_last_header_are_not_counted _ [] "s2" "CCCC" "GGGG"
            "key" HA _ _ _ _ _ _ _);
    (reflexivity || discriminate).
Defined.

(** ** Ranges read the way HTTP reads them *)

(** X17: the range [bytes=r0-r1] that line 215 asks for includes the byte
    [r1] when the store reads it the way HTTP does.  Then, for an object of
    whole records smaller than [2 ^ 53], cut at a record boundary into two
    chunks (at least one record in the first, at least two in the second),
    the first chunk is read with the [>] that starts the second one: [map]
    called on the two texts and [reduce] called on the two records raise
    nothing, every record gets its entry, and the tail-split marker
    [<_> chunk_size] that [map] writes for that [>] stays in the index,
    [reduce] finding no head-split marker to resolve it with. *)
Theorem inclusive_ranges_leave_a_marker (a : Fasta) (A : list Fasta)
    (r1 r2 : Fasta) (B : list Fasta) (key : string) :
  Forall well_formed (a :: A) → Forall well_formed (r1 :: r2 :: B) →
  let object := fasta_text ((a :: A) ++ r1 :: r2 :: B) in
  let chunk_size := Py.len (fasta_text (a :: A)) in
  Py.len object ≤ 2 * chunk_size →
  Py.len object < 2 ^ 53 →
  ∃ results,
    map_reduce (closed_store object) key (Py.len object)
      (Some chunk_size) None = Ok results
    ∧ sequence_index results
      = index_of 0 (a :: A) ++ [tail_split false "" chunk_size]
          ++ index_of chunk_size (r1 :: r2 :: B)
    ∧ is_marker (tail_split false "" chunk_size) = true.
Proof.
  intros HA HB object cs Hsize Hsmall.
  set (chunk1 := fasta_text (a :: A)) in *.
  set (chunk2 := fasta_text (r1 :: r2 :: B)).
  assert (Hobject : object = chunk1 +:+ chunk2)
    by (subst object chunk1 chunk2; apply fasta_text_app).
  assert (Hchunk2 : ∃ t, chunk2 = ">" +:+ t).
  { exists (header r1 +:+ NL +:+ body r1 +:+ NL +:+ fasta_text (r2 :: B)).
    subst chunk2.
    change (fasta_text (r1 :: r2 :: B))
      with (render r1 +:+ fasta_text (r2 :: B)).
    unfold render at 1. streq. }
  destruct Hchunk2 as (t & Hchunk2).
  assert (Hpos : 0 < cs).
  { subst cs chunk1. cbn [fasta_text]. rewrite len_app, len_render.
    pose proof (len_nonneg (header a)). pose proof (len_nonneg (body a)).
    pose proof (len_nonneg (fasta_text A)). lia. }
  pose proof (len_nonneg t) as Ht.
  assert (Hlen2 : Py.len chunk2 = 1 + Py.len t)
    by (rewrite Hchunk2; apply len_cons).
  assert (Hos : Py.len object = cs + Py.len chunk2)
    by (rewrite Hobject, len_app; reflexivity).
  set (os := Py.len object) in *.
  assert (Hiter : ceil_div os cs = 2).
  { pose proof (ceil_div_bounds os cs Hpos). nia. }
  assert (Hstore1 : closed_store object 0 cs = chunk1 +:+ ">").
  { unfold closed_store. rewrite Hobject, Hchunk2.
    replace (chunk1 +:+ ">" +:+ t) with ("" +:+ (chunk1 +:+ ">") +:+ t)
      by streq.
    apply slice_middle; [reflexivity|].
    rewrite len_app. change (Py.len "") with 0. change (Py.len ">") with 1.
    fold cs. lia. }
  assert (Hmap1 :
    map (chunk1 +:+ ">") 0 key cs os 2
    = Ok {| min_range := 0; max_range := cs;
            sequences := index_of 0 (a :: A) ++ [tail_split false "" cs] |}).
  { replace (chunk1 +:+ ">") with (chunk1 +:+ ">" +:+ "") by streq.
    unfold chunk1.
    rewrite (map_records_then_cut_header a A "" key 0 cs os 2 ltac:(lia) HA
               eq_refl).
    unfold map_range. cbn [snd]. change (0 =? 2 - 1) with false.
    cbv iota. change (0 + 1) with 1. rewrite Z.mul_1_l. reflexivity. }
  assert (Hstore2 : closed_store object cs os = chunk2).
  { unfold closed_store. rewrite Hobject. apply slice_to_end; [reflexivity|].
    fold cs. lia. }
  assert (Hmap2 :
    map chunk2 1 key cs os 2
    = Ok {| min_range := cs; max_range := os;
            sequences := index_of cs (r1 :: r2 :: B) |}).
  { unfold chunk2.
    rewrite (map_on_whole_records r1 r2 B key 1 cs os 2 ltac:(lia) HB).
    - unfold map_range. cbn [snd]. change (1 =? 2 - 1) with true.
      cbv iota. rewrite Z.mul_1_l. reflexivity.
    - unfold map_range. cbn [snd]. change (1 =? 2 - 1) with true.
      cbv iota. fold chunk2. lia. }
  exists [ {| min_range := 0; max_range := cs;
              sequences := index_of 0 (a :: A) ++ [tail_split false "" cs] |};
           {| min_range := cs; max_range := os;
              sequences := index_of cs (r1 :: r2 :: B) |} ].
  split; [|split].
  - unfold map_reduce. rewrite chunking_chunk_size by lia.
    cbn [mbind result_bind]. rewrite Hiter.
    change (Py.range 0 2) with [0; 1]. cbn [for_each].
    unfold map_worker, byte_range.
    change (0 * cs) with 0. rewrite Z.add_0_l, Z.mul_1_l.
    assert (Hr0 : (if cs <=? os then cs else os) = cs)
      by (destruct (Z.leb_spec cs os); lia).
    assert (Hr1 : (if cs + cs <=? os then cs + cs else os) = os)
      by (destruct (Z.leb_spec (cs + cs) os); lia).
    rewrite Hr0, Hr1.
    rewrite Hstore1, Hmap1. cbn [mbind result_bind app].
    rewrite Hstore2, Hmap2. cbn [mbind result_bind app].
    rewrite reduce_two. apply reduce_body_no_head_split; [|cbn; lia].
    cbn [no_head_split forallb sequences index_of app].
    by rewrite !entry_len_no_head_split.
  - unfold sequence_index. cbn [fmap list_fmap concat sequences].
    by rewrite app_nil_r, <- app_assoc.
  - unfold is_marker. rewrite (proj2 (contains_tail_split false "" cs eq_refl)).
    by rewrite orb_true_r.
Qed.

Lemma inclusive_ranges_leave_a_marker_witness :
  ∃ results,
    map_reduce
      (closed_store
         (fasta_text
            ([ {| header := "s1"; body := "AAAAAAAAAAAA" |} ]
               ++ {| header := "s2"; body := "CC" |}
               :: {| header := "s3"; body := "GG" |} :: [])))
      "key"
      (Py.len
         (fasta_text
            ([ {| header := "s1"; body := "AAAAAAAAAAAA" |} ]
               ++ {| header := "s2"; body := "CC" |}
               :: {| header := "s3"; body := "GG" |} :: [])))
      (Some (Py.len
               (fasta_text [ {| header := "s1"; body := "AAAAAAAAAAAA" |} ])))
      None = Ok results
    ∧ sequence_index results
      = ["s1" +:+ NL +:+ " 1 0 4 12"; "<_> 17";
         "s2" +:+ NL +:+ " 1 17 21 2"; "s3" +:+ NL +:+ " 1 24 28 2"]
    ∧ is_marker "<_> 17" = true.
Proof.
  assert (HA : Forall well_formed
                 [ {| header := "s1"; body := "AAAAAAAAAAAA" |} ])
    by (repeat constructor; (discriminate || reflexivity)).
  assert (HB : Forall well_formed
                 [ {| header := "s2"; body := "CC" |};
                   {| header := "s3"; body := "GG" |} ])
    by (repeat constructor; (discriminate || reflexivity)).
  refine (inclusive_ranges_leave_a_marker _ [] _ _ [] "key" HA HB _ _);
    [vm_compute; discriminate|reflexivity].
Defined.

(** ** What [__local_preprocess] does *)

